(** * Verification and repair core of MIDAS: a shallow embedding

    The development follows the Python sources under
    [src/pipeline/verification/]:

    - [parser.py]                     -> [Module VerificationOutputParser]
    - [executor.py]                   -> [Module SafeExecutor]
    - [verification.py]               -> [Module VerificationPipeline]
    - [verification_orchestrator.py]  -> [Module VerificationOrchestrator]

    Library code the sources call ([json.loads], [ast.parse], [exec], the
    language-model client) is not part of the repository: it enters the
    parser and the executor as [Variable]s of their sections and the pipeline
    as a record, [Runtime]. [Module Scenario] instantiates it on explicit
    scripts and output lines, on which the theorems are then run. *)

From Stdlib Require Import Ascii String QArith Qround Qabs Qminmax Lqa.
From stdpp Require Import base option list strings gmap pretty.

#[local] Set Warnings "-register-all".
#[local] Open Scope string_scope.
#[local] Open Scope Z_scope.

(** ** Python values *)

(** An exception instance, as far as the pipeline looks at it:
    [type(e).__name__] and [str(e)]. *)
Record PyException := mkExc {
  exc_type : string;
  exc_message : string
}.

(** The result of evaluating something that either yields a value or raises
    an exception deriving from [Exception]. *)
Inductive outcome (A : Type) :=
| Ok (a : A)
| Raise (e : PyException).
Arguments Ok {A} a.
Arguments Raise {A} e.

#[global] Instance outcome_ret : MRet outcome := @Ok.
#[global] Instance outcome_bind : MBind outcome := fun A B k m =>
  match m with
  | Ok a => k a
  | Raise e => Raise e
  end.

(** A Python [float] that [json.loads] decoded: the number it stands for,
    or a non-finite value. The parser only tests it for truth. *)
Inductive pyfloat :=
| FNum (q : Q)
| FNan
| FInf (negative : bool).

(** What [json.loads] can return. A JSON object becomes a [dict] with string
    keys, modelled as a finite map. *)
Inductive json :=
| JNull
| JBool (b : bool)
| JInt (z : Z)
| JFloat (f : pyfloat)
| JStr (s : string)
| JArr (l : list json)
| JObj (m : gmap string json).

Abbreviation pydict := (gmap string json).

(** Python truth value testing ([bool(v)]). *)
Definition truthy (v : json) : bool :=
  match v with
  | JNull => false
  | JBool b => b
  | JInt z => negb (z =? 0)
  | JFloat (FNum q) => negb (Qeq_bool q 0)
  | JFloat _ => true
  | JStr s => negb (String.eqb s "")
  | JArr l => negb (Nat.eqb (length l) 0)
  | JObj m => negb (Nat.eqb (size m) 0)
  end.

(** [isinstance(v, int)]: [bool] is a subclass of [int]. *)
Definition isinstance_int (v : json) : bool :=
  match v with
  | JInt _ | JBool _ => true
  | _ => false
  end.

(** [isinstance(v, bool)]. *)
Definition isinstance_bool (v : json) : bool :=
  match v with
  | JBool _ => true
  | _ => false
  end.

(** ** Python strings

    A [string] stands for a Python [str] whose code points are below 256,
    one [ascii] per code point. *)
Module PyStr.

Definition code (c : ascii) : N := N_of_ascii c.

(** [str.isspace] on one code point below 256. *)
Definition is_space (c : ascii) : bool :=
  let n := code c in
  ((9 <=? n) && (n <=? 13) || (28 <=? n) && (n <=? 32)
   || (n =? 133) || (n =? 160))%N.

(** The line boundaries of [str.splitlines] below 256, apart from the
    two-character boundary CR LF. *)
Definition is_linebreak (c : ascii) : bool :=
  let n := code c in
  ((10 <=? n) && (n <=? 13) || (28 <=? n) && (n <=? 30) || (n =? 133))%N.

Fixpoint lstrip (s : string) : string :=
  match s with
  | EmptyString => EmptyString
  | String c s' => if is_space c then lstrip s' else s
  end.

Fixpoint rev_onto (s acc : string) : string :=
  match s with
  | EmptyString => acc
  | String c s' => rev_onto s' (String c acc)
  end.

Definition rev (s : string) : string := rev_onto s EmptyString.

Definition rstrip (s : string) : string := rev (lstrip (rev s)).

(** [s.strip()] *)
Definition strip (s : string) : string := rstrip (lstrip s).

(** [s.splitlines()]: [cur] holds the current line, reversed. *)
Fixpoint splitlines_from (s cur : string) : list string :=
  match s with
  | EmptyString =>
      match cur with
      | EmptyString => []
      | _ => [rev cur]
      end
  | String c s' =>
      if is_linebreak c then
        match s' with
        | String c' s'' =>
            if ((code c =? 13) && (code c' =? 10))%N
            then rev cur :: splitlines_from s'' EmptyString
            else rev cur :: splitlines_from s' EmptyString
        | EmptyString => [rev cur]
        end
      else splitlines_from s' (String c cur)
  end.

Definition splitlines (s : string) : list string :=
  splitlines_from s EmptyString.

(** [sub in s] for strings. *)
Fixpoint contains (sub s : string) : bool :=
  String.prefix sub s ||
  match s with
  | EmptyString => false
  | String _ s' => contains sub s'
  end.

(** [sub] occurs in [s]. *)
Definition occurs (sub s : string) : Prop :=
  exists before after, s = before +:+ sub +:+ after.

(** [sep.join(parts)] *)
Fixpoint join (sep : string) (parts : list string) : string :=
  match parts with
  | [] => ""
  | [p] => p
  | p :: rest => p +:+ sep +:+ join sep rest
  end.

Definition nl : string := String (ascii_of_N 10) EmptyString.

End PyStr.

(** ** verification_types.py *)

Inductive ErrorType :=
| SYNTAX_ERROR
| IMPORT_ERROR
| RUNTIME_ERROR
| TIMEOUT
| ASSERTION_FAILED
| ANSWER_MISMATCH
| INCOMPLETE_VERIFICATION
| SYMBOLIC_FAILURE
| CONTRACT_VIOLATION.

Record VerificationError := mkVerificationError {
  error_type : ErrorType;
  message : string;
  line_number : option Z;
  problematic_code : option string;
  suggested_fix : option string;
  traceback : option string
}.

Record StepVerification := mkStepVerification {
  step_number : Z;
  description : string;
  verified : bool
}.

Record CodeExecutionResult := mkCodeExecutionResult {
  success : bool;
  stdout : string;
  stderr : string;
  execution_time : Q;
  exception_type : option string;
  exception_message : option string;
  exception_traceback : option string
}.

(** ** parser.py *)
Module VerificationOutputParser.

(** [key in data] for a string key. Numbers, booleans and [None] are not
    containers. *)
Definition py_contains (key : string) (data : json) : outcome bool :=
  match data with
  | JObj m => Ok (bool_decide (is_Some (m !! key)))
  | JArr l =>
      Ok (existsb (fun v => match v with
                            | JStr s => String.eqb s key
                            | _ => false
                            end) l)
  | JStr s => Ok (PyStr.contains key s)
  | JNull => Raise (mkExc "TypeError" "argument of type 'NoneType' is not iterable")
  | JBool _ => Raise (mkExc "TypeError" "argument of type 'bool' is not iterable")
  | JInt _ => Raise (mkExc "TypeError" "argument of type 'int' is not iterable")
  | JFloat _ => Raise (mkExc "TypeError" "argument of type 'float' is not iterable")
  end.

(** [type(data).__name__] *)
Definition type_name (data : json) : string :=
  match data with
  | JNull => "NoneType"
  | JBool _ => "bool"
  | JInt _ => "int"
  | JFloat _ => "float"
  | JStr _ => "str"
  | JArr _ => "list"
  | JObj _ => "dict"
  end.

(** [data[key]] for a string key, reached only after [key in data]. *)
Definition py_getitem (data : json) (key : string) : outcome json :=
  match data with
  | JObj m =>
      match m !! key with
      | Some v => Ok v
      | None => Raise (mkExc "KeyError" key)
      end
  | JArr _ => Raise (mkExc "TypeError" "list indices must be integers or slices, not str")
  | JStr _ => Raise (mkExc "TypeError" "string indices must be integers, not 'str'")
  | _ => Raise (mkExc "TypeError"
                  ("'" +:+ type_name data +:+ "' object is not subscriptable"))
  end.

(** [data.get(key, default)]: only a [dict] has the method. *)
Definition py_get (data : json) (key : string) (dflt : json) : outcome json :=
  match data with
  | JObj m => Ok (default dflt (m !! key))
  | _ => Raise (mkExc "AttributeError"
                  ("'" +:+ type_name data +:+ "' object has no attribute 'get'"))
  end.

(** [key in data] for an array or a string, as a proposition: [key] is an
    element of the array, or occurs in the string. *)
Definition holds (data : json) (key : string) : Prop :=
  match data with
  | JArr l => JStr key ∈ l
  | JStr s => PyStr.occurs key s
  | _ => False
  end.

(** Construction of a [StepVerification] (a pydantic model): an [int]
    field takes an integer, or a boolean as 0 or 1; a [str] field takes
    only a string; anything else is a [ValidationError]. *)
Definition new_StepVerification (step desc ver : json) : outcome StepVerification :=
  let invalid := mkExc "ValidationError" "1 validation error for StepVerification" in
  match step, desc, ver with
  | JInt z, JStr d, JBool b => Ok (mkStepVerification z d b)
  | JBool n, JStr d, JBool b => Ok (mkStepVerification (if n then 1 else 0) d b)
  | _, _, _ => Raise invalid
  end.

(** The object kept as [final_verdict] is the decoded line itself. *)
Definition as_dict (data : json) : option pydict :=
  match data with
  | JObj m => Some m
  | _ => None
  end.

(** The loop variables [step_verifications] and [final_verdict]. *)
Definition parse_state : Type := list StepVerification * option pydict.

(** The body of the loop of [parse] after [json.loads], lines 36-48: the
    state it leaves, or the exception it raises. *)
Definition on_record (data : json) (st : parse_state) : outcome parse_state :=
  has_step ← py_contains "step" data;
  has_both ← (if has_step : bool then py_contains "verified" data else mret false);
  if has_both : bool then
    step ← py_getitem data "step";
    if negb (isinstance_int step) then mret st
    else
      ver ← py_getitem data "verified";
      if negb (isinstance_bool ver) then mret st
      else
        desc ← py_get data "description" (JStr "");
        sv ← new_StepVerification step desc ver;
        mret ((st.1 ++ [sv])%list, st.2)
  else
    has_final ← py_contains "final_answer_verified" data;
    if has_final : bool then
      v ← py_get data "final_answer_verified" JNull;
      if isinstance_bool v then mret (st.1, as_dict data) else mret st
    else mret st.

(** The two record shapes of the verification contract, read off a decoded
    line: a step object with an integer [step], a string [description] and a
    boolean [verified]; a verdict object with a boolean
    [final_answer_verified]. *)
Definition contract_step (data : json) : option StepVerification :=
  match data with
  | JObj m =>
      match m !! "step", m !! "description", m !! "verified" with
      | Some (JInt n), Some (JStr d), Some (JBool b) => Some (mkStepVerification n d b)
      | _, _, _ => None
      end
  | _ => None
  end.

Definition contract_verdict (data : json) : option bool :=
  match data with
  | JObj m =>
      match m !! "final_answer_verified" with
      | Some (JBool b) => Some b
      | _ => None
      end
  | _ => None
  end.

(** How the loop body sorts a decoded object: it is taken for a step when
    it has both keys with an integer and a boolean, for a verdict when it
    lacks one of the two keys and has a boolean [final_answer_verified]. *)
Definition taken_for_step (m : pydict) : bool :=
  match m !! "step", m !! "verified" with
  | Some step, Some ver => isinstance_int step && isinstance_bool ver
  | _, _ => false
  end.

Definition taken_for_verdict (m : pydict) : bool :=
  match m !! "step", m !! "verified" with
  | Some _, Some _ => false
  | _, _ => bool_decide (is_Some (contract_verdict (JObj m)))
  end.

(** A kept verdict is an object with a boolean [final_answer_verified]. *)
Definition verdict_ok (verdict : option pydict) : Prop :=
  forall m, verdict = Some m -> is_Some (contract_verdict (JObj m)).

Section Parse.

(** [json.loads] on one stripped line: the decoded value, or the
    exception raised ([json.JSONDecodeError], a subclass of
    [ValueError]). *)
Variable json_loads : string -> outcome json.

(** One iteration of the loop, lines 29-48. *)
Definition parse_line (line : string) (st : parse_state) : outcome parse_state :=
  let line := PyStr.strip line in
  if String.eqb line "" then mret st
  else data ← json_loads line; on_record data st.

(** The [try] block around the loop: both handlers return the lists as
    they stand together with the exception. *)
Fixpoint parse_lines (lines : list string) (st : parse_state)
  : list StepVerification * option pydict * option PyException :=
  match lines with
  | [] => (st.1, st.2, None)
  | line :: rest =>
      match parse_line line st with
      | Ok st' => parse_lines rest st'
      | Raise e => (st.1, st.2, Some e)
      end
  end.

(** The lines the loop runs over. *)
Definition stdout_lines (execution_result : CodeExecutionResult) : list string :=
  PyStr.splitlines (PyStr.strip (stdout execution_result)).

Definition parse (execution_result : CodeExecutionResult)
  : list StepVerification * option pydict * option PyException :=
  if negb (success execution_result) then ([], None, None)
  else parse_lines (stdout_lines execution_result) ([], None).

End Parse.

End VerificationOutputParser.

(** ** executor.py *)
Module SafeExecutor.

(** What [sys.stdout] or [sys.stderr] is bound to: a stream of the host, or
    one of the two [StringIO] objects of the call in progress. *)
Inductive stream :=
| HostStream (name : string)
| stdout_capture
| stderr_capture.

(** A handler installed for [SIGALRM]. *)
Inductive handler :=
| SIG_DFL
| SIG_IGN
| HostHandler (id : nat)
| timeout_handler (timeout : Z).

(** A resource limit value. *)
Inductive rlim :=
| RLIM_INFINITY
| Bytes (n : Z).

(** The part of the interpreter process that [execute] reads or writes. *)
Record Process := mkProcess {
  sys_stdout : stream;
  sys_stderr : stream;
  sigalrm_handler : handler;
  alarm : option Z;                 (* seconds of the pending alarm *)
  rlimit_as : rlim * rlim;          (* soft and hard limit of RLIMIT_AS *)
  resource_available : bool;        (* [import resource] succeeds *)
  in_main_thread : bool;            (* [signal.signal] is permitted *)
  clock : Q;                        (* [time.time()] *)
  captured_out : string;            (* [stdout_capture.getvalue()] *)
  captured_err : string             (* [stderr_capture.getvalue()] *)
}.

Definition set_streams (out err : stream) (p : Process) : Process :=
  mkProcess out err (sigalrm_handler p) (alarm p) (rlimit_as p)
            (resource_available p) (in_main_thread p) (clock p)
            (captured_out p) (captured_err p).

Definition set_handler (h : handler) (p : Process) : Process :=
  mkProcess (sys_stdout p) (sys_stderr p) h (alarm p) (rlimit_as p)
            (resource_available p) (in_main_thread p) (clock p)
            (captured_out p) (captured_err p).

Definition set_alarm (a : option Z) (p : Process) : Process :=
  mkProcess (sys_stdout p) (sys_stderr p) (sigalrm_handler p) a (rlimit_as p)
            (resource_available p) (in_main_thread p) (clock p)
            (captured_out p) (captured_err p).

Definition set_rlimit_as (l : rlim * rlim) (p : Process) : Process :=
  mkProcess (sys_stdout p) (sys_stderr p) (sigalrm_handler p) (alarm p) l
            (resource_available p) (in_main_thread p) (clock p)
            (captured_out p) (captured_err p).

Definition set_clock (t : Q) (p : Process) : Process :=
  mkProcess (sys_stdout p) (sys_stderr p) (sigalrm_handler p) (alarm p)
            (rlimit_as p) (resource_available p) (in_main_thread p) t
            (captured_out p) (captured_err p).

Definition set_captured (out err : string) (p : Process) : Process :=
  mkProcess (sys_stdout p) (sys_stderr p) (sigalrm_handler p) (alarm p)
            (rlimit_as p) (resource_available p) (in_main_thread p) (clock p)
            out err.

(** Text written to a stream: kept when the stream is one of the capture
    buffers. *)
Definition write (s : stream) (text : string) (p : Process) : Process :=
  match s with
  | stdout_capture => set_captured (captured_out p +:+ text) (captured_err p) p
  | stderr_capture => set_captured (captured_out p) (captured_err p +:+ text) p
  | HostStream _ => p
  end.

(** An instance: the two attributes set by [__init__]. *)
Record SafeExecutor := mkSafeExecutor {
  timeout : Z;
  max_memory_mb : Z
}.

(** The state of a statement that finished: it returned, raised an
    exception deriving from [Exception], or raised one that derives from
    [BaseException] only ([SystemExit], [KeyboardInterrupt], ...). *)
Inductive result (A : Type) :=
| Val (a : A)
| Exc (e : PyException)
| BaseExc (e : PyException).
Arguments Val {A} a.
Arguments Exc {A} e.
Arguments BaseExc {A} e.

(** What the [except] clause of [execute] ends in when it cannot render the
    exception it caught, because [str(e)] or [traceback.format_exc()]
    raises: an exception that derives from [Exception], or one that does
    not. *)
Inductive Thrown :=
| ThrownException (e : PyException)
| ThrownBase (e : PyException).

(** How [exec(code, namespace)] ends. [ScriptRaised e]: the script raised
    an exception that derives from [Exception], with [exc_message e] for its
    [str]. [ScriptRaisedUnprintable type_name thrown]: it raised an object of
    a class of its own that derives from [Exception] and that cannot be
    rendered, its [__str__] raising [thrown]; what [__str__] raises is an
    ordinary exception.
    [ScriptRaisedBase e]: it raised outside [Exception]. [AlarmFired]:
    [SIGALRM] arrived and the script did not handle what the handler
    raised. *)
Inductive ScriptEnd :=
| Completed
| ScriptRaised (e : PyException)
| ScriptRaisedUnprintable (type_name : string) (thrown : Thrown)
| ScriptRaisedBase (e : PyException)
| AlarmFired.

(** How the [try] block of [execute] ends: it ran to its [return], or an
    exception is on its way to the [except Exception] clause, or past it. *)
Inductive TryEnd :=
| Returned
| Raised (e : PyException)
| RaisedUnprintable (type_name : string) (thrown : Thrown)
| RaisedBase (e : PyException).

(** One run of [exec]: what the script printed, how long it took and how
    it ended. *)
Record ScriptRun := mkScriptRun {
  printed_out : string;
  printed_err : string;
  seconds : Q;
  script_end : ScriptEnd
}.

(** The alarm that [alarm(seconds)] of the C library leaves pending: its
    argument is an [unsigned int], and zero cancels the alarm. *)
Definition armed (s : Z) : option Z :=
  if s mod 2 ^ 32 =? 0 then None else Some (s mod 2 ^ 32).

(** [signal.alarm(seconds)]: the argument is converted to a C [int]
    first, and a Python integer outside its range is an [OverflowError]. *)
Definition signal_alarm (s : Z) (p : Process) : outcome Process :=
  if (s <? - 2 ^ 31) || (2 ^ 31 <=? s)
  then Raise (mkExc "OverflowError" "Python int too large to convert to C int")
  else Ok (set_alarm (armed s) p).

(** The limit that a Python integer in the range of a C [long] stands
    for: [-1] is [RLIM_INFINITY]. *)
Definition to_rlim (n : Z) : rlim :=
  if n =? -1 then RLIM_INFINITY else Bytes n.

(** The order of limits, which the kernel reads as unsigned numbers. *)
Definition rlim_below (a b : rlim) : bool :=
  match a, b with
  | RLIM_INFINITY, _ => false
  | Bytes _, RLIM_INFINITY => true
  | Bytes x, Bytes y => x mod 2 ^ 64 <? y mod 2 ^ 64
  end.

(** [resource.setrlimit(RLIMIT_AS, (n, n))] in an unprivileged process: the
    number is converted to a C [long] first, and a Python integer outside
    its range is an [OverflowError]; the hard limit cannot be raised
    ([ValueError]). *)
Definition setrlimit_as (n : Z) (p : Process) : outcome Process :=
  if (n <? - 2 ^ 63) || (2 ^ 63 <=? n)
  then Raise (mkExc "OverflowError" "Python int too large to convert to C long")
  else if rlim_below (snd (rlimit_as p)) (to_rlim n)
  then Raise (mkExc "ValueError" "not allowed to raise maximum limit")
  else Ok (set_rlimit_as (to_rlim n, to_rlim n) p).

Definition allowed_modules : list string :=
  ["sympy"; "json"; "math"; "itertools"; "functools"; "operator"; "collections"].

(** [name.split('.')[0]] *)
Fixpoint top_package (name : string) : string :=
  match name with
  | EmptyString => EmptyString
  | String c rest =>
      if Ascii.eqb c "."%char then EmptyString else String c (top_package rest)
  end.

(** [_restricted_import], up to the import itself: [None] when the module is
    handed to [__import__], the [ImportError] otherwise. [allowed_repr] is
    the rendering of the set in the message, whose order of elements is not
    fixed. *)
Definition _restricted_import (allowed_repr name : string) : option PyException :=
  if bool_decide (top_package name ∈ allowed_modules) then None
  else Some (mkExc "ImportError"
               ("Import of module '" +:+ name +:+ "' is not allowed. Only "
                +:+ allowed_repr +:+ " are permitted.")).

Section Execute.

(** [ast.parse(code)]: returns, or raises [SyntaxError] (or another
    subclass of [Exception]). *)
Variable ast_parse : string -> outcome unit.

(** [exec(code, self._create_safe_namespace())] in a process state. *)
Variable py_exec : string -> Process -> ScriptRun.

(** [traceback.format_exc()] for the exception being handled. *)
Variable format_exc : PyException -> string.

Variable self : SafeExecutor.

(** What [timeout_handler] raises. *)
Definition TimeoutError_of (t : Z) : PyException :=
  mkExc "TimeoutError"
        ("Execution exceeded the time limit of " +:+ pretty t +:+ " seconds.").

(** Delivery of [SIGALRM] to the installed handler. *)
Definition deliver_sigalrm (h : handler) : TryEnd :=
  match h with
  | timeout_handler t => Raised (TimeoutError_of t)
  | _ => Returned
  end.

(** [_timeout_context], around the body of the [with] statement. When
    [signal.signal] raises (not in the main thread), [original_handler]
    is unbound in the [finally] clause; when [signal.alarm] raises, the
    [finally] clause puts the handler back and the body does not run. *)
Definition _timeout_context (body : Process -> TryEnd * Process)
    (p : Process) : TryEnd * Process :=
  if in_main_thread p then
    let original_handler := sigalrm_handler p in
    let p := set_handler (timeout_handler (timeout self)) p in
    match signal_alarm (timeout self) p with
    | Ok p =>
        let '(r, p) := body p in
        let p := set_alarm None p in
        let p := set_handler original_handler p in
        (r, p)
    | Raise e =>
        let p := set_alarm None p in
        let p := set_handler original_handler p in
        (Raised e, p)
    end
  else
    let p := set_alarm None p in
    (Raised (mkExc "UnboundLocalError"
               "cannot access local variable 'original_handler' where it is not associated with a value"),
     p).

Definition limits_warning : string :=
  "Warning: Could not set memory limits. 'resource' module not available."
  +:+ PyStr.nl.

(** [_apply_resource_limits]: the exception it lets through, if any, and
    the state it leaves. Its [except] clause takes [ImportError] and
    [ValueError]. *)
Definition _apply_resource_limits (p : Process) : option PyException * Process :=
  if resource_available p then
    let memory_bytes := max_memory_mb self * 1024 * 1024 in
    match setrlimit_as memory_bytes p with
    | Ok p' => (None, p')
    | Raise e =>
        if bool_decide (exc_type e ∈ ["ImportError"; "ValueError"])
        then (None, write (sys_stderr p) limits_warning p)
        else (Some e, p)
    end
  else (None, write (sys_stderr p) limits_warning p).

(** [exec(code, self._create_safe_namespace())]: the script's output goes
    to what [sys.stdout] and [sys.stderr] are bound to. *)
Definition run_script (code : string) (p : Process) : TryEnd * Process :=
  let run := py_exec code p in
  let h := sigalrm_handler p in
  let p := write (sys_stdout p) (printed_out run) p in
  let p := write (sys_stderr p) (printed_err run) p in
  let p := set_clock (Qplus (clock p) (seconds run)) p in
  match script_end run with
  | Completed => (Returned, p)
  | ScriptRaised e => (Raised e, p)
  | ScriptRaisedUnprintable type_name thrown => (RaisedUnprintable type_name thrown, p)
  | ScriptRaisedBase e => (RaisedBase e, p)
  | AlarmFired => (deliver_sigalrm h, p)
  end.

(** The process state in which [exec] starts, when [execute] gets that
    far. *)
Definition state_at_exec (p : Process) : Process :=
  let p := set_captured "" "" p in
  let p := set_streams stdout_capture stderr_capture p in
  let p := (_apply_resource_limits p).2 in
  let p := set_handler (timeout_handler (timeout self)) p in
  set_alarm (armed (timeout self)) p.

(** [execute]: the value returned or the exception propagated, and the
    process state after the [finally] clause. The [except] clause builds its
    result from [type(e).__name__], [str(e)] and [traceback.format_exc()];
    when rendering the exception raises, what it raises leaves [execute] in
    place of a result. *)
Definition execute (code : string) (p : Process)
  : result CodeExecutionResult * Process :=
  let start_time := clock p in
  let p := set_captured "" "" p in
  let old_stdout := sys_stdout p in
  let old_stderr := sys_stderr p in
  let '(r, p) :=
    match ast_parse code with
    | Raise e => (Raised e, p)
    | Ok _ =>
        let p := set_streams stdout_capture stderr_capture p in
        match _apply_resource_limits p with
        | (None, p) => _timeout_context (run_script code) p
        | (Some e, p) => (Raised e, p)
        end
    end in
  let finally := set_streams old_stdout old_stderr in
  match r with
  | Returned =>
      (Val (mkCodeExecutionResult true (captured_out p) (captured_err p)
              (Qminus (clock p) start_time) None None None),
       finally p)
  | Raised e =>
      (Val (mkCodeExecutionResult false (captured_out p)
              (captured_err p +:+ format_exc e)
              (Qminus (clock p) start_time)
              (Some (exc_type e)) (Some (exc_message e)) (Some (format_exc e))),
       finally p)
  | RaisedUnprintable _ (ThrownException e) => (Exc e, finally p)
  | RaisedUnprintable _ (ThrownBase e) => (BaseExc e, finally p)
  | RaisedBase e => (BaseExc e, finally p)
  end.

End Execute.

End SafeExecutor.

(** ** reasoning/types.py *)
Record ReasoningOutput := mkReasoningOutput {
  original_problem : string;
  worked_solution : string;
  final_answer : string;
  think_reasoning : string;
  processing_metadata : pydict
}.

(** [VerificationResult] of verification_types.py. *)
Record VerificationResult := mkVerificationResult {
  status : string;
  confidence_score : Q;
  reasoning_output : ReasoningOutput;
  generated_code : string;
  execution_result : option CodeExecutionResult;
  step_verifications : list StepVerification;
  answer_match : option bool;
  errors : list VerificationError;
  repair_history : list pydict;
  metadata : pydict
}.

(** [VerificationError(error_type=..., message=...)] *)
Definition new_VerificationError (t : ErrorType) (msg : string) : VerificationError :=
  mkVerificationError t msg None None None None.

(** ** codegen.py: [extract_code] *)
Module SymPyCodeGenerator.

(** The text after the first occurrence of [pat] in [s]. *)
Fixpoint after_first (pat s : string) : option string :=
  if String.prefix pat s then Some (String.substring (String.length pat)
                                      (String.length s - String.length pat) s)
  else match s with
       | EmptyString => None
       | String _ s' => after_first pat s'
       end.

(** The text before the first occurrence of [pat] in [s]. *)
Fixpoint before_first (pat s : string) : option string :=
  if String.prefix pat s then Some EmptyString
  else match s with
       | EmptyString => None
       | String c s' => String c <$> before_first pat s'
       end.

Definition fence : string := "```".

(** [re.search(opening + r'(.*?)```', text, re.DOTALL)], group 1. The
    leftmost opening is the only candidate: a later opening would itself
    close the first one. *)
Definition search_block (opening text : string) : option string :=
  body ← after_first opening text; before_first fence body.

Fixpoint count_char (c : ascii) (s : string) : nat :=
  match s with
  | EmptyString => 0
  | String c' s' => (if Ascii.eqb c c' then 1 else 0) + count_char c s'
  end.

Definition extract_code (model_response : string) : option string :=
  match search_block ("```python" +:+ PyStr.nl) model_response with
  | Some body => Some (PyStr.strip body)
  | None =>
      match search_block ("```" +:+ PyStr.nl) model_response with
      | Some body => Some (PyStr.strip body)
      | None =>
          if PyStr.contains "import sympy" model_response
             && PyStr.contains "import json" model_response
             && (3 <? count_char (ascii_of_N 10) (PyStr.strip model_response) + 1)%nat
          then Some (PyStr.strip model_response)
          else None
      end
  end.

End SymPyCodeGenerator.

(** ** The world outside the pipeline *)

(** The [variables] argument of [ModelManager.call]. *)
Inductive CallVariables :=
| ReasoningVariables (reasoning : ReasoningOutput)
| RepairVariables (original_problem failed_solution verification_feedback : string).

(** The arguments of one [ModelManager.call]. *)
Record CallArgs := mkCallArgs {
  task : string;
  prompt_ref : string;
  variables : CallVariables;
  messages_override : option (list (string * string));
  temperature : option Q
}.

(** What the orchestrator and the pipeline do to the outside, in order: a
    call of the language model with its answer, a call of
    [SafeExecutor.execute] with what it gave, a call of
    [VerificationPipeline.verify], a [print]. *)
Inductive Event :=
| ModelCall (args : CallArgs) (answer : outcome string)
| SandboxRun (code : string) (returned : SafeExecutor.result CodeExecutionResult)
| PipelineRun (reasoning : ReasoningOutput)
| Printed (text : string).

(** Library and service behaviour the sources rely on. The answer of the
    language model, and the time it takes, may depend on everything that
    happened before. [py_str] is [str] on the value of [dict.get], [None]
    when the key is missing. [load_system_template] is
    [prompts.load_prompt(ref).system_template]. [_parse_reasoning_response]
    gives [think_reasoning], [worked_solution] and [final_answer], in this
    order. *)
Record Runtime := mkRuntime {
  json_loads : string -> outcome json;
  ast_parse : string -> outcome unit;
  py_exec : string -> SafeExecutor.Process -> SafeExecutor.ScriptRun;
  format_exc : PyException -> string;
  py_str : option json -> string;
  model_manager_call : CallArgs -> list Event -> outcome string;
  call_seconds : CallArgs -> list Event -> Q;
  load_system_template : string -> outcome string;
  _parse_reasoning_response : string -> string * string * string
}.

Record World := mkWorld {
  proc : SafeExecutor.Process;
  trace : list Event
}.

Definition log (ev : Event) (w : World) : World :=
  mkWorld (proc w) (trace w ++ [ev])%list.

(** Statements of the pipeline: a result and a new world. *)
Definition M (A : Type) : Type := World -> SafeExecutor.result A * World.

Import SafeExecutor (result, Val, Exc, BaseExc).

#[global] Instance M_ret : MRet M := fun A a w => (Val a, w).
#[global] Instance M_bind : MBind M := fun A B k m w =>
  match m w with
  | (Val a, w') => k a w'
  | (Exc e, w') => (Exc e, w')
  | (BaseExc e, w') => (BaseExc e, w')
  end.

Definition raise {A} (e : PyException) : M A := fun w => (Exc e, w).

(** [try: body except Exception as e: handler(e)] *)
Definition try_except {A} (body : M A) (handler : PyException -> M A) : M A :=
  fun w =>
    match body w with
    | (Exc e, w') => handler e w'
    | other => other
    end.

Definition print (text : string) : M unit :=
  fun w => (Val tt, log (Printed text) w).

(** [time.time()] *)
Definition time_time : M Q :=
  fun w => (Val (SafeExecutor.clock (proc w)), w).

Definition of_outcome {A} (o : outcome A) : M A :=
  match o with
  | Ok a => mret a
  | Raise e => raise e
  end.

Section Services.

Variable rt : Runtime.

(** [self.model_manager.call(...)], giving [response.content]. *)
Definition call_model (args : CallArgs) : M string :=
  fun w =>
    let elapsed := call_seconds rt args (trace w) in
    let p := SafeExecutor.set_clock (Qplus (SafeExecutor.clock (proc w)) elapsed) (proc w) in
    let answer := model_manager_call rt args (trace w) in
    let w' := mkWorld p (trace w ++ [ModelCall args answer])%list in
    match answer with
    | Ok content => (Val content, w')
    | Raise e => (Exc e, w')
    end.

(** [self.executor.execute(code)] *)
Definition run_executor (executor : SafeExecutor.SafeExecutor) (code : string)
  : M CodeExecutionResult :=
  fun w =>
    let '(r, p) :=
      SafeExecutor.execute (ast_parse rt) (py_exec rt) (format_exc rt)
        executor code (proc w) in
    (r, mkWorld p (trace w ++ [SandboxRun code r])%list).

End Services.

(** ** codegen.py: [generate] *)
Module CodeGeneration.

Definition baseline : string := "codegen/baseline_codegen@v3".

Section Generate.

Variable rt : Runtime.

(** [generate], for an instance that has its model manager; the metadata
    of the call is not used by the pipeline. *)
Definition generate (reasoning : ReasoningOutput) : M string :=
  response ← try_except
    (call_model rt (mkCallArgs "verification" baseline
                      (ReasoningVariables reasoning) None None))
    (fun e => raise (mkExc "RuntimeError"
                       ("LLM call for code generation failed: " +:+ exc_message e)));
  match SymPyCodeGenerator.extract_code response with
  | Some code =>
      if String.eqb code ""
      then raise (mkExc "ValueError"
                    "No valid Python code block found in the model's response.")
      else mret code
  | None => raise (mkExc "ValueError"
                     "No valid Python code block found in the model's response.")
  end.

End Generate.

End CodeGeneration.

(** ** verification.py *)
Module VerificationPipeline.

(** The attributes of an instance that [verify] reads. *)
Record VerificationPipeline := mkVerificationPipeline {
  repair_temperature : Q;
  executor : SafeExecutor.SafeExecutor
}.

(** [min(a, b)] and [max(a, b)] on numbers: the first argument unless the
    second is strictly better. *)
Definition py_min (a b : Q) : Q := if Qle_bool a b then a else b.
Definition py_max (a b : Q) : Q := if Qle_bool b a then a else b.

(** *** Floating point

    A Python [float] is a binary64 number of IEEE 754. It is written here
    as the rational number it denotes, and an operation on floats gives the
    float nearest to the exact result, a tie going to the one whose
    significand is even. *)

(** The nearest integer, a tie going to the even one. *)
Definition round_half_even (q : Q) : Z :=
  let below := Qfloor q in
  match Qcompare (Qminus q (inject_Z below)) (1 # 2) with
  | Lt => below
  | Gt => below + 1
  | Eq => if Z.even below then below else below + 1
  end.

(** The float nearest to a rational number whose magnitude is below
    [2 ^ 1024], where floats do not overflow. In units of [2 ^ -1074], the
    spacing of the smallest floats, a float is an integer of at most 53
    significant bits. *)
Definition fl (x : Q) : Q :=
  let y := Qmult (Qabs x) (inject_Z (2 ^ 1074)) in
  let j := Z.max 0 (Z.log2 (Qfloor y) - 52) in
  let m := round_half_even (Qdiv y (inject_Z (2 ^ j))) in
  let v := Qdiv (inject_Z (m * 2 ^ j)) (inject_Z (2 ^ 1074)) in
  if Qle_bool 0 x then v else Qopp v.

(** The parts of [fl] on a number that is not negative: the number in
    units of [2 ^ -1074], the bits dropped, the significand kept. *)
Definition scaled (x : Q) : Q := Qmult x (inject_Z (2 ^ 1074)).
Definition shift (x : Q) : Z := Z.max 0 (Z.log2 (Qfloor (scaled x)) - 52).
Definition significand (x : Q) : Z :=
  round_half_even (Qdiv (scaled x) (inject_Z (2 ^ shift x))).

(** [round(x, ndigits)] on a float, for a small number of digits: the
    exact value of [x] is rounded to the nearest multiple of
    [10 ^ -ndigits], a tie going to the even one, and the float nearest to
    that decimal is returned. *)
Definition py_round (x : Q) (ndigits : nat) : Q :=
  let unit := Z.pow 10 (Z.of_nat ndigits) in
  fl (Qmake (round_half_even (Qmult x (inject_Z unit))) (Z.to_pos unit)).

(** [not final_verdict]: [None] or an empty dict. *)
Definition not_verdict (final_verdict : option pydict) : bool :=
  match final_verdict with
  | None => true
  | Some d => negb (truthy (JObj d))
  end.

(** [final_verdict.get("final_answer_verified", False)] as a condition. *)
Definition answer_ok (final_verdict : pydict) : bool :=
  truthy (default (JBool false) (final_verdict !! "final_answer_verified")).

(** [all(s.verified for s in steps)] *)
Definition all_steps_ok (steps : list StepVerification) : bool :=
  forallb verified steps.

(** The fraction of steps verified, in the words of the specification, as
    an exact number; of no steps at all, all are verified. *)
Definition fraction_verified (steps : list StepVerification) : Q :=
  match steps with
  | [] => 1%Q
  | _ =>
      Qdiv (inject_Z (Z.of_nat (length (filter (fun s => verified s = true) steps))))
           (inject_Z (Z.of_nat (length steps)))
  end.

(** The score, in the words of the specification and in exact arithmetic:
    0.5, plus the fraction of verified steps times 0.25, plus 0.25 for a
    true verdict, clamped to the unit interval. *)
Definition score_as_specified (steps : list StepVerification) (verdict_true : bool) : Q :=
  Qmax 0 (Qmin 1 ((1 # 2) + fraction_verified steps * (1 # 4)
                  + (if verdict_true then 1 # 4 else 0))).

(** The score that [_calculate_confidence] accumulates for a run with
    steps, from the exact ratio of verified steps: the ratio as a float,
    times 0.25, added to 0.5, and 0.25 added for a true verdict. *)
Definition float_score (ratio : Q) (verdict_true : bool) : Q :=
  let score := fl (Qplus (1 # 2) (fl (Qmult (fl ratio) (1 # 4)))) in
  if verdict_true then fl (Qplus score (1 # 4)) else score.

(** [_calculate_confidence]: every operation is one on floats. The ratio of
    two integers is the float nearest to their quotient; 0.5 and 0.25 are
    floats. *)
Definition _calculate_confidence (exec_res : CodeExecutionResult)
    (steps : list StepVerification) (final_verdict : option pydict) : Q :=
  if negb (success exec_res) || not_verdict final_verdict then 0%Q
  else
    let verdict := default ∅ final_verdict in
    let score := (1 # 2)%Q in
    let score :=
      match steps with
      | _ :: _ =>
          let step_ratio :=
            fl (Qdiv (inject_Z (Z.of_nat (length (filter (fun s => verified s = true) steps))))
                     (inject_Z (Z.of_nat (length steps)))) in
          fl (Qplus score (fl (Qmult step_ratio (1 # 4))))
      | [] => fl (Qplus score (1 # 4))
      end in
    let score := if answer_ok verdict then fl (Qplus score (1 # 4)) else score in
    py_round (py_max 0 (py_min 1 score)) 4.

(** The value stored in [answer_match]; the parser keeps a verdict only when
    it is a boolean. *)
Definition answer_match_of (final_verdict : pydict) : option bool :=
  match final_verdict !! "final_answer_verified" with
  | Some (JBool b) => Some b
  | _ => None
  end.

Definition _create_failure_result (reasoning : ReasoningOutput) (error_msg : string)
    (generated_code : string) (errors : list VerificationError) : VerificationResult :=
  mkVerificationResult "failed_pipeline" 0 reasoning generated_code None [] None
    (match errors with
     | [] => [new_VerificationError RUNTIME_ERROR error_msg]
     | _ => errors
     end)
    [] {["pipeline_failure" := JBool true]}.

Section Verify.

Variable rt : Runtime.
Variable self : VerificationPipeline.

Definition _create_final_result (reasoning : ReasoningOutput) (code : string)
    (exec_result : CodeExecutionResult) (steps : list StepVerification)
    (final_verdict : pydict) (status : string)
    (repaired_from_codegen_fault : bool) : VerificationResult :=
  let confidence := _calculate_confidence exec_result steps (Some final_verdict) in
  let errors :=
    if String.eqb status "failed_reasoning" then
      (match filter (fun s => verified s = false) steps with
       | failed :: _ =>
           [new_VerificationError ASSERTION_FAILED
              ("Step " +:+ pretty (step_number failed)
               +:+ " failed verification: " +:+ description failed)]
       | [] => []
       end ++
       (if answer_ok final_verdict then []
        else [new_VerificationError ANSWER_MISMATCH
                ("Final answer mismatch. Computed: "
                 +:+ py_str rt (final_verdict !! "computed")
                 +:+ ", Claimed: " +:+ py_str rt (final_verdict !! "claimed"))]))%list
    else [] in
  mkVerificationResult status confidence reasoning code (Some exec_result) steps
    (answer_match_of final_verdict) errors []
    {["repaired_from_codegen_fault" := JBool repaired_from_codegen_fault]}.

Definition _create_codegen_repair_prompt (code error : string) : string :=
  "The following Python code failed to execute or violated the verification contract."
  +:+ PyStr.nl +:+ "Error:" +:+ PyStr.nl +:+ "---" +:+ PyStr.nl
  +:+ error +:+ PyStr.nl +:+ "---" +:+ PyStr.nl +:+ PyStr.nl
  +:+ "Original Code:" +:+ PyStr.nl +:+ "---" +:+ PyStr.nl
  +:+ code +:+ PyStr.nl +:+ "---" +:+ PyStr.nl
  +:+ "The code MUST adhere to the contract (printing step-by-step JSON results and a final JSON verdict)."
  +:+ PyStr.nl
  +:+ "Fix the Python code so it is syntactically correct and strictly follows the contract. Do not change the underlying mathematical logic.".

Definition _get_repaired_code (reasoning : ReasoningOutput)
    (repair_prompt_user_content : string) : M string :=
  system_prompt ← of_outcome (load_system_template rt CodeGeneration.baseline);
  let messages := [("system", system_prompt); ("user", repair_prompt_user_content)] in
  response ← call_model rt
    (mkCallArgs "verification" CodeGeneration.baseline
       (ReasoningVariables reasoning) (Some messages)
       (Some (repair_temperature self)));
  match SymPyCodeGenerator.extract_code response with
  | Some repaired_code =>
      if String.eqb repaired_code ""
      then raise (mkExc "ValueError" "Repair attempt failed to generate any code.")
      else mret repaired_code
  | None => raise (mkExc "ValueError" "Repair attempt failed to generate any code.")
  end.

(** [exec_result.stderr or extra_error or "Unknown execution error."] *)
Definition error_message_of (exec_result : CodeExecutionResult)
    (extra_error : option string) : string :=
  if negb (String.eqb (stderr exec_result) "") then stderr exec_result
  else match extra_error with
       | Some extra => if String.eqb extra "" then "Unknown execution error." else extra
       | None => "Unknown execution error."
       end.

Definition status_of (steps : list StepVerification) (final_verdict : pydict) : string :=
  if all_steps_ok steps && answer_ok final_verdict
  then "verified" else "failed_reasoning".

Definition _handle_codegen_fault (original_code : string)
    (exec_result : CodeExecutionResult) (reasoning : ReasoningOutput)
    (extra_error : option string) : M VerificationResult :=
  let error_message := error_message_of exec_result extra_error in
  let repair_prompt := _create_codegen_repair_prompt original_code error_message in
  try_except
    (repaired_code ← _get_repaired_code reasoning repair_prompt;
     new_exec_result ← run_executor rt (executor self) repaired_code;
     if negb (success new_exec_result)
     then raise (mkExc "RuntimeError" "Repaired code also failed to execute.")
     else
       let '(steps, final_verdict, parsing_error) :=
         VerificationOutputParser.parse (json_loads rt) new_exec_result in
       if bool_decide (is_Some parsing_error) || not_verdict final_verdict
       then raise (mkExc "RuntimeError"
                     "Repaired code still violates the verification contract.")
       else
         let verdict := default ∅ final_verdict in
         mret (_create_final_result reasoning repaired_code new_exec_result
                 steps verdict (status_of steps verdict) true))
    (fun e =>
       mret (_create_failure_result reasoning
               ("Codegen fault repair failed: " +:+ exc_message e) original_code
               [new_VerificationError SYNTAX_ERROR error_message])).

(** Steps 2 to 5 of [verify]: execute the generated code, then analyse
    the result. *)
Definition execute_and_analyze (reasoning : ReasoningOutput) (code : string)
  : M VerificationResult :=
  execution_result ← run_executor rt (executor self) code;
  if negb (success execution_result) then
    _ ← print "Execution failed. Diagnosed as CODEGEN FAULT. Attempting repair...";
    _handle_codegen_fault code execution_result reasoning None
  else
    let '(steps, final_verdict, parsing_error) :=
      VerificationOutputParser.parse (json_loads rt) execution_result in
    match parsing_error with
    | Some err =>
        _ ← print ("Parsing failed due to contract violation: " +:+ exc_message err
                   +:+ ". Diagnosed as CODEGEN FAULT. Attempting repair...");
        _handle_codegen_fault code execution_result reasoning
          (Some ("Output parsing failed: " +:+ exc_message err))
    | None =>
        if not_verdict final_verdict then
          _ ← print "Missing final verdict. Diagnosed as CODEGEN FAULT. Attempting repair...";
          _handle_codegen_fault code execution_result reasoning
            (Some "Missing final_answer_verified JSON object in output.")
        else
          let verdict := default ∅ final_verdict in
          if all_steps_ok steps && answer_ok verdict then
            _ ← print "Verification successful.";
            mret (_create_final_result reasoning code execution_result steps
                    verdict "verified" false)
          else
            _ ← print "Verification failed. Diagnosed as REASONING FAULT.";
            mret (_create_final_result reasoning code execution_result steps
                    verdict "failed_reasoning" false)
    end.

(** [verify]: step 1, the generation of the code, and the rest. *)
Definition verify (reasoning : ReasoningOutput) : M VerificationResult :=
  generated ← try_except
    (code ← CodeGeneration.generate rt reasoning; mret (inl code))
    (fun e => mret (inr (_create_failure_result reasoning
                           ("Initial code generation failed: " +:+ exc_message e) "" [])));
  match generated with
  | inr failure => mret failure
  | inl code => execute_and_analyze reasoning code
  end.

End Verify.

End VerificationPipeline.

(** ** verification_orchestrator.py *)
Module VerificationOrchestrator.

Record RepairAttempt := mkRepairAttempt {
  attempt_number : Z;
  repair_type : string;
  reason : string;
  success : bool;
  processing_time : Q;
  error_message : option string;
  repaired_reasoning : option ReasoningOutput
}.

Definition _create_reasoning_repair_context (verification_result : VerificationResult)
  : string :=
  let context_parts := (fun error => "- " +:+ message error) <$> errors verification_result in
  let failed_steps :=
    filter (fun s => verified s = false) (step_verifications verification_result) in
  let context_parts :=
    match failed_steps with
    | [] => context_parts
    | _ =>
        (context_parts
         ++ [PyStr.nl +:+ "The following steps were proven incorrect:"]
         ++ ((fun step => "  - Step " +:+ pretty (step_number step) +:+ ": "
                           +:+ description step) <$> failed_steps))%list
    end in
  PyStr.join PyStr.nl context_parts.

Section Orchestrate.

Variable rt : Runtime.
Variable verification_pipeline : VerificationPipeline.VerificationPipeline.

(** [self.verification_pipeline.verify(current_reasoning)] *)
Definition run_pipeline (current_reasoning : ReasoningOutput) : M VerificationResult :=
  fun w =>
    VerificationPipeline.verify rt verification_pipeline current_reasoning
      (log (PipelineRun current_reasoning) w).

Definition _attempt_reasoning_repair (failed_reasoning : ReasoningOutput)
    (verification_result : VerificationResult) : M (option ReasoningOutput) :=
  try_except
    (let feedback := _create_reasoning_repair_context verification_result in
     response ← call_model rt
       (mkCallArgs "reasoning_repair" "reasoning/repair@v1"
          (RepairVariables (original_problem failed_reasoning)
             (worked_solution failed_reasoning) feedback)
          None None);
     let '(think, worked, answer) := _parse_reasoning_response rt response in
     mret (Some (mkReasoningOutput (original_problem failed_reasoning) worked answer think
                   {["source" := JStr "reasoning_repair";
                     "original_failure" := JStr (status verification_result)]})))
    (fun e =>
       _ ← print ("Error during reasoning repair call: " +:+ exc_message e);
       mret None).

(** Reading the local [verification_result], unbound until the first
    pipeline run has returned. *)
Definition bound {A} (name : string) (v : option A) : M A :=
  match v with
  | Some a => mret a
  | None => raise (mkExc "UnboundLocalError"
                     ("cannot access local variable '" +:+ name
                      +:+ "' where it is not associated with a value"))
  end.

(** The statements after the [for] loop. *)
Definition after_loop (verification_result : option VerificationResult)
    (repair_history : list RepairAttempt)
  : M (VerificationResult * list RepairAttempt) :=
  _ ← print "Max reasoning repair attempts reached.";
  result ← bound "verification_result" verification_result;
  mret (result, repair_history).

(** The [for] loop over the remaining values of [attempt]. *)
Fixpoint repair_loop (max_reasoning_attempts : Z) (attempts : list Z)
    (current_reasoning : ReasoningOutput)
    (verification_result : option VerificationResult)
    (repair_history : list RepairAttempt)
  : M (VerificationResult * list RepairAttempt) :=
  match attempts with
  | [] => after_loop verification_result repair_history
  | attempt :: later =>
      let check (current_reasoning : ReasoningOutput)
                (repair_history : list RepairAttempt) :=
        verification_result ← run_pipeline current_reasoning;
        if String.eqb (status verification_result) "verified" then
          _ ← print "Verification successful.";
          mret (verification_result, repair_history)
        else if negb (String.eqb (status verification_result) "failed_reasoning") then
          _ ← print ("Halting repair loop due to non-reasoning error: "
                     +:+ status verification_result);
          mret (verification_result, repair_history)
        else
          repair_loop max_reasoning_attempts later current_reasoning
            (Some verification_result) repair_history in
      if 0 <? attempt then
        _ ← print ("--- Reasoning Repair Attempt " +:+ pretty attempt +:+ "/"
                   +:+ pretty max_reasoning_attempts +:+ " ---");
        start_time ← time_time;
        failed ← bound "verification_result" verification_result;
        repaired_reasoning ← _attempt_reasoning_repair current_reasoning failed;
        now ← time_time;
        let processing_time := Qminus now start_time in
        let repair_attempt :=
          mkRepairAttempt attempt "reasoning"
            ("Reasoning verification failed with status: " +:+ status failed)
            (bool_decide (is_Some repaired_reasoning)) processing_time None
            repaired_reasoning in
        let repair_history := (repair_history ++ [repair_attempt])%list in
        match repaired_reasoning with
        | None =>
            _ ← print "Reasoning repair failed to produce a new solution. Halting.";
            after_loop verification_result repair_history
        | Some repaired => check repaired repair_history
        end
      else check current_reasoning repair_history
  end.

(** [range(max_reasoning_attempts + 1)] *)
Definition attempts_range (max_reasoning_attempts : Z) : list Z :=
  seqZ 0 (max_reasoning_attempts + 1).

Definition verify_with_repair (reasoning_output : ReasoningOutput)
    (max_reasoning_attempts : Z) : M (VerificationResult * list RepairAttempt) :=
  repair_loop max_reasoning_attempts (attempts_range max_reasoning_attempts)
    reasoning_output None [].

End Orchestrate.

End VerificationOrchestrator.

(** ** Reading a trace *)

(** A call of the language model for a verification script: the first
    generation, or a repair. *)
Definition is_code_generation (ev : Event) : bool :=
  match ev with
  | ModelCall args _ => String.eqb (task args) "verification"
  | _ => false
  end.

(** A repair call carries the replacement messages. *)
Definition is_code_repair (ev : Event) : bool :=
  match ev with
  | ModelCall args _ =>
      String.eqb (task args) "verification"
      && bool_decide (is_Some (messages_override args))
  | _ => false
  end.

Definition is_sandbox_run (ev : Event) : bool :=
  match ev with
  | SandboxRun _ _ => true
  | _ => false
  end.

Definition is_pipeline_run (ev : Event) : bool :=
  match ev with
  | PipelineRun _ => true
  | _ => false
  end.

Definition count (which : Event -> bool) (evs : list Event) : nat :=
  length (List.filter which evs).

(** What the sandbox runs of a trace gave, in order. *)
Definition sandbox_results (evs : list Event)
  : list (SafeExecutor.result CodeExecutionResult) :=
  omap (fun ev => match ev with
                  | SandboxRun _ r => Some r
                  | _ => None
                  end) evs.

(** The conditions under which the pipeline accepts a run of a script: it
    executed, its output parsed and a verdict was found. *)
Definition contract_adhered (rt : Runtime) (r : CodeExecutionResult) : bool :=
  success r &&
  let '(_, final_verdict, parsing_error) :=
    VerificationOutputParser.parse (json_loads rt) r in
  negb (bool_decide (is_Some parsing_error))
  && negb (VerificationPipeline.not_verdict final_verdict).

(** What a run of a script leads to once it is the last word: a result built
    from it when the contract was adhered to, [failed_pipeline] otherwise; an
    exception outside [Exception] goes through. *)
Definition settles (rt : Runtime) (after_repair : bool)
    (r : SafeExecutor.result CodeExecutionResult)
    (res : SafeExecutor.result VerificationResult) : Prop :=
  match r with
  | Val r2 =>
      exists v, res = Val v /\
        if contract_adhered rt r2
        then execution_result v = Some r2 /\
             (status v = "verified" \/ status v = "failed_reasoning")
        else status v = "failed_pipeline"
  | Exc e => if after_repair
             then exists v, res = Val v /\ status v = "failed_pipeline"
             else res = Exc e
  | BaseExc e => res = BaseExc e
  end.

(** The events of one [_handle_codegen_fault] and its result: no event or one
    repair call, then giving up; or a repair call and a run of the repaired
    script, which settles the result. *)
Definition repair_summary (rt : Runtime) (evs : list Event)
    (res : SafeExecutor.result VerificationResult) : Prop :=
  (exists v, res = Val v /\ status v = "failed_pipeline" /\
     (evs = [] \/ exists args answer,
         evs = [ModelCall args answer] /\
         is_code_repair (ModelCall args answer) = true))
  \/
  (exists args answer code r,
      evs = [ModelCall args answer; SandboxRun code r] /\
      is_code_repair (ModelCall args answer) = true /\
      settles rt true r res).



(** The events of one [verify] and its result: the generation call alone when
    it fails; otherwise the generation call, the run of the script and, when
    the run is a codegen fault, an announcement and the events of the repair. *)
Definition verify_summary (rt : Runtime) (evs : list Event)
    (res : SafeExecutor.result VerificationResult) : Prop :=
  exists args answer,
    is_code_generation (ModelCall args answer) = true /\
    is_code_repair (ModelCall args answer) = false /\
    ((exists v, evs = [ModelCall args answer] /\
        res = Val v /\ status v = "failed_pipeline")
     \/
     (exists code r text rest,
         evs = (ModelCall args answer :: SandboxRun code r :: rest)%list /\
         match r with
         | Val r1 =>
             if contract_adhered rt r1
             then rest = [Printed text] /\ settles rt false r res
             else exists evs', rest = (Printed text :: evs')%list /\
                               repair_summary rt evs' res
         | _ => rest = [] /\ settles rt false r res
         end)).

(** ** Concrete scenarios

    A runtime given by tables over a handful of scripts and output lines,
    for the examples the theorems are run on. *)
Module Scenario.

Import SafeExecutor.

(** JSON text is written with apostrophes and turned into the real thing. *)
Fixpoint dq (s : string) : string :=
  match s with
  | EmptyString => EmptyString
  | String c s' =>
      String (if Ascii.eqb c "'"%char then ascii_of_N 34 else c) (dq s')
  end.

Definition step_line : string :=
  dq "{'step': 1, 'description': 'ok', 'verified': true}".
Definition bad_step_line : string :=
  dq "{'step': 2, 'description': 'wrong', 'verified': false}".
Definition mistyped_step_line : string :=
  dq "{'step': 'invalid', 'verified': true}".
Definition null_description_line : string :=
  dq "{'step': 3, 'description': null, 'verified': true}".
Definition verdict_line : string :=
  dq "{'final_answer_verified': true, 'computed': '4', 'claimed': '4'}".
Definition false_verdict_line : string :=
  dq "{'final_answer_verified': false, 'computed': '5', 'claimed': '4'}".
Definition mistyped_verdict_line : string :=
  dq "{'final_answer_verified': 'yes'}".
Definition step_with_verdict_line : string :=
  dq "{'step': 4, 'description': 'both', 'verified': true, 'final_answer_verified': false}".

Definition step_dict : pydict :=
  {["step" := JInt 1; "description" := JStr "ok"; "verified" := JBool true]}.
Definition bad_step_dict : pydict :=
  {["step" := JInt 2; "description" := JStr "wrong"; "verified" := JBool false]}.
Definition verdict_dict : pydict :=
  {["final_answer_verified" := JBool true; "computed" := JStr "4"; "claimed" := JStr "4"]}.
Definition false_verdict_dict : pydict :=
  {["final_answer_verified" := JBool false; "computed" := JStr "5"; "claimed" := JStr "4"]}.
Definition step_with_verdict_dict : pydict :=
  {["step" := JInt 4; "description" := JStr "both"; "verified" := JBool true;
    "final_answer_verified" := JBool false]}.

Definition JSONDecodeError : PyException :=
  mkExc "JSONDecodeError" "Expecting value: line 1 column 1 (char 0)".

(** [json.loads] on the lines above, on [5] and on [[1, 2]]; every other
    text used below is not JSON. *)
Definition loads (line : string) : outcome json :=
  if String.eqb line step_line then Ok (JObj step_dict)
  else if String.eqb line bad_step_line then Ok (JObj bad_step_dict)
  else if String.eqb line mistyped_step_line
    then Ok (JObj {["step" := JStr "invalid"; "verified" := JBool true]})
  else if String.eqb line null_description_line
    then Ok (JObj {["step" := JInt 3; "description" := JNull; "verified" := JBool true]})
  else if String.eqb line verdict_line then Ok (JObj verdict_dict)
  else if String.eqb line false_verdict_line then Ok (JObj false_verdict_dict)
  else if String.eqb line mistyped_verdict_line
    then Ok (JObj {["final_answer_verified" := JStr "yes"]})
  else if String.eqb line step_with_verdict_line then Ok (JObj step_with_verdict_dict)
  else if String.eqb line "5" then Ok (JInt 5)
  else if String.eqb line "[1, 2]" then Ok (JArr [JInt 1; JInt 2])
  else Raise JSONDecodeError.

(** Scripts. *)
Definition prints (lines : list string) : string :=
  PyStr.join PyStr.nl ((fun l => "print('" +:+ l +:+ "')") <$> lines).
Definition infinite_loop : string := "while True: pass".
Definition raises_base : string := "raise Exception.__base__('stop')".
Definition raises_name_error : string := "x = undefined_variable".
Definition unbalanced : string := "x = (".
Definition imports_os : string := "import os".

(** One rendering of the set of allowed modules. *)
Definition allowed_repr : string :=
  "{'sympy', 'json', 'math', 'itertools', 'functools', 'operator', 'collections'}".

(** What [print] sends to the output for a list of lines. *)
Definition output_of (lines : list string) : string :=
  String.concat EmptyString ((fun l => l +:+ PyStr.nl) <$> lines).

Definition syntax_check (code : string) : outcome unit :=
  if String.eqb code unbalanced
  then Raise (mkExc "SyntaxError" "'(' was never closed (<unknown>, line 1)")
  else Ok tt.

(** The scripts that matter are those that print the lines of [table]. *)
Definition exec_table (table : list (list string)) (code : string) (p : Process)
  : ScriptRun :=
  if String.eqb code infinite_loop
    then mkScriptRun "" "" (inject_Z (default 0 (alarm p))) AlarmFired
  else if String.eqb code raises_base
    then mkScriptRun "" "" 0 (ScriptRaisedBase (mkExc "BaseException" "stop"))
  else if String.eqb code raises_name_error
    then mkScriptRun "" "" 0
           (ScriptRaised (mkExc "NameError" "name 'undefined_variable' is not defined"))
  else if String.eqb code imports_os
    then mkScriptRun "" "" 0
           match _restricted_import allowed_repr "os" with
           | Some refused => ScriptRaised refused
           | None => Completed
           end
  else
    match list_find (fun lines => String.eqb code (prints lines) = true) table with
    | Some (_, lines) => mkScriptRun (output_of lines) "" (1 # 100) Completed
    | None => mkScriptRun "" "" 0 Completed
    end.

(** A model answer holding [code] in a fenced block. *)
Definition fenced (code : string) : string :=
  "Here is the script." +:+ PyStr.nl +:+ "```python" +:+ PyStr.nl
  +:+ code +:+ PyStr.nl +:+ "```" +:+ PyStr.nl.

(** The language model writes [first] when asked for a script and [second]
    when asked for a repair; asked to repair the reasoning, it answers
    [rethought]. *)
Definition model (first second rethought : string) (args : CallArgs)
    (history : list Event) : outcome string :=
  if String.eqb (task args) "reasoning_repair" then Ok rethought
  else match messages_override args with
       | None => Ok (fenced first)
       | Some _ => Ok (fenced second)
       end.

Definition format_traceback (e : PyException) : string :=
  "Traceback (most recent call last):" +:+ PyStr.nl
  +:+ exc_type e +:+ ": " +:+ exc_message e +:+ PyStr.nl.

Definition rt (table : list (list string)) (first second : string) : Runtime :=
  mkRuntime loads syntax_check (exec_table table) format_traceback
    (fun v => match v with
              | Some (JStr s) => s
              | _ => "None"
              end)
    (model first second "The answer is 4.")
    (fun _ _ => 1%Q)
    (fun _ => Ok "You write SymPy verification scripts.")
    (fun response => (EmptyString, response, EmptyString)).

Definition default_executor : SafeExecutor := mkSafeExecutor 30 512.

Definition pipeline : VerificationPipeline.VerificationPipeline :=
  VerificationPipeline.mkVerificationPipeline (1 # 10) default_executor.

(** A fresh interpreter: the streams of the host, no alarm, no limit on the
    address space. *)
Definition host : Process :=
  mkProcess (HostStream "stdout") (HostStream "stderr") SIG_DFL None
    (RLIM_INFINITY, RLIM_INFINITY) true true 0 "" "".

Definition world : World := mkWorld host [].

Definition artifact : ReasoningOutput :=
  mkReasoningOutput "What is 2 + 2?" "2 + 2 = 4" "4" "" ∅.

Definition scenario_A : list string := [step_line; verdict_line].
Definition scenario_B : list string := [false_verdict_line].
Definition scenario_C : list string := ["not-json"].

(** The step of [step_line]. *)
Definition ok_step : StepVerification := mkStepVerification 1 "ok" true.

(** A successful execution that printed [lines]. *)
Definition executed (lines : list string) : CodeExecutionResult :=
  mkCodeExecutionResult true (output_of lines) "" (1 # 100) None None None.

(** Scenario A: the model writes a script that prints a verified step and
    a true verdict. *)
Definition rt_A : Runtime := rt [scenario_A] (prints scenario_A) (prints scenario_A).
Definition generated_A : World := (CodeGeneration.generate rt_A artifact world).2.
Definition executed_A : World :=
  (run_executor rt_A default_executor (prints scenario_A) generated_A).2.

(** Scenario B: no step, a false verdict. *)
Definition rt_B : Runtime := rt [scenario_B] (prints scenario_B) (prints scenario_B).

(** Scenario D: the script and its repair both loop for ever. *)
Definition rt_D : Runtime := rt [] infinite_loop infinite_loop.

(** Scenario C: the first script prints a line that is not JSON, the
    repaired one prints what scenario A prints. *)
Definition rt_C : Runtime :=
  rt [scenario_C; scenario_A] (prints scenario_C) (prints scenario_A).

(** [execute] of the default executor on the scripts above. *)
Definition run (code : string) (p : Process) : result CodeExecutionResult * Process :=
  execute syntax_check (exec_table []) format_traceback default_executor code p.

End Scenario.

(** * More of the code

    Definitions for the properties beyond the claims: what one line adds to
    the step list, a Hoare-style reading of the statements of the pipeline
    and of the repair loop, and a few more scenarios. *)

(** The step that the loop of [parse] appends for a line, if any: the line
    is not blank, decodes to an object taken for a step, and the pydantic
    model accepts it. *)
Definition appended_step (json_loads : string -> outcome json) (line : string)
  : option StepVerification :=
  if String.eqb (PyStr.strip line) "" then None
  else
    match json_loads (PyStr.strip line) with
    | Ok (JObj m) =>
        match m !! "step", m !! "verified" with
        | Some step, Some ver =>
            if isinstance_int step && isinstance_bool ver then
              match VerificationOutputParser.new_StepVerification step
                      (default (JStr "") (m !! "description")) ver with
              | Ok sv => Some sv
              | Raise _ => None
              end
            else None
        | _, _ => None
        end
    | _ => None
    end.

(** A line that [parse] skips before decoding. *)
Definition blank (line : string) : bool := String.eqb (PyStr.strip line) "".

(** ** A Hoare-style reading of pipeline statements *)

(** [hoare P Q m]: from any world, [m] adds events that all satisfy [P] and
    ends in a result that satisfies [Q]. *)
Definition hoare {A} (P : Event -> Prop) (Q : SafeExecutor.result A -> Prop) (m : M A)
  : Prop :=
  forall w, exists evs,
    trace (m w).2 = (trace w ++ evs)%list /\ Forall P evs /\ Q (m w).1.

(** Postconditions that rule out one kind of exception. *)
Definition no_base {A} (good : A -> Prop) (res : SafeExecutor.result A) : Prop :=
  match res with
  | Val a => good a
  | Exc _ => True
  | BaseExc _ => False
  end.

Definition no_exc {A} (good : A -> Prop) (res : SafeExecutor.result A) : Prop :=
  match res with
  | Val a => good a
  | Exc _ => False
  | BaseExc _ => True
  end.

(** What [verify] may do to the outside: call the model for the verification
    task with the code-generation prompt, run a script that is not empty,
    print. *)
Definition pipeline_event (ev : Event) : Prop :=
  match ev with
  | ModelCall args _ =>
      task args = "verification" /\ prompt_ref args = CodeGeneration.baseline
  | SandboxRun code _ => code <> ""
  | PipelineRun _ => False
  | Printed _ => True
  end.

(** The two ways [verify] builds its result. *)
Definition result_shape (rt : Runtime) (reasoning : ReasoningOutput)
    (v : VerificationResult) : Prop :=
  (exists error_msg generated_code errors,
      v = VerificationPipeline._create_failure_result reasoning error_msg
            generated_code errors)
  \/
  (exists code r steps verdict repaired,
      v = VerificationPipeline._create_final_result rt reasoning code r steps verdict
            (VerificationPipeline.status_of steps verdict) repaired /\
      code <> "" /\ success r = true /\
      VerificationOutputParser.parse (json_loads rt) r = (steps, Some verdict, None)).

(** What [verify] ends in: a result of one of the two shapes, or an
    exception. *)
Definition verify_post (rt : Runtime) (reasoning : ReasoningOutput)
    (res : SafeExecutor.result VerificationResult) : Prop :=
  match res with
  | Val v => result_shape rt reasoning v
  | Exc _ | BaseExc _ => True
  end.

(** An exception is on its way out, and the last thing that happened is
    the run of the sandbox that it left. *)
Definition raised_by_last_run {A} (evs : list Event) (res : SafeExecutor.result A)
  : Prop :=
  match res with
  | Val _ => True
  | Exc e => exists code, last evs = Some (SandboxRun code (Exc e))
  | BaseExc e => exists code, last evs = Some (SandboxRun code (BaseExc e))
  end.

(** [hoare_tr Q m]: from any world, [m] adds events [evs] and ends in a
    result [res] with [Q evs res]. *)
Definition hoare_tr {A} (Q : list Event -> SafeExecutor.result A -> Prop) (m : M A)
  : Prop :=
  forall w, exists evs, trace (m w).2 = (trace w ++ evs)%list /\ Q evs (m w).1.

(** ** The repair loop of the orchestrator *)

(** What [verify_with_repair] may do to the outside: what [verify] may do,
    calls of the model for the repair of the reasoning, and runs of the
    pipeline. *)
Definition orchestrator_event (ev : Event) : Prop :=
  match ev with
  | ModelCall args _ =>
      (task args = "verification" /\ prompt_ref args = CodeGeneration.baseline) \/
      (task args = "reasoning_repair" /\ prompt_ref args = "reasoning/repair@v1")
  | SandboxRun code _ => code <> ""
  | PipelineRun _ => True
  | Printed _ => True
  end.

(** An entry of the repair history as the loop writes it, for a problem. *)
Definition logged_attempt (problem : string) (a : VerificationOrchestrator.RepairAttempt)
  : Prop :=
  VerificationOrchestrator.repair_type a = "reasoning" /\
  VerificationOrchestrator.reason a
    = "Reasoning verification failed with status: failed_reasoning" /\
  VerificationOrchestrator.error_message a = None /\
  VerificationOrchestrator.success a
    = bool_decide (is_Some (VerificationOrchestrator.repaired_reasoning a)) /\
  forall r, VerificationOrchestrator.repaired_reasoning a = Some r ->
            original_problem r = problem.

(** The reasoning the loop holds after the attempts of a history: the last
    repaired one, or [start] when no repair gave one. *)
Definition current_after (start : ReasoningOutput)
    (history : list VerificationOrchestrator.RepairAttempt) : ReasoningOutput :=
  default start (last (omap VerificationOrchestrator.repaired_reasoning history)).

(** What the loop has done when it is left: it started at attempt [first]
    with [budget] attempts to go, [runs] pipeline runs not counted in the
    attempts and the history [before]; [evs] are its events and [res] its
    result, or the exception that left a run of the sandbox. *)
Definition loop_post (problem : string) (first budget : Z) (runs : nat)
    (start : ReasoningOutput) (before : list VerificationOrchestrator.RepairAttempt)
    (evs : list Event)
    (res : SafeExecutor.result
             (VerificationResult * list VerificationOrchestrator.RepairAttempt))
  : Prop :=
  Forall orchestrator_event evs /\ raised_by_last_run evs res /\
  match res with
  | Val (v, history) =>
      exists new,
        history = (before ++ new)%list /\
        VerificationOrchestrator.attempt_number <$> new
          = seqZ first (Z.of_nat (length new)) /\
        Z.of_nat (length new) <= budget /\
        Forall (logged_attempt problem) new /\
        (forall i a, new !! i = Some a -> (S i < length new)%nat ->
                     VerificationOrchestrator.success a = true) /\
        reasoning_output v = current_after start new /\
        (status v = "verified" \/ status v = "failed_reasoning"
         \/ status v = "failed_pipeline") /\
        (status v <> "failed_reasoning" ->
         Forall (fun a => VerificationOrchestrator.success a = true) new) /\
        (status v = "failed_reasoning" ->
         Z.of_nat (length new) = budget \/
         exists a, last new = Some a /\ VerificationOrchestrator.success a = false) /\
        count is_pipeline_run evs
          = (runs + length (filter (fun a => VerificationOrchestrator.success a = true) new))%nat
  | Exc _ | BaseExc _ => True
  end.

(** ** Markdown fences *)

(** The character that code fences are made of. *)
Definition backtick : ascii := "`"%char.

(** ** More scenarios *)
Module Cases.

Import SafeExecutor Scenario.

(** The interpreter seen from a thread other than the main one. *)
Definition worker : Process :=
  mkProcess (HostStream "stdout") (HostStream "stderr") SIG_DFL None
    (RLIM_INFINITY, RLIM_INFINITY) true false 0 "" "".

(** A platform without the [resource] module. *)
Definition bare_host : Process :=
  mkProcess (HostStream "stdout") (HostStream "stderr") SIG_DFL None
    (RLIM_INFINITY, RLIM_INFINITY) false true 0 "" "".

(** Every script prints a step line and a warning, then divides by zero. *)
Definition exec_partial (code : string) (p : Process) : ScriptRun :=
  mkScriptRun (output_of [step_line]) ("careful" +:+ PyStr.nl) (1 # 100)
    (ScriptRaised (mkExc "ZeroDivisionError" "division by zero")).

(** The language model cannot be reached. *)
Definition rt_offline : Runtime :=
  mkRuntime loads syntax_check (exec_table []) format_traceback
    (fun v => match v with
              | Some (JStr s) => s
              | _ => "None"
              end)
    (fun _ _ => Raise (mkExc "ConnectionError" "model endpoint unreachable"))
    (fun _ _ => 1%Q)
    (fun _ => Ok "You write SymPy verification scripts.")
    (fun response => (EmptyString, response, EmptyString)).

(** 5000 verified steps and one that failed. *)
Definition mostly_verified : list StepVerification :=
  (replicate 5000 ok_step ++ [mkStepVerification 5001 "wrong" false])%list.

(** A first run that timed out. *)
Definition timed_out : CodeExecutionResult :=
  mkCodeExecutionResult false "" (format_traceback (TimeoutError_of 30)) 30
    (Some "TimeoutError") (Some (exc_message (TimeoutError_of 30)))
    (Some (format_traceback (TimeoutError_of 30))).

(** A step object without a description. *)
Definition bare_step_dict : pydict :=
  {["step" := JInt 7; "verified" := JBool true]}.

(** A step that failed. *)
Definition wrong_step : StepVerification := mkStepVerification 2 "wrong" false.

(** 7 verified steps among 40, and one among two. *)
Definition seven_of_forty : list StepVerification :=
  (replicate 7 ok_step ++ replicate 33 wrong_step)%list.
Definition one_of_two : list StepVerification := [ok_step; wrong_step].


(** A script that raises an object of a class of its own, derived from
    [Exception], whose [__str__] divides by zero. *)
Definition raises_unprintable : string :=
  "E = ().__class__.__class__('E', (Exception,), {'__module__': 'm', '__str__': lambda self: 1 / 0}); raise E()".

Definition exec_unprintable (code : string) (p : Process) : ScriptRun :=
  if String.eqb code raises_unprintable
  then mkScriptRun "" "" 0
         (ScriptRaisedUnprintable "E"
            (ThrownException (mkExc "ZeroDivisionError" "division by zero")))
  else exec_table [scenario_C] code p.

(** The model writes that script; asked for a repair, it writes it again. *)
Definition rt_unprintable : Runtime :=
  mkRuntime loads syntax_check exec_unprintable format_traceback
    (py_str (rt [] "" ""))
    (model raises_unprintable raises_unprintable "The answer is 4.")
    (fun _ _ => 1%Q)
    (fun _ => Ok "You write SymPy verification scripts.")
    (fun response => (EmptyString, response, EmptyString)).

(** The first script prints a line that is not JSON, and the repaired one
    raises the object that cannot be rendered. *)
Definition rt_repair_unprintable : Runtime :=
  mkRuntime loads syntax_check exec_unprintable format_traceback
    (py_str (rt [] "" ""))
    (model (prints scenario_C) raises_unprintable "The answer is 4.")
    (fun _ _ => 1%Q)
    (fun _ => Ok "You write SymPy verification scripts.")
    (fun response => (EmptyString, response, EmptyString)).

(** Executors whose settings the C library refuses: a timeout of [2^31]
    seconds, a memory limit of [2^43] megabytes. *)
Definition long_timeout : SafeExecutor := mkSafeExecutor (2 ^ 31) 512.
Definition large_memory : SafeExecutor := mkSafeExecutor 30 (2 ^ 43).

End Cases.
(** * Properties *)

(** ** The contract parser *)
Section ParserFacts.

Import VerificationOutputParser.

Variable json_loads : string -> outcome json.

(** The loop body on a decoded object, by cases on its keys. *)
Lemma on_record_object (m : pydict) (st : parse_state) :
  on_record (JObj m) st =
  match m !! "step", m !! "verified" with
  | Some step, Some ver =>
      if isinstance_int step && isinstance_bool ver then
        sv ← new_StepVerification step (default (JStr "") (m !! "description")) ver;
        mret ((st.1 ++ [sv])%list, st.2)
      else Ok st
  | _, _ =>
      match m !! "final_answer_verified" with
      | Some (JBool _) => Ok (st.1, Some m)
      | _ => Ok st
      end
  end.
Proof.
  unfold on_record, py_contains, py_getitem, py_get, as_dict.
  unfold mbind, outcome_bind, mret, outcome_ret.
  destruct (m !! "step") as [step|] eqn:Hs;
    destruct (m !! "verified") as [ver|] eqn:Hv;
    destruct (m !! "final_answer_verified") as [[]|] eqn:Hf;
    repeat (case_bool_decide; try (exfalso; eauto using is_Some_None; fail));
    cbn; try done;
    try (by destruct (isinstance_int step), (isinstance_bool ver)).
  all: try (by (exfalso; match goal with H : ¬ is_Some (Some _) |- _ => apply H; eauto end)).
  all: try (by (exfalso; eapply is_Some_None; eauto)).
Qed.

(** A line that raises leaves the loop with the state it found. *)
Lemma parse_lines_app (pre post : list string) (st : parse_state) :
  parse_lines json_loads (pre ++ post) st =
  match parse_lines json_loads pre st with
  | (steps, verdict, None) => parse_lines json_loads post (steps, verdict)
  | stopped => stopped
  end.
Proof.
  revert st. induction pre as [|line pre IH]; intros [steps verdict]; [done|].
  cbn [app parse_lines]. destruct (parse_line json_loads line _); [apply IH|done].
Qed.

Lemma parse_lines_error_inv (lines : list string) (st : parse_state) steps verdict e :
  parse_lines json_loads lines st = (steps, verdict, Some e) ->
  exists pre bad post,
    lines = (pre ++ bad :: post)%list /\
    parse_lines json_loads pre st = (steps, verdict, None) /\
    parse_line json_loads bad (steps, verdict) = Raise e.
Proof.
  revert st. induction lines as [|line lines IH]; intros [s v] H; [done|].
  cbn [parse_lines] in H.
  destruct (parse_line json_loads line (s, v)) as [st'|e'] eqn:Hline.
  - destruct (IH _ H) as (pre & bad & post & -> & Hpre & Hbad).
    exists (line :: pre), bad, post. split; [done|]. split; [|done].
    cbn [parse_lines]. by rewrite Hline.
  - cbn in H. injection H as <- <- <-. by exists [], line, lines.
Qed.

(** A value that is not an object adds no step and no verdict. *)
Lemma on_record_other (data : json) (st st' : parse_state) :
  (forall m, data <> JObj m) ->
  on_record data st = Ok st' -> st' = st.
Proof.
  intros Hno. destruct data; try (by cbn); [| |by destruct (Hno m)];
    unfold on_record; cbn;
    repeat (match goal with
            | |- context [if ?b then _ else _] => destruct b; cbn
            end); unfold mret, outcome_ret; intros; by simplify_eq.
Qed.

(** The step list only grows, and a contract step joins it. *)
Lemma on_record_steps (data : json) (st st' : parse_state) :
  on_record data st = Ok st' ->
  st.1 `prefix_of` st'.1 /\
  forall sv, contract_step data = Some sv -> sv ∈ st'.1.
Proof.
  destruct data as [| | | | | |m];
    try (intros H; apply on_record_other in H as ->;
         [split; [done|by cbn]|congruence]).
  rewrite on_record_object. cbn [contract_step].
  destruct (m !! "step") as [[]|], (m !! "verified") as [[]|],
    (m !! "description") as [[]|], (m !! "final_answer_verified") as [[]|];
    cbn; unfold mret, outcome_ret; intros; simplify_eq; cbn;
    (split; [try done; by apply prefix_app_r|]); intros; simplify_eq; set_solver.
Qed.

Lemma parse_line_loaded (line : string) (data : json) (st : parse_state) :
  PyStr.strip line <> "" -> json_loads (PyStr.strip line) = Ok data ->
  parse_line json_loads line st = on_record data st.
Proof.
  intros Hne Hload. unfold parse_line.
  destruct (String.eqb_spec (PyStr.strip line) ""); [done|]. by rewrite Hload.
Qed.

Lemma parse_line_steps (line : string) (st st' : parse_state) :
  parse_line json_loads line st = Ok st' ->
  st.1 `prefix_of` st'.1 /\
  forall data sv,
    PyStr.strip line <> "" -> json_loads (PyStr.strip line) = Ok data ->
    contract_step data = Some sv -> sv ∈ st'.1.
Proof.
  unfold parse_line.
  destruct (String.eqb_spec (PyStr.strip line) "") as [->|Hne].
  - intros [= ->]. by split.
  - destruct (json_loads (PyStr.strip line)) as [data|e]; [|done]. cbn.
    intros [Hpre Hin]%on_record_steps. split; [done|].
    intros data' sv _ [= <-]. apply Hin.
Qed.

Lemma parse_lines_steps (lines : list string) (st : parse_state) steps verdict err :
  parse_lines json_loads lines st = (steps, verdict, err) ->
  st.1 `prefix_of` steps.
Proof.
  revert st. induction lines as [|line lines IH]; intros st; cbn [parse_lines].
  - by intros [= <- _ _].
  - destruct (parse_line json_loads line st) as [st'|e] eqn:Hline.
    + intros H%IH. apply parse_line_steps in Hline as [? _]. by etrans.
    + by intros [= <- _ _].
Qed.

Lemma parse_lines_keeps_steps (lines : list string) (st : parse_state) steps verdict :
  parse_lines json_loads lines st = (steps, verdict, None) ->
  forall line data sv,
    line ∈ lines -> PyStr.strip line <> "" ->
    json_loads (PyStr.strip line) = Ok data ->
    contract_step data = Some sv -> sv ∈ steps.
Proof.
  revert st. induction lines as [|l lines IH]; intros st; cbn [parse_lines].
  - intros _ line data sv Hin. by apply elem_of_nil in Hin.
  - destruct (parse_line json_loads l st) as [st'|e] eqn:Hline; [|done].
    intros Hrest line data sv [->|Hin]%elem_of_cons Hne Hload Hstep.
    + apply parse_line_steps in Hline as [_ Hin].
      eapply elem_of_prefix; [by eapply Hin|].
      by eapply parse_lines_steps.
    + by eapply IH.
Qed.

Lemma on_record_verdict (data : json) (st st' : parse_state) :
  on_record data st = Ok st' -> verdict_ok st.2 -> verdict_ok st'.2.
Proof.
  destruct data as [| | | | | |m];
    try (intros H; apply on_record_other in H as ->; [done|congruence]).
  rewrite on_record_object.
  destruct (m !! "step") as [[]|], (m !! "verified") as [[]|],
    (m !! "description") as [[]|], (m !! "final_answer_verified") as [[]|] eqn:Hf;
    cbn; unfold mret, outcome_ret; intros; simplify_eq; cbn; try done;
    intros ? [= <-]; cbn; by rewrite Hf.
Qed.

Lemma parse_lines_verdict (lines : list string) (st : parse_state) steps verdict err :
  parse_lines json_loads lines st = (steps, verdict, err) ->
  verdict_ok st.2 -> verdict_ok verdict.
Proof.
  revert st. induction lines as [|line lines IH]; intros st; cbn [parse_lines].
  - by intros [= _ <- _].
  - destruct (parse_line json_loads line st) as [st'|e] eqn:Hline.
    + intros H Hok. eapply IH; [done|]. revert Hline. unfold parse_line.
      destruct (String.eqb _ _); [by intros [= <-]|].
      destruct (json_loads _); [|done]. cbn. eauto using on_record_verdict.
    + by intros [= _ <- _].
Qed.

Lemma parse_verdict (r : CodeExecutionResult) steps verdict err :
  parse json_loads r = (steps, verdict, err) -> verdict_ok verdict.
Proof.
  unfold parse. destruct (negb (success r)).
  - by intros [= _ <- _].
  - intros H. by eapply parse_lines_verdict.
Qed.


Lemma on_record_keeps_verdict (data : json) (st st' : parse_state) :
  on_record data st = Ok st' ->
  (forall m, data = JObj m -> taken_for_verdict m = false) ->
  st'.2 = st.2.
Proof.
  destruct data as [| | | | | |m];
    try (intros H; apply on_record_other in H as ->; [done|congruence]).
  rewrite on_record_object. intros H Hm. specialize (Hm m eq_refl).
  revert H Hm. unfold taken_for_verdict. cbn.
  destruct (m !! "step") as [[]|], (m !! "verified") as [[]|],
    (m !! "description") as [[]|], (m !! "final_answer_verified") as [[]|];
    cbn; unfold mret, outcome_ret; intros; by simplify_eq.
Qed.

Lemma parse_lines_keeps_verdict (lines : list string) (st : parse_state) steps verdict :
  parse_lines json_loads lines st = (steps, verdict, None) ->
  (forall l m, l ∈ lines -> PyStr.strip l <> "" ->
               json_loads (PyStr.strip l) = Ok (JObj m) -> taken_for_verdict m = false) ->
  verdict = st.2.
Proof.
  revert st. induction lines as [|line lines IH]; intros st; cbn [parse_lines].
  - by intros [= _ <-].
  - destruct (parse_line json_loads line st) as [st'|e] eqn:Hline; [|done].
    intros H Hno. rewrite (IH _ H); [|intros; eapply Hno; [by right|done..]].
    revert Hline. unfold parse_line.
    destruct (String.eqb_spec (PyStr.strip line) "") as [Heq|Hne]; [by intros [= <-]|].
    destruct (json_loads (PyStr.strip line)) as [data|] eqn:Hload; [|done]. cbn.
    intros Hrec. eapply on_record_keeps_verdict; [done|].
    intros m ->. eapply Hno; [by left|done..].
Qed.

(** C10. When [parse] returns a parse error, the step list and the verdict
    it returns are what the lines before the offending line produced: the
    lines split around the line that raised, the returned pair is the result
    of parsing the lines before it, and every contract step object among
    those lines is in the returned list. *)
Theorem parse_error_keeps_partial_results (r : CodeExecutionResult) steps verdict e :
  parse json_loads r = (steps, verdict, Some e) ->
  exists pre bad post,
    stdout_lines r = (pre ++ bad :: post)%list /\
    parse_line json_loads bad (steps, verdict) = Raise e /\
    parse_lines json_loads pre ([], None) = (steps, verdict, None) /\
    forall line data sv,
      line ∈ pre -> PyStr.strip line <> "" ->
      json_loads (PyStr.strip line) = Ok data ->
      contract_step data = Some sv -> sv ∈ steps.
Proof.
  unfold parse. destruct (negb (success r)); [done|].
  intros (pre & bad & post & Hlines & Hpre & Hbad)%parse_lines_error_inv.
  exists pre, bad, post. repeat split; try done.
  by eapply parse_lines_keeps_steps.
Qed.

Lemma prefix_occurs (sub s : string) :
  String.prefix sub s = true <-> exists after, s = sub +:+ after.
Proof.
  revert s. induction sub as [|c sub IH]; intros s.
  - split; [intros _; by exists s|]. by destruct s.
  - destruct s as [|c' s]; cbn.
    + split; [done|]. by intros [after [=]].
    + destruct (Ascii.ascii_dec c c') as [->|Hne].
      * rewrite IH. split; intros [after Hs]; exists after.
        -- change (String c' s = String c' (sub +:+ after)). by rewrite Hs.
        -- change (String c' s = String c' (sub +:+ after)) in Hs. congruence.
      * split; [done|]. intros [after Hs].
        change (String c' s = String c (sub +:+ after)) in Hs. congruence.
Qed.

(** [PyStr.contains] decides whether the text occurs. *)
Lemma contains_occurs (sub s : string) :
  PyStr.contains sub s = true <-> PyStr.occurs sub s.
Proof.
  unfold PyStr.occurs. induction s as [|c s IH].
  - cbn [PyStr.contains]. rewrite orb_false_r, prefix_occurs. split.
    + intros [after Hs]. by exists "", after.
    + intros (before & after & Hs). destruct before as [|c before]; [by exists after|].
      change ("" = String c (before +:+ sub +:+ after)) in Hs. congruence.
  - cbn [PyStr.contains]. rewrite orb_true_iff, prefix_occurs, IH. split.
    + intros [[after Hs]|(before & after & Hs)].
      * by exists "", after.
      * exists (String c before), after.
        change (String c s = String c (before +:+ sub +:+ after)). by rewrite Hs.
    + intros (before & after & Hs). destruct before as [|c' before].
      * left. by exists after.
      * right. exists before, after.
        change (String c s = String c' (before +:+ sub +:+ after)) in Hs. congruence.
Qed.

(** [key in data] on an array or a string. *)
Lemma py_contains_holds (data : json) (key : string) :
  (exists l, data = JArr l) \/ (exists s, data = JStr s) ->
  exists b, py_contains key data = Ok b /\ (b = true <-> holds data key).
Proof.
  intros [[l ->]|[s ->]]; cbn [py_contains holds].
  - eexists. split; [done|]. rewrite existsb_exists. split.
    + intros (v & Hin%list_elem_of_In & Hv). destruct v; try done.
      apply String.eqb_eq in Hv. by subst.
    + intros Hin. exists (JStr key). split; [by apply list_elem_of_In|].
      by apply String.eqb_refl.
  - eexists. split; [done|]. apply contains_occurs.
Qed.

(** C6, as amended. A line that decodes to a JSON object is skipped without
    a parse error when the loop takes it neither for a step nor for a
    verdict: [step] or [verified] of the wrong type or missing, and
    [final_answer_verified] missing or not a boolean. A line that decodes to
    an array or a string is skipped as well, unless it holds the key names,
    as elements of the array or as parts of the string: with both [step] and
    [verified] it ends parsing with a [TypeError], otherwise with
    [final_answer_verified] it ends parsing with an [AttributeError]. A line
    that decodes to a number, a boolean or [null] ends parsing with a
    [TypeError]. When parsing ends without error, the verdict is the object
    of the last line that was taken for a verdict. *)
Theorem noise_objects_skipped_last_verdict_wins :
  (forall line m st,
      PyStr.strip line <> "" -> json_loads (PyStr.strip line) = Ok (JObj m) ->
      taken_for_step m = false -> taken_for_verdict m = false ->
      parse_line json_loads line st = Ok st) /\
  (forall line data st,
      PyStr.strip line <> "" -> json_loads (PyStr.strip line) = Ok data ->
      (exists l, data = JArr l) \/ (exists s, data = JStr s) ->
      (holds data "step" -> holds data "verified" ->
       exists e, parse_line json_loads line st = Raise e /\ exc_type e = "TypeError") /\
      (~ (holds data "step" /\ holds data "verified") ->
       holds data "final_answer_verified" ->
       exists e, parse_line json_loads line st = Raise e /\
                 exc_type e = "AttributeError") /\
      (~ (holds data "step" /\ holds data "verified") ->
       ~ holds data "final_answer_verified" ->
       parse_line json_loads line st = Ok st)) /\
  (forall line data st,
      PyStr.strip line <> "" -> json_loads (PyStr.strip line) = Ok data ->
      match data with
      | JNull | JBool _ | JInt _ | JFloat _ =>
          exists e, parse_line json_loads line st = Raise e /\ exc_type e = "TypeError"
      | _ => True
      end) /\
  (forall pre line post m st steps verdict,
      PyStr.strip line <> "" -> json_loads (PyStr.strip line) = Ok (JObj m) ->
      taken_for_verdict m = true ->
      (forall l m', l ∈ post -> PyStr.strip l <> "" ->
                    json_loads (PyStr.strip l) = Ok (JObj m') ->
                    taken_for_verdict m' = false) ->
      parse_lines json_loads (pre ++ line :: post) st = (steps, verdict, None) ->
      verdict = Some m).
Proof.
  split; [|split; [|split]].
  - intros line m st Hne Hload Hstep Hverdict.
    rewrite (parse_line_loaded _ _ _ Hne Hload), on_record_object.
    revert Hstep Hverdict. unfold taken_for_step, taken_for_verdict. cbn.
    destruct (m !! "step") as [step|], (m !! "verified") as [ver|],
      (m !! "final_answer_verified") as [[]|]; cbn; try done;
      by intros ->.
  - intros line data st Hne Hload Hshape.
    rewrite (parse_line_loaded _ _ _ Hne Hload).
    destruct (py_contains_holds data "step" Hshape) as (b1 & H1 & Hb1).
    destruct (py_contains_holds data "verified" Hshape) as (b2 & H2 & Hb2).
    destruct (py_contains_holds data "final_answer_verified" Hshape) as (b3 & H3 & Hb3).
    unfold on_record. rewrite H1. cbn [mbind outcome_bind].
    assert (forall T (x : T), mret x = Ok x) as Hret by done.
    destruct b1.
    + rewrite H2. cbn [mbind outcome_bind]. destruct b2.
      * split; [|split].
        -- intros _ _. destruct Hshape as [[l ->]|[s ->]]; by eexists.
        -- intros Hno. destruct Hno. split; [by apply Hb1|by apply Hb2].
        -- intros Hno. destruct Hno. split; [by apply Hb1|by apply Hb2].
      * rewrite H3. cbn [mbind outcome_bind]. split; [|split].
        -- intros _ Hv%Hb2. done.
        -- intros _ Hf%Hb3. subst b3. destruct Hshape as [[l ->]|[s ->]]; by eexists.
        -- intros _ Hf. destruct b3; [by destruct Hf; apply Hb3|done].
    + rewrite Hret. cbn [mbind outcome_bind]. rewrite H3. cbn [mbind outcome_bind].
      split; [|split].
      * intros Hs%Hb1. done.
      * intros _ Hf%Hb3. subst b3. destruct Hshape as [[l ->]|[s ->]]; by eexists.
      * intros _ Hf. destruct b3; [by destruct Hf; apply Hb3|done].
  - intros line data st Hne Hload. rewrite (parse_line_loaded _ _ _ Hne Hload).
    destruct data; try done; eexists; (split; [reflexivity|done]).
  - intros pre line post m st steps verdict Hne Hload Htaken Hpost.
    rewrite parse_lines_app.
    destruct (parse_lines json_loads pre st) as [[s v] [e|]]; [done|].
    cbn [parse_lines].
    rewrite (parse_line_loaded _ _ _ Hne Hload), on_record_object.
    revert Htaken. unfold taken_for_verdict. cbn.
    destruct (m !! "step") as [step|], (m !! "verified") as [ver|],
      (m !! "final_answer_verified") as [[]|]; cbn; try done;
      intros _ H; by apply parse_lines_keeps_verdict in H.
Qed.

End ParserFacts.
Section PipelineFacts.

Import VerificationPipeline.

Variable rt : Runtime.
Variable self : VerificationPipeline.

Lemma bind_run {A B} (m : M A) (k : A -> M B) (w : World) :
  (m ≫= k) w =
  match m w with
  | (Val a, w') => k a w'
  | (Exc e, w') => (Exc e, w')
  | (BaseExc e, w') => (BaseExc e, w')
  end.
Proof. reflexivity. Qed.

Lemma call_model_run (args : CallArgs) (w : World) :
  exists w',
    call_model rt args w =
      (match model_manager_call rt args (trace w) with
       | Ok content => Val content
       | Raise e => Exc e
       end, w') /\
    trace w' = (trace w ++ [ModelCall args (model_manager_call rt args (trace w))])%list.
Proof.
  unfold call_model. destruct (model_manager_call rt args (trace w)); eauto.
Qed.

Lemma run_executor_run (code : string) (w : World) :
  exists r w',
    run_executor rt (executor self) code w = (r, w') /\
    trace w' = (trace w ++ [SandboxRun code r])%list.
Proof.
  unfold run_executor. destruct (SafeExecutor.execute _ _ _ _ _ _) as [r p]. eauto.
Qed.

(** [generate] calls the model once and raises nothing but [Exception]s. *)
Lemma generate_run (reasoning : ReasoningOutput) (w : World) :
  exists args answer res w',
    CodeGeneration.generate rt reasoning w = (res, w') /\
    trace w' = (trace w ++ [ModelCall args answer])%list /\
    task args = "verification" /\ messages_override args = None /\
    (forall e, res <> BaseExc e).
Proof.
  unfold CodeGeneration.generate. rewrite bind_run. unfold try_except.
  destruct (call_model_run
              (mkCallArgs "verification" CodeGeneration.baseline
                 (ReasoningVariables reasoning) None None) w) as (w' & -> & Htrace).
  destruct (model_manager_call rt _ _) as [content|e]; cbn.
  - destruct (SymPyCodeGenerator.extract_code content) as [code|];
      [destruct (String.eqb code "")|]; cbn; eauto 10.
  - eauto 10.
Qed.

(** [_get_repaired_code] calls the model at most once, with replacement
    messages. *)
Lemma get_repaired_code_run (reasoning : ReasoningOutput) (prompt : string) (w : World) :
  exists evs res w',
    _get_repaired_code rt self reasoning prompt w = (res, w') /\
    trace w' = (trace w ++ evs)%list /\
    (evs = [] \/ exists args answer,
                   evs = [ModelCall args answer] /\
                   is_code_repair (ModelCall args answer) = true) /\
    (forall e, res <> BaseExc e) /\
    (forall code, res = Val code -> exists args answer, evs = [ModelCall args answer]) /\
    (evs = [] -> exists e, load_system_template rt CodeGeneration.baseline = Raise e).
Proof.
  unfold _get_repaired_code. rewrite bind_run.
  destruct (load_system_template rt CodeGeneration.baseline) as [template|e]; cbn.
  - rewrite bind_run.
    destruct (call_model_run
                (mkCallArgs "verification" CodeGeneration.baseline
                   (ReasoningVariables reasoning)
                   (Some [("system", template); ("user", prompt)])
                   (Some (repair_temperature self))) w) as (w' & -> & Htrace).
    destruct (model_manager_call rt _ _) as [content|e]; cbn.
    + destruct (SymPyCodeGenerator.extract_code content) as [code|];
        [destruct (String.eqb code "")|]; cbn;
        (do 3 eexists; split; [reflexivity|]; split; [exact Htrace|];
         split; [right; eauto|]; split; [done|]; split; [eauto|done]).
    + do 3 eexists; split; [reflexivity|]; split; [exact Htrace|];
         split; [right; eauto|]; split; [done|]; split; [eauto|done].
  - exists [], (Exc e), w. rewrite app_nil_r. repeat split; eauto; done.
Qed.

(** What [_handle_codegen_fault] does to the world. *)
Lemma handle_codegen_fault_run (original_code : string) (exec_result : CodeExecutionResult)
    (reasoning : ReasoningOutput) (extra_error : option string) (w : World) :
  exists evs res w',
    _handle_codegen_fault rt self original_code exec_result reasoning extra_error w
      = (res, w') /\
    trace w' = (trace w ++ evs)%list /\
    repair_summary rt evs res /\
    (evs = [] -> exists e, load_system_template rt CodeGeneration.baseline = Raise e).
Proof.
  unfold _handle_codegen_fault, try_except. rewrite bind_run.
  destruct (get_repaired_code_run reasoning
              (_create_codegen_repair_prompt original_code
                 (error_message_of exec_result extra_error)) w)
    as (evs & res & w1 & -> & Htrace & Hevs & Hbase & Hval & Hnil).
  destruct res as [repaired|e|e]; [|cbn|by destruct (Hbase e)].
  - destruct (Hval _ eq_refl) as (args & answer & ->).
    destruct Hevs as [|(? & ? & [= <- <-] & Hrepair)]; [done|].
    rewrite bind_run.
    destruct (run_executor_run repaired w1) as (r & w2 & -> & Htrace2).
    rewrite Htrace, <- app_assoc in Htrace2. cbn in Htrace2.
    assert (forall res, settles rt true r res ->
              exists evs, trace w2 = (trace w ++ evs)%list /\ repair_summary rt evs res /\
                (evs = [] ->
                 exists e, load_system_template rt CodeGeneration.baseline = Raise e))
      as Hwrap.
    { intros res Hres. eexists. split; [exact Htrace2|]. split; [|done]. right.
      do 4 eexists. split; [done|]. split; [done|]. exact Hres. }
    destruct r as [r2|e|e]; unfold settles, contract_adhered in Hwrap.
    + destruct (success r2); cbn [negb andb] in *.
      * destruct (VerificationOutputParser.parse (json_loads rt) r2)
          as [[steps verdict] [err|]].
        -- rewrite bool_decide_eq_true_2 by eauto. cbn.
           edestruct Hwrap as (evs & ? & ?); [|do 3 eexists; eauto].
           rewrite bool_decide_eq_true_2 by eauto. cbn. eauto.
        -- rewrite bool_decide_eq_false_2 by (by intros []). cbn [orb].
           rewrite bool_decide_eq_false_2 in Hwrap by (by intros []).
           cbn [negb andb] in Hwrap.
           destruct (not_verdict verdict); cbn [negb] in Hwrap; cbn.
           ++ edestruct Hwrap as (evs & ? & ?); [|do 3 eexists; eauto]. eauto.
           ++ edestruct Hwrap as (evs & ? & ?); [|do 3 eexists; eauto].
              eexists. split; [done|]. split; [done|]. cbn. unfold status_of.
              destruct (all_steps_ok steps && _); eauto.
      * cbn. edestruct Hwrap as (evs & ? & ?); [|do 3 eexists; eauto]. eauto.
    + cbn. edestruct Hwrap as (evs & ? & ?); [|do 3 eexists; eauto]. eauto.
    + cbn. edestruct Hwrap as (evs & ? & ?); [|do 3 eexists; eauto]. eauto.
  - do 3 eexists. split; [reflexivity|]. split; [exact Htrace|]. split; [|done].
    left. eexists. split; [done|]. split; [done|]. done.
Qed.

Lemma verify_generated (reasoning : ReasoningOutput) (w w1 : World) (code : string) :
  CodeGeneration.generate rt reasoning w = (Val code, w1) ->
  verify rt self reasoning w = execute_and_analyze rt self reasoning code w1.
Proof.
  intros Hgen. unfold verify. rewrite bind_run. unfold try_except.
  rewrite bind_run, Hgen. reflexivity.
Qed.

Lemma print_run {A} (text : string) (k : M A) (w : World) :
  (_ ← print text; k) w = k (log (Printed text) w).
Proof. reflexivity. Qed.

(** What [verify] does to the world. *)
Lemma verify_run (reasoning : ReasoningOutput) (w : World) :
  exists evs res w',
    verify rt self reasoning w = (res, w') /\
    trace w' = (trace w ++ evs)%list /\
    verify_summary rt evs res.
Proof.
  destruct (generate_run reasoning w)
    as (args & answer & gen & w1 & Hgen & Htrace & Htask & Hover & Hbase).
  assert (is_code_generation (ModelCall args answer) = true) as Hg
    by (cbn; by rewrite Htask).
  assert (is_code_repair (ModelCall args answer) = false) as Hr
    by (cbn; rewrite Hover, Htask; by rewrite bool_decide_eq_false_2 by (by intros [])).
  destruct gen as [code|e|e]; [|clear Hbase|by destruct (Hbase e)].
  - rewrite (verify_generated _ _ _ _ Hgen). unfold execute_and_analyze.
    rewrite bind_run.
    destruct (run_executor_run code w1) as (r & w2 & -> & Htrace2).
    rewrite Htrace, <- app_assoc in Htrace2. cbn in Htrace2.
    assert (forall text extra,
               contract_adhered rt
                 match r with Val r1 => r1 | _ => mkCodeExecutionResult false "" "" 0 None None None end
                 = false ->
               forall r1, r = Val r1 ->
               exists evs res w',
                 _handle_codegen_fault rt self code r1 reasoning extra
                   (log (Printed text) w2) = (res, w') /\
                 trace w' = (trace w ++ evs)%list /\
                 verify_summary rt evs res) as Hfault.
    { intros text extra Hbad r1 ->.
      destruct (handle_codegen_fault_run code r1 reasoning extra (log (Printed text) w2))
        as (evs' & res & w3 & Hrun & Htrace3 & Hsum & _).
      exists (ModelCall args answer :: SandboxRun code (Val r1) :: Printed text :: evs')%list,
        res, w3.
      split; [done|]. split.
      { rewrite Htrace3. cbn. rewrite Htrace2, <- !app_assoc. done. }
      exists args, answer. split; [done|]. split; [done|]. right.
      exists code, (Val r1), text, (Printed text :: evs')%list. split; [done|].
      rewrite Hbad. eauto. }
    destruct r as [r1|e|e].
    + unfold contract_adhered in Hfault.
      destruct (success r1) eqn:Hsucc; cbn [negb andb] in *.
      * destruct (VerificationOutputParser.parse (json_loads rt) r1)
          as [[steps verdict] [err|]] eqn:Hparse.
        -- rewrite print_run. eapply Hfault; [|done].
           by rewrite bool_decide_eq_true_2 by eauto.
        -- rewrite bool_decide_eq_false_2 in Hfault by (by intros []).
           cbn [negb andb] in Hfault.
           destruct (not_verdict verdict) eqn:Hnv.
           ++ rewrite print_run. by eapply Hfault.
           ++ assert (forall text status,
                        status = "verified" \/ status = "failed_reasoning" ->
                        exists evs res w',
                          (Val (_create_final_result rt reasoning code r1 steps
                                  (default ∅ verdict) status false),
                           log (Printed text) w2) = (res, w') /\
                          trace w' = (trace w ++ evs)%list /\
                          verify_summary rt evs res) as Hfinal.
              { intros text st Hst. do 3 eexists. split; [done|]. split.
                { cbn. rewrite Htrace2, <- !app_assoc. done. }
                exists args, answer. split; [done|]. split; [done|]. right.
                exists code, (Val r1), text, [Printed text]. split; [done|].
                unfold settles, contract_adhered. rewrite Hsucc, Hparse.
                rewrite bool_decide_eq_false_2 by (by intros []).
                rewrite Hnv. cbn. split; [done|]. eauto. }
              destruct (all_steps_ok steps && _); rewrite print_run; apply Hfinal; eauto.
      * rewrite print_run. by eapply Hfault.
    + do 3 eexists. split; [done|]. split; [exact Htrace2|].
      exists args, answer. split; [done|]. split; [done|]. right.
      exists code, (Exc e), "", []. done.
    + do 3 eexists. split; [done|]. split; [exact Htrace2|].
      exists args, answer. split; [done|]. split; [done|]. right.
      exists code, (BaseExc e), "", []. done.
  - unfold verify. rewrite bind_run. unfold try_except. rewrite bind_run, Hgen.
    do 3 eexists. split; [done|]. split; [exact Htrace|].
    exists args, answer. split; [done|]. split; [done|]. left.
    eexists. split; [done|]. split; done.
Qed.

(** A verdict kept by the parser counts as present, and its flag decides
    [answer_ok]. *)
Lemma kept_verdict_flag (verdict : pydict) :
  is_Some (VerificationOutputParser.contract_verdict (JObj verdict)) ->
  exists b, verdict !! "final_answer_verified" = Some (JBool b) /\
            not_verdict (Some verdict) = false /\ answer_ok verdict = b.
Proof.
  cbn. unfold answer_ok.
  destruct (verdict !! "final_answer_verified") as [[| b | | | | |]|] eqn:Hkey;
    intros [? ?]; try done.
  exists b. split; [done|]. split; [|done].
  destruct (Nat.eqb_spec (size verdict) 0) as [Hsize|]; [|done].
  apply map_size_empty_iff in Hsize. subst. by rewrite lookup_empty in Hkey.
Qed.

Lemma all_steps_ok_Forall (steps : list StepVerification) :
  all_steps_ok steps = true <-> Forall (fun s => verified s = true) steps.
Proof.
  unfold all_steps_ok. rewrite forallb_forall, Forall_forall.
  split; intros H x Hx; apply H; by apply list_elem_of_In.
Qed.

Lemma some_step_failed (steps : list StepVerification) :
  all_steps_ok steps = false <-> Exists (fun s => verified s = false) steps.
Proof.
  unfold all_steps_ok. induction steps as [|s steps IH]; cbn.
  - split; [done|]. by intros ?%Exists_nil.
  - rewrite Exists_cons, <- IH. destruct (verified s); cbn.
    + split; [by right|]. by intros [|].
    + split; [by left|done].
Qed.

(** C1. When the generated code executes successfully and its output
    parses without error and holds a final verdict, the pipeline returns a
    result whose status is [verified] exactly when the verdict's
    [final_answer_verified] is true and every parsed step is verified, and
    [failed_reasoning] exactly when the verdict is false or some step is not
    verified. *)
Theorem verified_iff_verdict_and_steps (reasoning : ReasoningOutput) (w w1 w2 : World)
    (code : string) (r : CodeExecutionResult)
    (steps : list StepVerification) (verdict : pydict) :
  CodeGeneration.generate rt reasoning w = (Val code, w1) ->
  run_executor rt (executor self) code w1 = (Val r, w2) ->
  success r = true ->
  VerificationOutputParser.parse (json_loads rt) r = (steps, Some verdict, None) ->
  exists v w3,
    verify rt self reasoning w = (Val v, w3) /\
    step_verifications v = steps /\
    (status v = "verified" <->
       verdict !! "final_answer_verified" = Some (JBool true) /\
       Forall (fun s => verified s = true) steps) /\
    (status v = "failed_reasoning" <->
       verdict !! "final_answer_verified" = Some (JBool false) \/
       Exists (fun s => verified s = false) steps).
Proof.
  intros Hgen Hrun Hsucc Hparse.
  rewrite (verify_generated _ _ _ _ Hgen). unfold execute_and_analyze.
  rewrite bind_run, Hrun, Hsucc, Hparse. cbn [negb].
  destruct (kept_verdict_flag verdict) as (b & Hkey & -> & Hanswer).
  { eapply parse_verdict; [exact Hparse|done]. }
  change (default ∅ (Some verdict)) with verdict. rewrite Hanswer, Hkey.
  destruct (all_steps_ok steps) eqn:Hall; [destruct b|]; cbn [andb];
    rewrite print_run; do 2 eexists; (split; [reflexivity|]); cbn [status step_verifications _create_final_result];
    (split; [done|]).
  - apply all_steps_ok_Forall in Hall. split.
    + split; [by intros _|done].
    + split; [by intros [=]|]. intros [[=]|Hex]. exfalso.
      apply Exists_exists in Hex as (s & Hin & Hs).
      rewrite Forall_forall in Hall. specialize (Hall s Hin). congruence.
  - split.
    + split; [by intros [=]|by intros [[=] _]].
    + split; [by left|done].
  - apply some_step_failed in Hall. split.
    + split; [by intros [=]|]. intros [_ Hfor]. exfalso.
      apply Exists_exists in Hall as (s & Hin & Hs).
      rewrite Forall_forall in Hfor. specialize (Hfor s Hin). congruence.
    + split; [by right|done].
Qed.

Lemma repair_is_generation (ev : Event) :
  is_code_repair ev = true -> is_code_generation ev = true.
Proof. destruct ev; cbn; try done. by intros [? _]%andb_prop. Qed.

(** The counts of a repair, and what its run settles. *)
Lemma repair_summary_counts (evs : list Event) (res : result VerificationResult) :
  repair_summary rt evs res ->
  (count is_code_repair evs <= 1)%nat /\
  (count is_code_generation evs <= 1)%nat /\
  (count is_sandbox_run evs <= 1)%nat /\
  (count is_pipeline_run evs = 0)%nat /\
  (forall r2, sandbox_results evs = [r2] ->
              (exists code, last evs = Some (SandboxRun code r2)) /\
              count is_code_repair evs = 1%nat /\ settles rt true r2 res) /\
  (sandbox_results evs = [] -> exists v, res = Val v /\ status v = "failed_pipeline").
Proof.
  intros [(v & -> & Hst & [->|(args & answer & -> & Hrep)])
         |(args & answer & code & r & -> & Hrep & Hset)].
  - cbn. repeat split; try lia; try done. eauto.
  - pose proof (repair_is_generation _ Hrep) as Hgen.
    unfold count. cbn [List.filter]. rewrite Hrep, Hgen. cbn.
    repeat split; try lia; try done. eauto.
  - pose proof (repair_is_generation _ Hrep) as Hgen.
    unfold count. cbn [List.filter]. rewrite Hrep, Hgen. cbn.
    split; [lia|]. split; [lia|]. split; [lia|]. split; [done|]. split; [|done].
    intros r2 [= ->]. split; [by eexists|]. split; [done|]. exact Hset.
Qed.







End PipelineFacts.
(** ** The sandbox executor *)
Section ExecutorFacts.

Import SafeExecutor.

Variable ast_parse : string -> outcome unit.
Variable py_exec : string -> Process -> ScriptRun.
Variable format_exc : PyException -> string.
Variable self : SafeExecutor.

Abbreviation execute := (execute ast_parse py_exec format_exc self).

Lemma write_frame (s : stream) (text : string) (p : Process) :
  sys_stdout (write s text p) = sys_stdout p /\
  sys_stderr (write s text p) = sys_stderr p /\
  sigalrm_handler (write s text p) = sigalrm_handler p /\
  alarm (write s text p) = alarm p /\
  rlimit_as (write s text p) = rlimit_as p /\
  in_main_thread (write s text p) = in_main_thread p /\
  resource_available (write s text p) = resource_available p.
Proof. by destruct s. Qed.

Lemma signal_alarm_in_range (t : Z) (p : Process) :
  - 2 ^ 31 <= t < 2 ^ 31 -> signal_alarm t p = Ok (set_alarm (armed t) p).
Proof.
  intros [Hlo Hhi]. unfold signal_alarm.
  rewrite (proj2 (Z.ltb_ge _ _) Hlo). by rewrite (proj2 (Z.leb_gt _ _) Hhi).
Qed.

Lemma signal_alarm_out_of_range (t : Z) (p : Process) :
  ~ (- 2 ^ 31 <= t < 2 ^ 31) ->
  exists e, signal_alarm t p = Raise e /\ exc_type e = "OverflowError".
Proof.
  intros Hout. unfold signal_alarm.
  destruct (Z.ltb_spec t (- 2 ^ 31)); [by eauto|].
  destruct (Z.leb_spec (2 ^ 31) t); [by eauto|]. lia.
Qed.

Lemma setrlimit_as_in_range (n : Z) (p : Process) :
  - 2 ^ 63 <= n < 2 ^ 63 ->
  setrlimit_as n p =
    if rlim_below (snd (rlimit_as p)) (to_rlim n)
    then Raise (mkExc "ValueError" "not allowed to raise maximum limit")
    else Ok (set_rlimit_as (to_rlim n, to_rlim n) p).
Proof.
  intros [Hlo Hhi]. unfold setrlimit_as.
  rewrite (proj2 (Z.ltb_ge _ _) Hlo). by rewrite (proj2 (Z.leb_gt _ _) Hhi).
Qed.

Lemma setrlimit_as_out_of_range (n : Z) (p : Process) :
  ~ (- 2 ^ 63 <= n < 2 ^ 63) ->
  setrlimit_as n p
    = Raise (mkExc "OverflowError" "Python int too large to convert to C long").
Proof.
  intros Hout. unfold setrlimit_as.
  destruct (Z.ltb_spec n (- 2 ^ 63)); [done|].
  destruct (Z.leb_spec (2 ^ 63) n); [done|]. lia.
Qed.

(** A number of megabytes, in bytes, is not the [-1] of [RLIM_INFINITY]. *)
Lemma memory_bytes_rlim : to_rlim (max_memory_mb self * 1024 * 1024)
                          = Bytes (max_memory_mb self * 1024 * 1024).
Proof.
  unfold to_rlim. destruct (Z.eqb_spec (max_memory_mb self * 1024 * 1024) (-1)); [|done].
  lia.
Qed.

(** What [_apply_resource_limits] lets through: nothing, or the
    [OverflowError] of a limit that does not fit, and then it has changed
    nothing. *)
Lemma apply_resource_limits_raises (p : Process) :
  (resource_available p = false \/
   - 2 ^ 63 <= max_memory_mb self * 1024 * 1024 < 2 ^ 63 ->
   (_apply_resource_limits self p).1 = None) /\
  (resource_available p = true ->
   ~ (- 2 ^ 63 <= max_memory_mb self * 1024 * 1024 < 2 ^ 63) ->
   _apply_resource_limits self p
     = (Some (mkExc "OverflowError" "Python int too large to convert to C long"), p)).
Proof.
  unfold _apply_resource_limits. cbv zeta. split.
  - intros [->|Hrange]; [done|]. destruct (resource_available p); [|done].
    rewrite (setrlimit_as_in_range _ _ Hrange).
    by destruct (rlim_below _ _).
  - intros -> Hout. by rewrite (setrlimit_as_out_of_range _ _ Hout).
Qed.

(** Whether it lets an exception through is a matter of the instance and of
    the [resource] module alone. *)
Lemma apply_resource_limits_raises_same (p p' : Process) :
  resource_available p' = resource_available p ->
  (_apply_resource_limits self p').1 = (_apply_resource_limits self p).1.
Proof.
  intros Hsame.
  destruct (decide (- 2 ^ 63 <= max_memory_mb self * 1024 * 1024 < 2 ^ 63)) as [Hr|Hr].
  - rewrite (proj1 (apply_resource_limits_raises p)) by auto.
    by rewrite (proj1 (apply_resource_limits_raises p')) by auto.
  - destruct (resource_available p) eqn:Hres.
    + rewrite (proj2 (apply_resource_limits_raises p) Hres Hr).
      by rewrite (proj2 (apply_resource_limits_raises p') Hsame Hr).
    + rewrite (proj1 (apply_resource_limits_raises p)) by auto.
      by rewrite (proj1 (apply_resource_limits_raises p')) by auto.
Qed.

Lemma apply_resource_limits_frame (p : Process) :
  let p' := (_apply_resource_limits self p).2 in
  sys_stdout p' = sys_stdout p /\ sys_stderr p' = sys_stderr p /\
  sigalrm_handler p' = sigalrm_handler p /\ alarm p' = alarm p /\
  in_main_thread p' = in_main_thread p.
Proof.
  pose proof (write_frame (sys_stderr p) (limits_warning) p) as (? & ? & ? & ? & ? & ? & ?).
  unfold _apply_resource_limits, setrlimit_as. cbv zeta.
  destruct (resource_available p); [|done].
  destruct (_ || _); [done|]. by destruct (rlim_below _ _).
Qed.

(** The address-space limit after [_apply_resource_limits]. *)
Lemma apply_resource_limits_rlimit (p : Process) :
  rlimit_as (_apply_resource_limits self p).2 =
  if resource_available p then
    if bool_decide (- 2 ^ 63 <= max_memory_mb self * 1024 * 1024 < 2 ^ 63) then
      if rlim_below (snd (rlimit_as p)) (Bytes (max_memory_mb self * 1024 * 1024))
      then rlimit_as p
      else (Bytes (max_memory_mb self * 1024 * 1024),
            Bytes (max_memory_mb self * 1024 * 1024))
    else rlimit_as p
  else rlimit_as p.
Proof.
  pose proof (write_frame (sys_stderr p) (limits_warning) p) as (? & ? & ? & ? & ? & ? & ?).
  unfold _apply_resource_limits. cbv zeta.
  destruct (resource_available p); [|done].
  destruct (decide (- 2 ^ 63 <= max_memory_mb self * 1024 * 1024 < 2 ^ 63)) as [Hr|Hr].
  - rewrite bool_decide_eq_true_2 by done.
    rewrite (setrlimit_as_in_range _ _ Hr), memory_bytes_rlim.
    by destruct (rlim_below _ _).
  - rewrite bool_decide_eq_false_2 by done.
    by rewrite (setrlimit_as_out_of_range _ _ Hr).
Qed.

(** The limit does not depend on what the streams are bound to. *)
Lemma apply_resource_limits_rlimit_same (p p' : Process) :
  resource_available p' = resource_available p -> rlimit_as p' = rlimit_as p ->
  rlimit_as (_apply_resource_limits self p').2 = rlimit_as (_apply_resource_limits self p).2.
Proof. intros Hres Hlim. by rewrite !apply_resource_limits_rlimit, Hres, Hlim. Qed.






(** [_apply_resource_limits] lets nothing through, or the limit does not
    fit. *)
Lemma limits_applied_or_overflow (p : Process) :
  (_apply_resource_limits self p).1 = None \/
  (resource_available p = true /\
   ~ (- 2 ^ 63 <= max_memory_mb self * 1024 * 1024 < 2 ^ 63)).
Proof.
  destruct (resource_available p) eqn:Hres.
  - destruct (decide (- 2 ^ 63 <= max_memory_mb self * 1024 * 1024 < 2 ^ 63)) as [Hr|Hr].
    + left. apply apply_resource_limits_raises. by right.
    + by right.
  - left. apply apply_resource_limits_raises. by left.
Qed.





End ExecutorFacts.
(** ** The confidence score *)
Section ConfidenceFacts.

Import VerificationPipeline.

(** *** Rounding to floats *)

Lemma round_half_even_near (q : Q) :
  (q - (1 # 2) <= inject_Z (round_half_even q))%Q /\
  (inject_Z (round_half_even q) <= q + (1 # 2))%Q.
Proof.
  unfold round_half_even.
  pose proof (Qfloor_le q) as Hlo. pose proof (Qlt_floor q) as Hhi.
  rewrite inject_Z_plus in Hhi. change (inject_Z 1) with 1%Q in Hhi.
  destruct (Qcompare_spec (q - inject_Z (Qfloor q)) (1 # 2)) as [Heq|Hlt|Hgt].
  - destruct (Z.even (Qfloor q));
      rewrite ?inject_Z_plus; change (inject_Z 1) with 1%Q; lra.
  - lra.
  - rewrite inject_Z_plus. change (inject_Z 1) with 1%Q. lra.
Qed.

Lemma round_half_even_comp (q q' : Q) :
  (q == q')%Q -> round_half_even q = round_half_even q'.
Proof.
  intros Hq. unfold round_half_even.
  assert (Qfloor q = Qfloor q') as Hfl by (by rewrite Hq).
  rewrite Hfl.
  assert (Qcompare (q - inject_Z (Qfloor q')) (1 # 2)
          = Qcompare (q' - inject_Z (Qfloor q')) (1 # 2)) as Hc by (by rewrite Hq).
  by rewrite Hc.
Qed.

Lemma round_half_even_mono (q q' : Q) :
  (q <= q')%Q -> round_half_even q <= round_half_even q'.
Proof.
  intros Hle.
  destruct (Z_le_gt_dec (round_half_even q) (round_half_even q')) as [?|Hgt]; [done|].
  destruct (round_half_even_near q) as [_ Hq].
  destruct (round_half_even_near q') as [Hq' _].
  assert (round_half_even q' + 1 <= round_half_even q) as Hstep by lia.
  rewrite Zle_Qle, inject_Z_plus in Hstep. change (inject_Z 1) with 1%Q in Hstep.
  assert (q == q')%Q as Heq by lra.
  rewrite (round_half_even_comp _ _ Heq) in Hgt. lia.
Qed.

Lemma round_half_even_Z (k : Z) : round_half_even (inject_Z k) = k.
Proof.
  unfold round_half_even. rewrite Qfloor_Z.
  assert (inject_Z k - inject_Z k == 0)%Q as Hzero by ring.
  by rewrite Hzero.
Qed.

Lemma round_half_even_ge (q : Q) (k : Z) :
  (inject_Z k <= q)%Q -> k <= round_half_even q.
Proof. intros Hq%round_half_even_mono. by rewrite round_half_even_Z in Hq. Qed.

Lemma round_half_even_le (q : Q) (k : Z) :
  (q <= inject_Z k)%Q -> round_half_even q <= k.
Proof. intros Hq%round_half_even_mono. by rewrite round_half_even_Z in Hq. Qed.

Lemma pow2_pos (j : Z) : 0 <= j -> (0 < inject_Z (2 ^ j))%Q.
Proof.
  intros Hj. change 0%Q with (inject_Z 0). rewrite <- Zlt_Qlt. by apply Z.pow_pos_nonneg.
Qed.

Lemma shift_nonneg (x : Q) : 0 <= shift x.
Proof. unfold shift. lia. Qed.

Lemma fl_nonneg (x : Q) :
  (0 <= x)%Q ->
  (fl x == inject_Z (significand x * 2 ^ shift x) / inject_Z (2 ^ 1074))%Q.
Proof.
  intros Hx. unfold fl. apply Qle_bool_iff in Hx as Hb. rewrite Hb.
  assert (Qabs x * inject_Z (2 ^ 1074) == scaled x)%Q as Hs.
  { unfold scaled. by rewrite (Qabs_pos x Hx). }
  unfold significand, shift.
  assert (Qfloor (Qabs x * inject_Z (2 ^ 1074)) = Qfloor (scaled x)) as -> by (by rewrite Hs).
  set (j := Z.max 0 _).
  assert (round_half_even (Qabs x * inject_Z (2 ^ 1074) / inject_Z (2 ^ j))
          = round_half_even (scaled x / inject_Z (2 ^ j))) as ->.
  { apply round_half_even_comp. by rewrite Hs. }
  reflexivity.
Qed.

Lemma fl_comp (x x' : Q) : (x == x')%Q -> fl x = fl x'.
Proof.
  intros Hx. unfold fl.
  assert (Qabs x * inject_Z (2 ^ 1074) == Qabs x' * inject_Z (2 ^ 1074))%Q as Hs
    by (by rewrite Hx).
  assert (Qfloor (Qabs x * inject_Z (2 ^ 1074)) = Qfloor (Qabs x' * inject_Z (2 ^ 1074)))
    as -> by (by rewrite Hs).
  set (j := Z.max 0 _).
  assert (round_half_even (Qabs x * inject_Z (2 ^ 1074) / inject_Z (2 ^ j))
          = round_half_even (Qabs x' * inject_Z (2 ^ 1074) / inject_Z (2 ^ j))) as ->.
  { apply round_half_even_comp. by rewrite Hs. }
  assert (Qle_bool 0 x = Qle_bool 0 x') as ->; [|done].
  destruct (Qle_bool 0 x) eqn:H1, (Qle_bool 0 x') eqn:H2; try done.
  - apply Qle_bool_iff in H1. rewrite Hx in H1. apply Qle_bool_iff in H1. congruence.
  - apply Qle_bool_iff in H2. rewrite <- Hx in H2. apply Qle_bool_iff in H2. congruence.
Qed.

Lemma scaled_nonneg (x : Q) : (0 <= x)%Q -> (0 <= scaled x)%Q.
Proof.
  intros Hx. unfold scaled. pose proof (pow2_pos 1074 ltac:(lia)) as HB.
  apply Qmult_le_0_compat; [done|]. by apply Qlt_le_weak.
Qed.

Lemma floor_nonneg (y : Q) : (0 <= y)%Q -> 0 <= Qfloor y.
Proof. intros Hy. change 0 with (Qfloor 0). by apply Qfloor_resp_le. Qed.

(** Above the shift, the scaled number has at most 53 bits. *)
Lemma scaled_below (x : Q) :
  (0 <= x)%Q -> (scaled x <= inject_Z (2 ^ (shift x + 53)))%Q.
Proof.
  intros Hx. pose proof (floor_nonneg _ (scaled_nonneg x Hx)) as HF.
  pose proof (Qlt_floor (scaled x)) as Hhi.
  assert (Qfloor (scaled x) + 1 <= 2 ^ (shift x + 53)) as Hpow.
  { unfold shift. destruct (Z.eq_dec (Qfloor (scaled x)) 0) as [->|Hne].
    - change (Z.log2 0) with 0. change (Z.max 0 (0 - 52)) with 0. by compute.
    - pose proof (Z.log2_spec (Qfloor (scaled x)) ltac:(lia)) as [_ Hlt].
      assert (Z.succ (Z.log2 (Qfloor (scaled x)))
              <= Z.max 0 (Z.log2 (Qfloor (scaled x)) - 52) + 53) as Hexp by lia.
      pose proof (Z.pow_le_mono_r 2 _ _ ltac:(lia) Hexp). lia. }
  rewrite Zle_Qle in Hpow. by apply Qlt_le_weak, (Qlt_le_trans _ _ _ Hhi).
Qed.

(** With a positive shift, it has its 53 bits. *)
Lemma scaled_above (x : Q) :
  (0 <= x)%Q -> 0 < shift x -> (inject_Z (2 ^ (shift x + 52)) <= scaled x)%Q.
Proof.
  intros Hx Hshift. pose proof (floor_nonneg _ (scaled_nonneg x Hx)) as HF.
  pose proof (Qfloor_le (scaled x)) as Hlo.
  assert (2 ^ (shift x + 52) <= Qfloor (scaled x)) as Hpow.
  { unfold shift in *.
    destruct (Z.eq_dec (Qfloor (scaled x)) 0) as [Hz|Hne].
    - rewrite Hz in Hshift. by compute in Hshift.
    - pose proof (Z.log2_spec (Qfloor (scaled x)) ltac:(lia)) as [Hle _].
      replace (Z.max 0 (Z.log2 (Qfloor (scaled x)) - 52) + 52)
        with (Z.log2 (Qfloor (scaled x))) by lia.
      done. }
  rewrite Zle_Qle in Hpow. by apply (Qle_trans _ _ _ Hpow).
Qed.

Lemma significand_below (x : Q) : (0 <= x)%Q -> significand x <= 2 ^ 53.
Proof.
  intros Hx. unfold significand. apply round_half_even_le.
  pose proof (pow2_pos (shift x) (shift_nonneg x)) as Hj.
  apply Qle_shift_div_r; [done|].
  rewrite <- inject_Z_mult, <- Z.pow_add_r by (pose proof (shift_nonneg x); lia).
  rewrite Z.add_comm. by apply scaled_below.
Qed.

Lemma significand_above (x : Q) : (0 <= x)%Q -> 0 < shift x -> 2 ^ 52 <= significand x.
Proof.
  intros Hx Hshift. unfold significand. apply round_half_even_ge.
  pose proof (pow2_pos (shift x) (shift_nonneg x)) as Hj.
  apply Qle_shift_div_l; [done|].
  rewrite <- inject_Z_mult, <- Z.pow_add_r by lia.
  rewrite Z.add_comm. by apply scaled_above.
Qed.

Lemma shift_mono (x x' : Q) : (0 <= x)%Q -> (x <= x')%Q -> shift x <= shift x'.
Proof.
  intros Hx Hle. unfold shift.
  assert (scaled x <= scaled x')%Q as Hs.
  { unfold scaled. apply Qmult_le_compat_r; [done|].
    apply Qlt_le_weak, pow2_pos. lia. }
  pose proof (Qfloor_resp_le _ _ Hs) as HF.
  pose proof (Z.log2_le_mono _ _ HF). lia.
Qed.

(** Rounding to the nearest float keeps the order. *)
Lemma fl_mono (x x' : Q) : (0 <= x)%Q -> (x <= x')%Q -> (fl x <= fl x')%Q.
Proof.
  intros Hx Hle. assert (0 <= x')%Q as Hx' by lra.
  rewrite (fl_nonneg x Hx), (fl_nonneg x' Hx').
  pose proof (pow2_pos 1074 ltac:(lia)) as HB.
  apply Qmult_le_compat_r; [|by apply Qlt_le_weak, Qinv_lt_0_compat].
  rewrite <- Zle_Qle.
  pose proof (shift_nonneg x) as Hj. pose proof (shift_nonneg x') as Hj'.
  pose proof (shift_mono x x' Hx Hle) as Hjj.
  destruct (Z.eq_dec (shift x) (shift x')) as [Heq|Hne].
  - rewrite <- Heq. apply Z.mul_le_mono_nonneg_r; [by apply Z.pow_nonneg|].
    unfold significand. rewrite <- Heq. apply round_half_even_mono.
    apply Qmult_le_compat_r.
    + unfold scaled. apply Qmult_le_compat_r; [done|by apply Qlt_le_weak].
    + apply Qlt_le_weak, Qinv_lt_0_compat, pow2_pos, Hj.
  - pose proof (significand_below x Hx) as Hm.
    pose proof (significand_above x' Hx' ltac:(lia)) as Hm'.
    apply (Z.le_trans _ (2 ^ 53 * 2 ^ shift x)).
    { apply Z.mul_le_mono_nonneg_r; [by apply Z.pow_nonneg|done]. }
    apply (Z.le_trans _ (2 ^ 52 * 2 ^ shift x')).
    { rewrite <- !Z.pow_add_r by lia. apply Z.pow_le_mono_r; lia. }
    apply Z.mul_le_mono_nonneg_r; [by apply Z.pow_nonneg|done].
Qed.

(** The error of rounding a number of the unit interval. *)
Lemma fl_error (x : Q) :
  (0 <= x)%Q -> (x <= 1)%Q ->
  (x - (1 # 2 ^ 53) <= fl x)%Q /\ (fl x <= x + (1 # 2 ^ 53))%Q.
Proof.
  intros Hx H1. rewrite (fl_nonneg x Hx).
  pose proof (pow2_pos 1074 ltac:(lia)) as HB.
  pose proof (shift_nonneg x) as Hj.
  pose proof (pow2_pos (shift x) Hj) as HP.
  assert (shift x <= 1022) as Hshift.
  { unfold shift.
    assert (scaled x <= inject_Z (2 ^ 1074))%Q as Hs.
    { assert (scaled x <= 1 * inject_Z (2 ^ 1074))%Q as Hs
        by (unfold scaled; apply Qmult_le_compat_r; [done|by apply Qlt_le_weak]).
      by rewrite Qmult_1_l in Hs. }
    apply Qfloor_resp_le in Hs. rewrite Qfloor_Z in Hs.
    apply Z.log2_le_mono in Hs. rewrite Z.log2_pow2 in Hs by lia. lia. }
  assert (inject_Z (2 ^ shift x) <= inject_Z (2 ^ 1022))%Q as HP'.
  { rewrite <- Zle_Qle. apply Z.pow_le_mono_r; lia. }
  destruct (round_half_even_near (scaled x / inject_Z (2 ^ shift x))) as [Hlo Hhi].
  fold (significand x) in Hlo, Hhi.
  rewrite inject_Z_mult.
  set (m := inject_Z (significand x)) in *. set (P := inject_Z (2 ^ shift x)) in *.
  assert (scaled x / P * P == scaled x)%Q as Hdiv by (field; lra).
  assert (scaled x - P * (1 # 2) <= m * P)%Q as Hlo'.
  { assert ((scaled x / P - (1 # 2)) * P <= m * P)%Q
      by (apply Qmult_le_compat_r; lra).
    lra. }
  assert (m * P <= scaled x + P * (1 # 2))%Q as Hhi'.
  { assert (m * P <= (scaled x / P + (1 # 2)) * P)%Q
      by (apply Qmult_le_compat_r; lra).
    lra. }
  assert ((1 # 2 ^ 53) * inject_Z (2 ^ 1074) == inject_Z (2 ^ 1022) * (1 # 2))%Q as Hulp
    by (by vm_compute).
  unfold scaled in *.
  set (B := inject_Z (2 ^ 1074)) in *. set (T := inject_Z (2 ^ 1022)) in *.
  set (u := (1 # 2 ^ 53)%Q) in *.
  split.
  - apply Qle_shift_div_l; [done|]. lra.
  - apply Qle_shift_div_r; [done|]. lra.
Qed.


(** Rounding stays between two floats. *)
Lemma fl_between (lo hi x : Q) :
  (0 <= lo)%Q -> (fl lo == lo)%Q -> (fl hi == hi)%Q ->
  (lo <= x)%Q -> (x <= hi)%Q -> (lo <= fl x)%Q /\ (fl x <= hi)%Q.
Proof.
  intros Hlo Hflo Hfhi Hx1 Hx2. split.
  - rewrite <- Hflo. by apply fl_mono.
  - rewrite <- Hfhi. apply fl_mono; lra.
Qed.

Lemma fl_quarters :
  (fl 0 == 0)%Q /\ (fl (1 # 4) == 1 # 4)%Q /\ (fl (1 # 2) == 1 # 2)%Q /\
  (fl (3 # 4) == 3 # 4)%Q /\ (fl 1 == 1)%Q.
Proof. repeat split; by vm_compute. Qed.

(** *** [round], [min] and [max] *)

Lemma py_round_comp (x y : Q) (n : nat) : (x == y)%Q -> py_round x n = py_round y n.
Proof.
  intros Hxy. unfold py_round.
  assert (round_half_even (x * inject_Z (10 ^ Z.of_nat n))
          = round_half_even (y * inject_Z (10 ^ Z.of_nat n))) as ->; [|done].
  apply round_half_even_comp. by rewrite Hxy.
Qed.

Lemma py_round_mono (x y : Q) :
  (0 <= x)%Q -> (x <= y)%Q -> (py_round x 4 <= py_round y 4)%Q.
Proof.
  intros Hx Hxy. unfold py_round.
  change (inject_Z (10 ^ Z.of_nat 4)) with 10000%Q.
  change (Z.to_pos (10 ^ Z.of_nat 4)) with 10000%positive.
  assert (0 <= round_half_even (x * 10000)) as Hk.
  { apply round_half_even_ge. change (inject_Z 0) with 0%Q. lra. }
  assert (round_half_even (x * 10000) <= round_half_even (y * 10000)) as Hkk
    by (apply round_half_even_mono; lra).
  apply fl_mono.
  - unfold Qle. cbn. lia.
  - unfold Qle. cbn. lia.
Qed.

Lemma py_min_comp (x y : Q) : (x == y)%Q -> (py_min 1 x == py_min 1 y)%Q.
Proof.
  intros Hxy. unfold py_min.
  destruct (Qle_bool 1 x) eqn:Hx, (Qle_bool 1 y) eqn:Hy; try done.
  - apply Qle_bool_iff in Hx. rewrite Hxy in Hx. apply Qle_bool_iff in Hx. congruence.
  - apply Qle_bool_iff in Hy. rewrite <- Hxy in Hy. apply Qle_bool_iff in Hy. congruence.
Qed.

Lemma py_max_comp (x y : Q) : (x == y)%Q -> (py_max 0 x == py_max 0 y)%Q.
Proof.
  intros Hxy. unfold py_max.
  destruct (Qle_bool x 0) eqn:Hx, (Qle_bool y 0) eqn:Hy; try done.
  - apply Qle_bool_iff in Hx. rewrite Hxy in Hx. apply Qle_bool_iff in Hx. congruence.
  - apply Qle_bool_iff in Hy. rewrite <- Hxy in Hy. apply Qle_bool_iff in Hy. congruence.
Qed.

Lemma clamp_unit_interval (x : Q) :
  (0 <= py_max 0 (py_min 1 x))%Q /\ (py_max 0 (py_min 1 x) <= 1)%Q.
Proof.
  unfold py_max, py_min.
  destruct (Qle_bool 1 x) eqn:H1; [by compute|].
  destruct (Qle_bool x 0) eqn:H0; [by compute|].
  assert (~ (1 <= x)%Q) by (rewrite <- Qle_bool_iff; congruence).
  assert (~ (x <= 0)%Q) by (rewrite <- Qle_bool_iff; congruence).
  lra.
Qed.

(** [max(0.0, min(1.0, x))] is [x] on the unit interval. *)
Lemma clamp_id (x : Q) : (0 <= x)%Q -> (x <= 1)%Q -> (py_max 0 (py_min 1 x) == x)%Q.
Proof.
  intros H0 H1. unfold py_max, py_min.
  destruct (Qle_bool 1 x) eqn:Hx1.
  - apply Qle_bool_iff in Hx1. change (Qle_bool 1 0) with false. cbv iota. lra.
  - destruct (Qle_bool x 0) eqn:Hx0; [|done].
    apply Qle_bool_iff in Hx0. lra.
Qed.

(** *** The fraction of verified steps *)

Lemma filter_verified_all (steps : list StepVerification) :
  Forall (fun s => verified s = true) steps ->
  filter (fun s => verified s = true) steps = steps.
Proof.
  induction 1 as [|s steps Hs _ IH]; [done|].
  rewrite filter_cons_True by done. by rewrite IH.
Qed.

Lemma fraction_all_verified (steps : list StepVerification) :
  Forall (fun s => verified s = true) steps -> (fraction_verified steps == 1)%Q.
Proof.
  intros Hall. destruct steps as [|s steps]; [done|].
  unfold fraction_verified. rewrite (filter_verified_all _ Hall).
  apply Qmult_inv_r. cbn [length]. unfold inject_Z, Qeq. cbn. lia.
Qed.

Lemma filter_verified_length (steps : list StepVerification) :
  (length (filter (fun s => verified s = true) steps) +
   length (filter (fun s => verified s = false) steps) = length steps)%nat.
Proof.
  induction steps as [|s steps IH]; [done|].
  destruct (verified s) eqn:Hs.
  - rewrite filter_cons_True, filter_cons_False by congruence. cbn. lia.
  - rewrite filter_cons_False, filter_cons_True by congruence. cbn. lia.
Qed.

Lemma fraction_verified_unit (steps : list StepVerification) :
  (0 <= fraction_verified steps)%Q /\ (fraction_verified steps <= 1)%Q.
Proof.
  destruct steps as [|s steps]; [done|]. unfold fraction_verified.
  pose proof (filter_verified_length (s :: steps)) as Hlen.
  set (v := length (filter (fun s => verified s = true) (s :: steps))) in *.
  set (n := length (s :: steps)) in *.
  assert (0 < n)%nat as Hn by (cbn; lia).
  assert (0 < inject_Z (Z.of_nat n))%Q as Hpos.
  { change 0%Q with (inject_Z 0). rewrite <- Zlt_Qlt. lia. }
  assert (0 <= inject_Z (Z.of_nat v))%Q as Hv0.
  { change 0%Q with (inject_Z 0). rewrite <- Zle_Qle. lia. }
  assert (inject_Z (Z.of_nat v) <= inject_Z (Z.of_nat n))%Q as Hvn.
  { rewrite <- Zle_Qle. lia. }
  split.
  - apply Qle_shift_div_l; [done|]. lra.
  - apply Qle_shift_div_r; [done|]. lra.
Qed.

(** *** The score on floats *)

Lemma float_score_comp (r r' : Q) (b : bool) :
  (r == r')%Q -> float_score r b = float_score r' b.
Proof. intros Hr. unfold float_score. by rewrite (fl_comp r r' Hr). Qed.

(** The parts of the score, for a ratio in the unit interval. *)
Lemma float_score_parts (r : Q) :
  (0 <= r)%Q -> (r <= 1)%Q ->
  let ratio := fl r in
  let part := fl (ratio * (1 # 4)) in
  let score := fl ((1 # 2) + part) in
  ((0 <= ratio)%Q /\ (ratio <= 1)%Q) /\ ((0 <= part)%Q /\ (part <= 1 # 4)%Q) /\
  ((1 # 2 <= score)%Q /\ (score <= 3 # 4)%Q) /\
  ((3 # 4 <= fl (score + (1 # 4)))%Q /\ (fl (score + (1 # 4)) <= 1)%Q).
Proof.
  intros H0 H1. cbv zeta.
  destruct fl_quarters as (F0 & F14 & F12 & F34 & F1).
  assert ((0 <= fl r)%Q /\ (fl r <= 1)%Q) as [Hr0 Hr1]
    by (apply (fl_between 0 1); [lra|exact F0|exact F1|exact H0|exact H1]).
  assert ((0 <= fl (fl r * (1 # 4)))%Q /\ (fl (fl r * (1 # 4)) <= 1 # 4)%Q) as [Hp0 Hp1]
    by (apply (fl_between 0 (1 # 4)); [lra|exact F0|exact F14|lra|lra]).
  assert ((1 # 2 <= fl ((1 # 2) + fl (fl r * (1 # 4))))%Q /\
          (fl ((1 # 2) + fl (fl r * (1 # 4))) <= 3 # 4)%Q) as [Hs0 Hs1]
    by (apply (fl_between (1 # 2) (3 # 4)); [lra|exact F12|exact F34|lra|lra]).
  assert ((3 # 4 <= fl (fl ((1 # 2) + fl (fl r * (1 # 4))) + (1 # 4)))%Q /\
          (fl (fl ((1 # 2) + fl (fl r * (1 # 4))) + (1 # 4)) <= 1)%Q) as [Ht0 Ht1]
    by (apply (fl_between (3 # 4) 1); [lra|exact F34|exact F1|lra|lra]).
  repeat split; assumption.
Qed.

Lemma float_score_bounds (r : Q) (b : bool) :
  (0 <= r)%Q -> (r <= 1)%Q ->
  if b then (3 # 4 <= float_score r b)%Q /\ (float_score r b <= 1)%Q
  else (1 # 2 <= float_score r b)%Q /\ (float_score r b <= 3 # 4)%Q.
Proof.
  intros H0 H1. destruct (float_score_parts r H0 H1) as (_ & _ & Hs & Ht).
  unfold float_score. by destruct b.
Qed.

Lemma float_score_mono (r r' : Q) (b : bool) :
  (0 <= r)%Q -> (r <= r')%Q -> (r' <= 1)%Q -> (float_score r b <= float_score r' b)%Q.
Proof.
  intros H0 Hrr H1.
  destruct (float_score_parts r H0 ltac:(lra)) as ((Hr0 & _) & (Hp0 & _) & (Hs0 & _) & _).
  assert (fl r <= fl r')%Q as Hratio by (by apply fl_mono).
  assert (fl (fl r * (1 # 4)) <= fl (fl r' * (1 # 4)))%Q as Hpart
    by (apply fl_mono; lra).
  assert (fl ((1 # 2) + fl (fl r * (1 # 4))) <= fl ((1 # 2) + fl (fl r' * (1 # 4))))%Q
    as Hscore by (apply fl_mono; lra).
  unfold float_score. destruct b; [|done]. apply fl_mono; lra.
Qed.

(** The score on floats is the exact score up to four roundings. *)
Lemma float_score_error (r : Q) (b : bool) :
  (0 <= r)%Q -> (r <= 1)%Q ->
  let exact := ((1 # 2) + r * (1 # 4) + (if b then 1 # 4 else 0))%Q in
  (exact - (4 # 2 ^ 53) <= float_score r b)%Q /\ (float_score r b <= exact + (4 # 2 ^ 53))%Q.
Proof.
  intros H0 H1. cbv zeta.
  destruct (float_score_parts r H0 H1)
    as ((Hr0 & Hr1) & (Hp0 & Hp1) & (Hs0 & Hs1) & (Ht0 & Ht1)).
  destruct (fl_error r H0 H1) as [E1 E1'].
  destruct (fl_error (fl r * (1 # 4)) ltac:(lra) ltac:(lra)) as [E2 E2'].
  destruct (fl_error ((1 # 2) + fl (fl r * (1 # 4))) ltac:(lra) ltac:(lra)) as [E3 E3'].
  destruct (fl_error (fl ((1 # 2) + fl (fl r * (1 # 4))) + (1 # 4)) ltac:(lra) ltac:(lra))
    as [E4 E4'].
  unfold float_score.
  set (u := (1 # 2 ^ 53)%Q) in *.
  assert ((4 # 2 ^ 53) == 4 * u)%Q as -> by (by vm_compute).
  destruct b; split; lra.
Qed.

(** What [_calculate_confidence] returns for a run that executed and gave a
    verdict. *)
Lemma confidence_of_parsed_run (exec_res : CodeExecutionResult)
    (steps : list StepVerification) (verdict : pydict) (b : bool) :
  success exec_res = true -> verdict !! "final_answer_verified" = Some (JBool b) ->
  _calculate_confidence exec_res steps (Some verdict) =
  py_round (float_score (fraction_verified steps) b) 4.
Proof.
  intros Hsucc Hkey. unfold _calculate_confidence. rewrite Hsucc.
  destruct (kept_verdict_flag verdict) as (b' & Hkey' & -> & Hanswer).
  { cbn. rewrite Hkey. eauto. }
  cbn [negb orb]. cbv zeta. change (default ∅ (Some verdict)) with verdict.
  rewrite Hanswer. assert (b' = b) as -> by congruence.
  apply py_round_comp.
  destruct steps as [|s steps].
  - unfold fraction_verified. destruct b; by vm_compute.
  - pose proof (fraction_verified_unit (s :: steps)) as [Hf0 Hf1].
    pose proof (float_score_bounds (fraction_verified (s :: steps)) b Hf0 Hf1) as Hb.
    unfold fraction_verified in *. unfold float_score in *.
    destruct b; apply clamp_id; destruct Hb; lra.
Qed.

(** Rounding to an integer is not moved by an error that keeps away from
    the ties. *)
Lemma round_half_even_stable (y exact delta : Q) :
  (exact - delta <= y)%Q -> (y <= exact + delta)%Q ->
  (forall m : Z,
      (exact + delta < inject_Z m + (1 # 2))%Q \/ (inject_Z m + (1 # 2) < exact - delta)%Q) ->
  round_half_even y = round_half_even exact.
Proof.
  intros Hlo Hhi Hties.
  destruct (round_half_even_near exact) as [Elo Ehi].
  destruct (round_half_even_near y) as [Ylo Yhi].
  set (K := round_half_even exact) in *. set (k := round_half_even y) in *.
  assert (inject_Z (K - 1) == inject_Z K - 1)%Q as HK1.
  { unfold Qeq, Qminus, Qplus, Qopp, inject_Z. cbn. lia. }
  pose proof (Hties K) as H1. pose proof (Hties (K - 1)) as H2. rewrite HK1 in H2.
  assert (K - 1 < k) as Hk1.
  { rewrite Zlt_Qlt, HK1. destruct H1, H2; lra. }
  assert (k < K + 1) as Hk2.
  { rewrite Zlt_Qlt, inject_Z_plus. change (inject_Z 1) with 1%Q.
    destruct H1, H2; lra. }
  lia.
Qed.

(** C4, as amended. The confidence score is 0 when execution failed or no
    final verdict was parsed. Otherwise the code computes, on binary
    floats, 0.5 plus the fraction of verified steps times 0.25 plus 0.25 for
    a true verdict, and rounds to 4 decimals: the score is the float nearest
    to a number [k / 10000] between 0.5 and 1 that is within 0.00005, up to
    floating-point error, of the exact value of the formula, and [k / 10000]
    is the formula's exact value rounded to 4 decimals unless that value is
    within floating-point error of a tie between two such numbers. With only
    verified steps and a true verdict the score is 1. *)
Theorem confidence_score_formula (exec_res : CodeExecutionResult)
    (steps : list StepVerification) (final_verdict : option pydict) :
  let confidence := _calculate_confidence exec_res steps final_verdict in
  (success exec_res = false \/ final_verdict = None -> confidence = 0%Q) /\
  (forall verdict b,
      success exec_res = true -> final_verdict = Some verdict ->
      verdict !! "final_answer_verified" = Some (JBool b) ->
      let exact := score_as_specified steps b in
      (exists k : Z,
          confidence = fl (Qmake k 10000) /\ 5000 <= k <= 10000 /\
          (exact - (1 # 20000) - (1 # 2 ^ 50) <= Qmake k 10000)%Q /\
          (Qmake k 10000 <= exact + (1 # 20000) + (1 # 2 ^ 50))%Q /\
          ((forall m : Z,
               (exact * 10000 + (1 # 2 ^ 37) < inject_Z m + (1 # 2))%Q \/
               (inject_Z m + (1 # 2) < exact * 10000 - (1 # 2 ^ 37))%Q) ->
           k = round_half_even (exact * 10000))) /\
      (exact - (1 # 20000) - (1 # 2 ^ 49) <= confidence)%Q /\
      (confidence <= exact + (1 # 20000) + (1 # 2 ^ 49))%Q /\
      (b = true -> Forall (fun s => verified s = true) steps ->
       (confidence == 1)%Q)).
Proof.
  cbn zeta. split.
  - unfold _calculate_confidence. intros [->| ->]; [done|].
    by destruct (success exec_res).
  - intros verdict b Hsucc -> Hkey.
    rewrite (confidence_of_parsed_run _ _ _ _ Hsucc Hkey).
    pose proof (fraction_verified_unit steps) as [Hf0 Hf1].
    set (f := fraction_verified steps) in *.
    assert (score_as_specified steps b
            == (1 # 2) + f * (1 # 4) + (if b then 1 # 4 else 0))%Q as Hexact.
    { unfold score_as_specified. fold f.
      rewrite Q.min_r by (destruct b; lra). rewrite Q.max_r by (destruct b; lra).
      reflexivity. }
    set (spec := score_as_specified steps b) in *.
    pose proof (float_score_bounds f b Hf0 Hf1) as Hbounds.
    destruct (float_score_error f b Hf0 Hf1) as [Elo Ehi].
    set (s := float_score f b) in *.
    set (exact := ((1 # 2) + f * (1 # 4) + (if b then 1 # 4 else 0))%Q) in *.
    assert ((1 # 2 <= s)%Q /\ (s <= 1)%Q) as [Hs0 Hs1] by (destruct b; lra).
    unfold py_round.
    change (inject_Z (10 ^ Z.of_nat 4)) with 10000%Q.
    change (Z.to_pos (10 ^ Z.of_nat 4)) with 10000%positive.
    destruct (round_half_even_near (s * 10000)) as [Klo Khi].
    assert (5000 <= round_half_even (s * 10000)) as Hk0.
    { apply round_half_even_ge. change (inject_Z 5000) with 5000%Q. lra. }
    assert (round_half_even (s * 10000) <= 10000) as Hk1.
    { apply round_half_even_le. change (inject_Z 10000) with 10000%Q. lra. }
    set (k := round_half_even (s * 10000)) in *.
    assert (Qmake k 10000 == inject_Z k * (1 # 10000))%Q as Hk
      by (unfold Qeq, Qmult, inject_Z; cbn; lia).
    assert ((4 # 2 ^ 53) == (1 # 2 ^ 51))%Q as Hu by (by vm_compute).
    assert ((1 # 2 ^ 50) == 2 * (1 # 2 ^ 51))%Q as Hu50 by (by vm_compute).
    assert ((1 # 2 ^ 49) == 4 * (1 # 2 ^ 51))%Q as Hu49 by (by vm_compute).
    assert ((1 # 2 ^ 53) == (1 # 4) * (1 # 2 ^ 51))%Q as Hu53 by (by vm_compute).
    assert ((1 # 2 ^ 37) == 16384 * (1 # 2 ^ 51))%Q as Hu37 by (by vm_compute).
    rewrite Hu in Elo, Ehi.
    assert (0 < 1 # 2 ^ 51)%Q as Hupos by done.
    set (u := (1 # 2 ^ 51)%Q) in *.
    assert ((0 <= Qmake k 10000)%Q /\ (Qmake k 10000 <= 1)%Q) as [Hq0 Hq1].
    { split; unfold Qle; cbn; lia. }
    destruct (fl_error (Qmake k 10000) Hq0 Hq1) as [Flo Fhi]. rewrite Hu53 in Flo, Fhi.
    set (c := fl (Qmake k 10000)) in *. set (q := Qmake k 10000) in *.
    split; [|split; [|split]].
    + exists k. fold q c. split; [done|]. split; [done|]. rewrite Hu50.
      split; [lra|]. split; [lra|].
      intros Hties. apply (round_half_even_stable _ _ (1 # 2 ^ 37)).
      * rewrite Hu37. lra.
      * rewrite Hu37. lra.
      * exact Hties.
    + rewrite Hu49. lra.
    + rewrite Hu49. lra.
    + intros -> Hall.
      assert (f == 1)%Q as Hone by (by apply fraction_all_verified).
      subst c q k s. rewrite (float_score_comp f 1 true Hone). by vm_compute.
Qed.

End ConfidenceFacts.
(** ** The orchestrator *)
Section OrchestratorFacts.

Import VerificationOrchestrator.

Variable rt : Runtime.
Variable verification_pipeline : VerificationPipeline.VerificationPipeline.

(** The pipeline does not call itself. *)
Lemma verify_summary_no_pipeline_run (evs : list Event) (res : result VerificationResult) :
  verify_summary rt evs res -> count is_pipeline_run evs = 0%nat.
Proof.
  intros (args & answer & _ & _ & [(v & -> & _)|(code & r & text & rest & -> & Hrest)]);
    [done|].
  destruct r as [r1|e|e]; [|by destruct Hrest as [-> _]..].
  destruct (contract_adhered rt r1); [by destruct Hrest as [-> _]|].
  destruct Hrest as (evs' & -> & Hsum).
  by destruct (repair_summary_counts rt _ _ Hsum) as (_ & _ & _ & ? & _).
Qed.

(** C8. With [max_reasoning_attempts] equal to 0, [verify_with_repair]
    runs the verification pipeline exactly once, on the artifact it was
    given, and returns what that run returned together with an empty repair
    history, whatever the status; an exception that leaves the run leaves
    [verify_with_repair]. *)
Theorem verify_with_repair_zero_attempts (reasoning : ReasoningOutput) (w : World) :
  let run := verify_with_repair rt verification_pipeline reasoning 0 w in
  (exists evs,
      trace run.2 = (trace w ++ evs)%list /\
      count is_pipeline_run evs = 1%nat /\
      head evs = Some (PipelineRun reasoning)) /\
  match (VerificationPipeline.verify rt verification_pipeline reasoning
           (log (PipelineRun reasoning) w)).1 with
  | Val v => run.1 = Val (v, [])
  | Exc e => run.1 = Exc e
  | BaseExc e => run.1 = BaseExc e
  end.
Proof.
  cbn zeta. unfold verify_with_repair.
  change (attempts_range 0) with [0]. cbn [repair_loop Z.ltb Z.compare].
  rewrite bind_run. unfold run_pipeline.
  destruct (verify_run rt verification_pipeline reasoning (log (PipelineRun reasoning) w))
    as (evs & res & w' & Hrun & Htrace & Hsum).
  rewrite Hrun. cbn [fst].
  pose proof (verify_summary_no_pipeline_run _ _ Hsum) as Hnone.
  assert (forall text, exists evs0,
             trace (log (Printed text) w') = (trace w ++ evs0)%list /\
             count is_pipeline_run evs0 = 1%nat /\
             head evs0 = Some (PipelineRun reasoning)) as Hprinted.
  { intros text. exists (PipelineRun reasoning :: evs ++ [Printed text])%list.
    split; [|split; [|done]].
    - cbn. rewrite Htrace. cbn. by rewrite <- !app_assoc.
    - unfold count in *. cbn. rewrite List.filter_app, length_app, Hnone. done. }
  assert (exists evs0,
             trace w' = (trace w ++ evs0)%list /\
             count is_pipeline_run evs0 = 1%nat /\
             head evs0 = Some (PipelineRun reasoning)) as Hplain.
  { exists (PipelineRun reasoning :: evs)%list. split; [|split; [|done]].
    - rewrite Htrace. cbn. by rewrite <- !app_assoc.
    - unfold count in *. cbn. by rewrite Hnone. }
  destruct res as [v|e|e]; [|done..].
  destruct (String.eqb (status v) "verified").
  { rewrite print_run. cbn. split; [apply Hprinted|done]. }
  destruct (negb (String.eqb (status v) "failed_reasoning")).
  { rewrite print_run. cbn. split; [apply Hprinted|done]. }
  unfold after_loop. rewrite print_run. cbn. split; [apply Hprinted|done].
Qed.

End OrchestratorFacts.
(** ** The theorems on concrete runs *)
Section Runs.

Import Scenario.

(** The scenarios of the specification. *)
Example scenario_A_is_verified :
  exists v w,
    VerificationPipeline.verify rt_A pipeline artifact world = (Val v, w) /\
    status v = "verified" /\ (confidence_score v == 1)%Q /\
    step_verifications v = [ok_step] /\ answer_match v = Some true.
Proof. do 2 eexists. split; [vm_compute; reflexivity|]. by repeat split. Qed.

Example scenario_B_is_failed_reasoning :
  exists v w,
    VerificationPipeline.verify rt_B pipeline artifact world = (Val v, w) /\
    status v = "failed_reasoning" /\ answer_match v = Some false /\
    step_verifications v = [] /\
    error_type <$> errors v = [ANSWER_MISMATCH].
Proof. do 2 eexists. split; [vm_compute; reflexivity|]. by repeat split. Qed.

Example scenario_C_is_repaired :
  exists v w,
    VerificationPipeline.verify rt_C pipeline artifact world = (Val v, w) /\
    status v = "verified" /\
    metadata v !! "repaired_from_codegen_fault" = Some (JBool true) /\
    count is_code_repair (trace w) = 1%nat /\
    count is_sandbox_run (trace w) = 2%nat.
Proof. do 2 eexists. split; [vm_compute; reflexivity|]. by repeat split. Qed.

Example scenario_D_is_failed_pipeline :
  exists v w,
    VerificationPipeline.verify rt_D pipeline artifact world = (Val v, w) /\
    status v = "failed_pipeline" /\ execution_result v = None /\
    count is_code_repair (trace w) = 1%nat /\
    count is_sandbox_run (trace w) = 2%nat.
Proof. do 2 eexists. split; [vm_compute; reflexivity|]. by repeat split. Qed.

(** The import of a module outside the allow-list. *)
Example import_of_os_is_refused :
  exists r, (run imports_os host).1 = Val r /\ success r = false /\
            exception_type r = Some "ImportError".
Proof. eexists. split; [vm_compute; reflexivity|]. by split. Qed.

(** One reasoning repair on scenario B: two pipeline runs, one entry in the
    history, and the status is still [failed_reasoning]. *)
Example scenario_B_with_one_reasoning_attempt :
  exists v history w,
    VerificationOrchestrator.verify_with_repair rt_B pipeline artifact 1 world
      = (Val (v, history), w) /\
    status v = "failed_reasoning" /\
    VerificationOrchestrator.attempt_number <$> history = [1] /\
    count is_pipeline_run (trace w) = 2%nat.
Proof. do 3 eexists. split; [vm_compute; reflexivity|]. by repeat split. Qed.

(** Scenario A goes through [verify] as C1 says: the status is
    [verified], with the parsed step and a true verdict. *)
Lemma verified_iff_verdict_and_steps_witness :
  exists v w3,
    VerificationPipeline.verify rt_A pipeline artifact world = (Val v, w3) /\
    step_verifications v = [ok_step] /\
    (status v = "verified" <->
       verdict_dict !! "final_answer_verified" = Some (JBool true) /\
       Forall (fun s => verified s = true) [ok_step]) /\
    (status v = "failed_reasoning" <->
       verdict_dict !! "final_answer_verified" = Some (JBool false) \/
       Exists (fun s => verified s = false) [ok_step]).
Proof.
  apply (verified_iff_verdict_and_steps rt_A pipeline artifact world generated_A
           executed_A (prints scenario_A) (executed scenario_A) [ok_step] verdict_dict);
    vm_compute; reflexivity.
Defined.

(** One verified step of two and a false verdict: the score is the float of
    0.625, the exact value of the formula. *)
Lemma confidence_score_formula_witness :
  VerificationPipeline._calculate_confidence (executed scenario_B) Cases.one_of_two
    (Some false_verdict_dict)
  = VerificationPipeline.fl (Qmake 6250 10000) /\
  (VerificationPipeline.score_as_specified Cases.one_of_two false == 5 # 8)%Q.
Proof.
  destruct (confidence_score_formula (executed scenario_B) Cases.one_of_two
              (Some false_verdict_dict)) as [_ Hscore].
  destruct (Hscore false_verdict_dict false) as ((k & Hk & _ & _ & _ & Hexact) & _);
    [reflexivity..|].
  assert (VerificationPipeline.score_as_specified Cases.one_of_two false == 5 # 8)%Q
    as Hvalue by (by vm_compute).
  split; [|exact Hvalue]. rewrite Hk, Hexact; [by vm_compute|].
  intros m. rewrite Hvalue.
  destruct (Z_le_gt_dec m 6249) as [Hm|Hm].
  - right. rewrite Zle_Qle in Hm. change (inject_Z 6249) with 6249%Q in Hm.
    assert ((1 # 2 ^ 37) <= 1 # 4)%Q by (by vm_compute). lra.
  - left. assert (6250 <= m) as Hm' by lia. rewrite Zle_Qle in Hm'.
    change (inject_Z 6250) with 6250%Q in Hm'.
    assert ((1 # 2 ^ 37) <= 1 # 4)%Q by (by vm_compute). lra.
Defined.


(** A mistyped step object is skipped, the array [[1, 2]] too, and of two
    verdict lines the second is kept. *)
Lemma noise_objects_skipped_last_verdict_wins_witness :
  VerificationOutputParser.parse_line loads mistyped_step_line ([], None)
    = Ok ([], None) /\
  VerificationOutputParser.parse_line loads "[1, 2]" ([], None) = Ok ([], None) /\
  forall steps verdict,
    VerificationOutputParser.parse_lines loads
      ([verdict_line] ++ false_verdict_line :: []) ([], None) = (steps, verdict, None) ->
    verdict = Some false_verdict_dict.
Proof.
  destruct (noise_objects_skipped_last_verdict_wins loads) as (Hskip & Hother & _ & Hlast).
  split; [|split].
  - apply (Hskip mistyped_step_line
             {["step" := JStr "invalid"; "verified" := JBool true]} ([], None));
      vm_compute; (reflexivity || discriminate).
  - apply (Hother "[1, 2]" (JArr [JInt 1; JInt 2]) ([], None));
      [vm_compute; discriminate|vm_compute; reflexivity|left; by eexists|..].
    + intros [Hstep _]. cbn in Hstep.
      inversion Hstep as [|? ? ? Hin1]. inversion Hin1 as [|? ? ? Hin2]. inversion Hin2.
    + intros Hfinal. cbn in Hfinal.
      inversion Hfinal as [|? ? ? Hin1]. inversion Hin1 as [|? ? ? Hin2]. inversion Hin2.
  - intros steps verdict.
    apply (Hlast [verdict_line] false_verdict_line [] false_verdict_dict ([], None));
      try (vm_compute; (reflexivity || discriminate)).
    intros l m' Hin. by apply elem_of_nil in Hin.
Defined.


(** A step line followed by [not-json]: the step is returned with the
    error. *)
Lemma parse_error_keeps_partial_results_witness :
  exists pre bad post,
    VerificationOutputParser.stdout_lines (executed [step_line; "not-json"])
      = (pre ++ bad :: post)%list /\
    VerificationOutputParser.parse_line loads bad ([ok_step], None)
      = Raise JSONDecodeError /\
    VerificationOutputParser.parse_lines loads pre ([], None)
      = ([ok_step], None, None) /\
    forall line data sv,
      line ∈ pre -> PyStr.strip line <> "" ->
      loads (PyStr.strip line) = Ok data ->
      VerificationOutputParser.contract_step data = Some sv -> sv ∈ [ok_step].
Proof.
  apply (parse_error_keeps_partial_results loads (executed [step_line; "not-json"])
           [ok_step] None JSONDecodeError).
  vm_compute. reflexivity.
Defined.





(** An exception of the script that cannot be rendered: the
    [ZeroDivisionError] of its [__str__] leaves [execute], and [verify] with
    it; raised by the repaired script, it is caught and the status is
    [failed_pipeline]. *)
Example unprintable_exception_leaves_execute :
  (SafeExecutor.execute syntax_check Cases.exec_unprintable format_traceback
     default_executor Cases.raises_unprintable host).1
    = Exc (mkExc "ZeroDivisionError" "division by zero") /\
  (VerificationPipeline.verify Cases.rt_unprintable pipeline artifact world).1
    = Exc (mkExc "ZeroDivisionError" "division by zero") /\
  exists v,
    (VerificationPipeline.verify Cases.rt_repair_unprintable pipeline artifact world).1
      = Val v /\ status v = "failed_pipeline".
Proof.
  split; [vm_compute; reflexivity|]. split; [vm_compute; reflexivity|].
  eexists. split; [vm_compute; reflexivity|]. reflexivity.
Qed.

(** Settings that the C library refuses: the script is not run and the
    [OverflowError] comes back as a result. *)
Example refused_settings_come_back_as_results :
  (exists r,
      (SafeExecutor.execute syntax_check (exec_table [scenario_A]) format_traceback
         Cases.long_timeout (prints scenario_A) host).1 = Val r /\
      success r = false /\ exception_type r = Some "OverflowError" /\ stdout r = "") /\
  (exists r,
      (SafeExecutor.execute syntax_check (exec_table [scenario_A]) format_traceback
         Cases.large_memory (prints scenario_A) host).1 = Val r /\
      success r = false /\ exception_type r = Some "OverflowError" /\ stdout r = "").
Proof.
  split; eexists; (split; [vm_compute; reflexivity|]); by repeat split.
Qed.

(** C4 fails on 7 verified steps of 40 with a true verdict: the formula gives
    0.79375, which rounds to 0.7938, and the code returns the float of
    0.7937, because the sum it rounds is a float just below 0.79375. *)
Lemma float_sum_rounds_the_other_way :
  let confidence :=
    VerificationPipeline._calculate_confidence (executed scenario_A) Cases.seven_of_forty
      (Some verdict_dict) in
  (VerificationPipeline.score_as_specified Cases.seven_of_forty true == 79375 # 100000)%Q /\
  VerificationPipeline.round_half_even
    (VerificationPipeline.score_as_specified Cases.seven_of_forty true * 10000) = 7938 /\
  confidence = VerificationPipeline.fl (Qmake 7937 10000) /\
  (confidence < 79371 # 100000)%Q /\
  ~ (confidence == VerificationPipeline.fl (Qmake 7938 10000))%Q.
Proof.
  cbv zeta. split; [by vm_compute|]. split; [by vm_compute|].
  split; [by vm_compute|]. split; by vm_compute.
Qed.

(** C6 fails on the line [5]: it is JSON, it is none of the contract
    shapes, and it ends parsing with an error; and on a later object that
    has a boolean [final_answer_verified] next to [step] and [verified]: it
    is taken for a step and the earlier verdict stays. *)
Lemma number_line_is_a_parse_error :
  loads "5" = Ok (JInt 5) /\
  VerificationOutputParser.contract_step (JInt 5) = None /\
  VerificationOutputParser.contract_verdict (JInt 5) = None /\
  VerificationOutputParser.parse loads (executed ["5"])
    = ([], None, Some (mkExc "TypeError" "argument of type 'int' is not iterable")) /\
  VerificationOutputParser.contract_verdict (JObj step_with_verdict_dict) = Some false /\
  (VerificationOutputParser.parse loads
     (executed [verdict_line; step_with_verdict_line])).1.2 = Some verdict_dict.
Proof. repeat split; vm_compute; reflexivity. Qed.



End Runs.
(** * Properties beyond the claims *)

(** ** Strings *)
Section MoreStringFacts.

Lemma append_nil_r (s : string) : s +:+ "" = s.
Proof.
  induction s as [|c s IH]; [done|].
  change (String c (s +:+ "") = String c s). by rewrite IH.
Qed.

Lemma append_assoc (s1 s2 s3 : string) : (s1 +:+ s2) +:+ s3 = s1 +:+ (s2 +:+ s3).
Proof.
  induction s1 as [|c s1 IH]; [done|].
  change (String c ((s1 +:+ s2) +:+ s3) = String c (s1 +:+ (s2 +:+ s3))). by rewrite IH.
Qed.

Lemma join_head (sep p : string) (rest : list string) :
  exists tail, PyStr.join sep (p :: rest) = p +:+ tail.
Proof.
  destruct rest as [|q rest]; [exists ""; by rewrite append_nil_r|].
  by exists (sep +:+ PyStr.join sep (q :: rest)).
Qed.

End MoreStringFacts.
(** ** parser.py *)
Section MoreParserFacts.

Import VerificationOutputParser.

Variable json_loads : string -> outcome json.

(** X1. Whatever [parse] returns as verdict, with or without a parse error,
    is an object whose [final_answer_verified] is a boolean. *)
Theorem parse_verdict_has_boolean_flag (r : CodeExecutionResult) steps verdict err :
  parse json_loads r = (steps, Some verdict, err) ->
  exists b, verdict !! "final_answer_verified" = Some (JBool b).
Proof.
  intros Hparse. pose proof (parse_verdict json_loads r _ _ _ Hparse verdict eq_refl) as Hok.
  cbn in Hok. destruct (verdict !! "final_answer_verified") as [[]|]; try by destruct Hok.
  eauto.
Qed.

Lemma parse_line_blank (line : string) (st : parse_state) :
  blank line = true -> parse_line json_loads line st = Ok st.
Proof. unfold blank, parse_line. by intros ->. Qed.

(** X2. Lines that are blank after [strip] play no part: dropping them from
    the output lines changes nothing in what the loop returns. *)
Theorem parse_ignores_blank_lines (lines : list string) (st : parse_state) :
  parse_lines json_loads (List.filter (fun l => negb (blank l)) lines) st =
  parse_lines json_loads lines st.
Proof.
  revert st. induction lines as [|line lines IH]; intros st; [done|].
  cbn [List.filter]. destruct (blank line) eqn:Hblank; cbn [negb parse_lines].
  - rewrite (parse_line_blank _ _ Hblank). apply IH.
  - destruct (parse_line json_loads line st); [apply IH|done].
Qed.

Lemma parse_line_appends (line : string) (st st' : parse_state) :
  parse_line json_loads line st = Ok st' ->
  st'.1 = (st.1 ++ option_list (appended_step json_loads line))%list.
Proof.
  unfold parse_line, appended_step.
  destruct (String.eqb (PyStr.strip line) "").
  { intros [= <-]. cbn. by rewrite app_nil_r. }
  destruct (json_loads (PyStr.strip line)) as [data|]; [|done].
  change (on_record data st = Ok st' ->
          st'.1 = (st.1 ++ option_list
                     match data with
                     | JObj m =>
                         match m !! "step", m !! "verified" with
                         | Some step, Some ver =>
                             if isinstance_int step && isinstance_bool ver then
                               match new_StepVerification step
                                       (default (JStr "") (m !! "description")) ver with
                               | Ok sv => Some sv
                               | Raise _ => None
                               end
                             else None
                         | _, _ => None
                         end
                     | _ => None
                     end)%list).
  destruct data as [| | | | | |m];
    try (intros H; apply on_record_other in H as ->; [cbn; by rewrite app_nil_r|congruence]).
  rewrite on_record_object.
  destruct (m !! "step") as [step|], (m !! "verified") as [ver|];
    try (destruct (m !! "final_answer_verified") as [[]|]; intros [= <-]; cbn;
         by rewrite app_nil_r).
  destruct (isinstance_int step && isinstance_bool ver).
  - destruct (new_StepVerification _ _ _); [|done]. by intros [= <-].
  - intros [= <-]. cbn. by rewrite app_nil_r.
Qed.

(** X3. When parsing ends without error, the steps returned are exactly the
    steps of the step lines, in the order of the output: nothing is dropped,
    reordered or added. *)
Theorem parse_steps_in_output_order (lines : list string) (st : parse_state) steps verdict :
  parse_lines json_loads lines st = (steps, verdict, None) ->
  steps = (st.1 ++ omap (appended_step json_loads) lines)%list.
Proof.
  revert st. induction lines as [|line lines IH]; intros st; cbn [parse_lines].
  - intros [= <- _]. cbn. by rewrite app_nil_r.
  - destruct (parse_line json_loads line st) as [st'|] eqn:Hline; [|done].
    intros Hrest. rewrite (IH _ Hrest), (parse_line_appends _ _ _ Hline).
    rewrite <- app_assoc. f_equal. cbn. by destruct (appended_step json_loads line).
Qed.

(** X4. A step object without [description] is recorded with the empty
    description, and a boolean [step] counts as the integer 1 or 0. *)
Theorem step_defaults (m : pydict) (st : parse_state) (b : bool) :
  m !! "verified" = Some (JBool b) -> m !! "description" = None ->
  (forall n, m !! "step" = Some (JInt n) ->
     on_record (JObj m) st = Ok ((st.1 ++ [mkStepVerification n "" b])%list, st.2)) /\
  (forall t, m !! "step" = Some (JBool t) ->
     on_record (JObj m) st =
       Ok ((st.1 ++ [mkStepVerification (if t then 1 else 0) "" b])%list, st.2)).
Proof.
  intros Hver Hdesc.
  split; intros x Hstep; rewrite on_record_object, Hstep, Hver, Hdesc; reflexivity.
Qed.

(** X5. A line that has an integer [step] and a boolean [verified] but a
    [description] that is not a string ends parsing with a
    [ValidationError]: the steps before it are returned with the error. *)
Theorem non_string_description_is_parse_error (pre post : list string) (line : string)
    (m : pydict) (d : json) (st : parse_state) steps verdict :
  PyStr.strip line <> "" -> json_loads (PyStr.strip line) = Ok (JObj m) ->
  taken_for_step m = true ->
  m !! "description" = Some d -> (forall s, d <> JStr s) ->
  parse_lines json_loads pre st = (steps, verdict, None) ->
  exists e,
    parse_lines json_loads (pre ++ line :: post) st = (steps, verdict, Some e) /\
    exc_type e = "ValidationError".
Proof.
  intros Hne Hload Htaken Hdesc Hnot Hpre.
  rewrite parse_lines_app, Hpre. cbn [parse_lines].
  rewrite (parse_line_loaded json_loads _ _ _ Hne Hload), on_record_object.
  revert Htaken. unfold taken_for_step.
  destruct (m !! "step") as [step|], (m !! "verified") as [ver|]; try done.
  intros ->. rewrite Hdesc. cbn [default].
  destruct step, d, ver; try done; try (eexists; split; reflexivity).
  all: by destruct (Hnot s).
Qed.

End MoreParserFacts.
(** ** The confidence score *)
Section MoreConfidenceFacts.

Import VerificationPipeline.

(** [round(x, 4)] at the three scores that are quarters. *)
Lemma py_round_quarters :
  (py_round (1 # 2) 4 == 1 # 2)%Q /\ (py_round (3 # 4) 4 == 3 # 4)%Q /\
  (py_round 1 4 == 1)%Q.
Proof. repeat split; by vm_compute. Qed.

Lemma confidence_at_least_half (exec_res : CodeExecutionResult)
    (steps : list StepVerification) (verdict : pydict) (b : bool) :
  success exec_res = true -> verdict !! "final_answer_verified" = Some (JBool b) ->
  (1 # 2 <= _calculate_confidence exec_res steps (Some verdict))%Q.
Proof.
  intros Hsucc Hkey. rewrite (confidence_of_parsed_run _ _ _ _ Hsucc Hkey).
  destruct (fraction_verified_unit steps) as [Hf0 Hf1].
  pose proof (float_score_bounds (fraction_verified steps) b Hf0 Hf1) as Hb.
  destruct py_round_quarters as (Hhalf & _ & _).
  rewrite <- Hhalf. apply py_round_mono; [done|]. destruct b; lra.
Qed.

(** X6. After a successful run with a verdict, the confidence score tells
    the verdict: it lies between 0.75 and 1 when the final answer was
    verified and between 0.5 and 0.75 when it was not, whatever the steps. *)
Theorem confidence_tells_verdict (exec_res : CodeExecutionResult)
    (steps : list StepVerification) (verdict : pydict) (b : bool) :
  success exec_res = true -> verdict !! "final_answer_verified" = Some (JBool b) ->
  let confidence := _calculate_confidence exec_res steps (Some verdict) in
  if b then (3 # 4 <= confidence)%Q /\ (confidence <= 1)%Q
  else (1 # 2 <= confidence)%Q /\ (confidence <= 3 # 4)%Q.
Proof.
  intros Hsucc Hkey. cbv zeta. rewrite (confidence_of_parsed_run _ _ _ _ Hsucc Hkey).
  destruct (fraction_verified_unit steps) as [Hf0 Hf1].
  pose proof (float_score_bounds (fraction_verified steps) b Hf0 Hf1) as Hb.
  destruct py_round_quarters as (Hhalf & Hthree & Hone).
  set (s := float_score (fraction_verified steps) b) in *.
  destruct b; destruct Hb as [Hlo Hhi].
  - split.
    + rewrite <- Hthree. apply py_round_mono; [done|exact Hlo].
    + rewrite <- Hone. apply py_round_mono; [lra|exact Hhi].
  - split.
    + rewrite <- Hhalf. apply py_round_mono; [done|exact Hlo].
    + rewrite <- Hthree. apply py_round_mono; [lra|exact Hhi].
Qed.

(** X7. Rounding hides rare failures: when the final answer is verified
    and fewer than one step in 5000 failed, the confidence score is 1 although
    some step may have failed. *)
Theorem rounding_hides_rare_failed_steps (exec_res : CodeExecutionResult)
    (steps : list StepVerification) (verdict : pydict) :
  success exec_res = true -> verdict !! "final_answer_verified" = Some (JBool true) ->
  (5000 * length (filter (fun s => verified s = false) steps) < length steps)%nat ->
  (_calculate_confidence exec_res steps (Some verdict) == 1)%Q.
Proof.
  intros Hsucc Hkey Hrare. rewrite (confidence_of_parsed_run _ _ _ _ Hsucc Hkey).
  destruct (fraction_verified_unit steps) as [Hf0 Hf1].
  assert (4999 # 5000 < fraction_verified steps)%Q as Hfrac.
  { destruct steps as [|s steps]; [done|]. unfold fraction_verified.
    pose proof (filter_verified_length (s :: steps)) as Hlen.
    set (v := length (filter (fun s => verified s = true) (s :: steps))) in *.
    set (u := length (filter (fun s => verified s = false) (s :: steps))) in *.
    set (n := length (s :: steps)) in *.
    assert (0 < inject_Z (Z.of_nat n))%Q as Hpos.
    { change 0%Q with (inject_Z 0). rewrite <- Zlt_Qlt. lia. }
    apply Qlt_shift_div_l; [done|].
    assert (4999 * Z.of_nat n < 5000 * Z.of_nat v) as Hz by lia.
    rewrite Zlt_Qlt in Hz. rewrite !inject_Z_mult in Hz.
    change (inject_Z 4999) with 4999%Q in Hz. change (inject_Z 5000) with 5000%Q in Hz.
    lra. }
  set (f := fraction_verified steps) in *.
  pose proof (float_score_bounds f true Hf0 Hf1) as [Hlo Hhi].
  assert (float_score (4999 # 5000) true <= float_score f true)%Q as Hmono
    by (apply float_score_mono; [done|lra|done]).
  assert (3 # 4 <= float_score (4999 # 5000) true)%Q as Hpos
    by (by apply (float_score_bounds (4999 # 5000) true)).
  assert (py_round (float_score (4999 # 5000) true) 4 == 1)%Q as Hround
    by (by vm_compute).
  destruct py_round_quarters as (_ & _ & Hone).
  apply Qle_antisym.
  - rewrite <- Hone. apply py_round_mono; [lra|exact Hhi].
  - rewrite <- Hround. apply py_round_mono; [lra|exact Hmono].
Qed.

End MoreConfidenceFacts.
(** ** Rules for [hoare] *)
Section HoareRules.

Context {A B : Type} (P : Event -> Prop).

Lemma hoare_ret (Q : result A -> Prop) (a : A) : Q (Val a) -> hoare P Q (mret a).
Proof. intros HQ w. exists []. by rewrite app_nil_r. Qed.

Lemma hoare_raise (Q : result A -> Prop) (e : PyException) :
  Q (Exc e) -> hoare P Q (raise e).
Proof. intros HQ w. exists []. by rewrite app_nil_r. Qed.

Lemma hoare_bind (Q : result A -> Prop) (R : result B -> Prop) (m : M A) (k : A -> M B) :
  hoare P Q m ->
  (forall a, Q (Val a) -> hoare P R (k a)) ->
  (forall e, Q (Exc e) -> R (Exc e)) ->
  (forall e, Q (BaseExc e) -> R (BaseExc e)) ->
  hoare P R (m ≫= k).
Proof.
  intros Hm Hk Hexc Hbase w. rewrite bind_run.
  destruct (Hm w) as (evs & Htrace & Hall & HQ).
  destruct (m w) as [[a|e|e] w1]; cbn [fst snd] in *.
  - destruct (Hk a HQ w1) as (evs' & Htrace' & Hall' & HR).
    exists (evs ++ evs')%list. rewrite Htrace', Htrace, <- app_assoc.
    split; [done|]. split; [by apply Forall_app|done].
  - exists evs. eauto.
  - exists evs. eauto.
Qed.

Lemma hoare_try_except (Q R : result A -> Prop) (m : M A) (handler : PyException -> M A) :
  hoare P Q m ->
  (forall e, Q (Exc e) -> hoare P R (handler e)) ->
  (forall a, Q (Val a) -> R (Val a)) ->
  (forall e, Q (BaseExc e) -> R (BaseExc e)) ->
  hoare P R (try_except m handler).
Proof.
  intros Hm Hh Hval Hbase w. unfold try_except.
  destruct (Hm w) as (evs & Htrace & Hall & HQ).
  destruct (m w) as [[a|e|e] w1]; cbn [fst snd] in *.
  - exists evs. eauto.
  - destruct (Hh e HQ w1) as (evs' & Htrace' & Hall' & HR).
    exists (evs ++ evs')%list. rewrite Htrace', Htrace, <- app_assoc.
    split; [done|]. split; [by apply Forall_app|done].
  - exists evs. eauto.
Qed.

Lemma hoare_print (Q : result unit -> Prop) (text : string) :
  P (Printed text) -> Q (Val tt) -> hoare P Q (print text).
Proof. intros HP HQ w. exists [Printed text]. split; [done|]. split; [by constructor|done]. Qed.

Lemma hoare_consequence (Q Q' : result A -> Prop) (m : M A) :
  hoare P Q m -> (forall res, Q res -> Q' res) -> hoare P Q' m.
Proof.
  intros Hm Himpl w. destruct (Hm w) as (evs & ? & ? & ?). exists evs. eauto.
Qed.

End HoareRules.

(** ** verification.py and codegen.py *)
Section MorePipelineFacts.

Import VerificationPipeline.

Variable rt : Runtime.
Variable self : VerificationPipeline.

Lemma hoare_call_model (args : CallArgs) :
  task args = "verification" -> prompt_ref args = CodeGeneration.baseline ->
  hoare pipeline_event (no_base (fun _ => True)) (call_model rt args).
Proof.
  intros Htask Hprompt w.
  exists [ModelCall args (model_manager_call rt args (trace w))].
  unfold call_model. destruct (model_manager_call rt args (trace w)); cbn;
    (split; [done|]; split; [by repeat constructor|done]).
Qed.

Lemma hoare_run_executor (code : string) :
  code <> "" ->
  hoare pipeline_event (fun _ => True) (run_executor rt (executor self) code).
Proof.
  intros Hcode w. unfold run_executor.
  destruct (SafeExecutor.execute _ _ _ _ _ _) as [r p]. cbn [fst snd] in *.
  exists [SandboxRun code r]. cbn. split; [done|]. split; [|done].
  by apply Forall_singleton.
Qed.

Lemma hoare_generate (reasoning : ReasoningOutput) :
  hoare pipeline_event (no_base (fun code => code <> ""))
    (CodeGeneration.generate rt reasoning).
Proof.
  unfold CodeGeneration.generate.
  eapply hoare_bind with (Q := no_base (fun _ => True)).
  - eapply hoare_try_except with (Q := no_base (fun _ => True)).
    + by apply hoare_call_model.
    + intros e _. by apply hoare_raise.
    + done.
    + done.
  - intros response _.
    destruct (SymPyCodeGenerator.extract_code response) as [code|];
      [destruct (String.eqb_spec code "")|]; try (by apply hoare_raise).
    by apply hoare_ret.
  - done.
  - done.
Qed.

Lemma hoare_get_repaired_code (reasoning : ReasoningOutput) (prompt : string) :
  hoare pipeline_event (no_base (fun code => code <> ""))
    (_get_repaired_code rt self reasoning prompt).
Proof.
  unfold _get_repaired_code.
  eapply hoare_bind with (Q := no_base (fun _ => True)).
  - destruct (load_system_template rt CodeGeneration.baseline);
      [by apply hoare_ret|by apply hoare_raise].
  - intros template _.
    eapply hoare_bind with (Q := no_base (fun _ => True)).
    + by apply hoare_call_model.
    + intros response _.
      destruct (SymPyCodeGenerator.extract_code response) as [code|];
        [destruct (String.eqb_spec code "")|]; try (by apply hoare_raise).
      by apply hoare_ret.
    + done.
    + done.
  - done.
  - done.
Qed.

Lemma failure_shape (reasoning : ReasoningOutput) msg code errs :
  verify_post rt reasoning (Val (_create_failure_result reasoning msg code errs)).
Proof. left. eauto. Qed.

Lemma hoare_handle_codegen_fault (original_code : string) (exec_result : CodeExecutionResult)
    (reasoning : ReasoningOutput) (extra_error : option string) :
  hoare pipeline_event (verify_post rt reasoning)
    (_handle_codegen_fault rt self original_code exec_result reasoning extra_error).
Proof.
  unfold _handle_codegen_fault.
  eapply hoare_try_except
    with (Q := fun res => match res with Exc _ => True | _ => verify_post rt reasoning res end).
  - eapply hoare_bind; [apply hoare_get_repaired_code| |done|done].
    intros repaired Hne. cbn in Hne.
    eapply hoare_bind; [by apply hoare_run_executor| |done|done].
    intros r _.
    destruct (success r) eqn:Hsucc; cbn [negb]; [|by apply hoare_raise].
    destruct (VerificationOutputParser.parse (json_loads rt) r)
      as [[steps verdict] err] eqn:Hparse.
    destruct err as [err|].
    { rewrite bool_decide_eq_true_2 by eauto. by apply hoare_raise. }
    rewrite bool_decide_eq_false_2 by (by intros []). cbn [orb].
    destruct (not_verdict verdict) eqn:Hnv; [by apply hoare_raise|].
    apply hoare_ret. right.
    destruct verdict as [verdict|]; [|done].
    exists repaired, r, steps, verdict, true. done.
  - intros e _. apply hoare_ret, failure_shape.
  - by intros v.
  - by intros e.
Qed.

Lemma hoare_execute_and_analyze (reasoning : ReasoningOutput) (code : string) :
  code <> "" ->
  hoare pipeline_event (verify_post rt reasoning)
    (execute_and_analyze rt self reasoning code).
Proof.
  intros Hcode. unfold execute_and_analyze.
  eapply hoare_bind; [by apply hoare_run_executor| |done|done].
  intros r _.
  assert (forall text extra,
             hoare pipeline_event (verify_post rt reasoning)
               (_ ← print text;
                _handle_codegen_fault rt self code r reasoning extra)) as Hfault.
  { intros text extra.
    eapply hoare_bind with (Q := no_exc (fun _ => True));
      [by apply hoare_print| |done|done].
    intros _ _. apply hoare_handle_codegen_fault. }
  destruct (success r) eqn:Hsucc; cbn [negb]; [|apply Hfault].
  destruct (VerificationOutputParser.parse (json_loads rt) r)
    as [[steps verdict] err] eqn:Hparse.
  destruct err as [err|]; [apply Hfault|].
  destruct (not_verdict verdict) eqn:Hnv; [apply Hfault|].
  destruct verdict as [verdict|]; [|done]. cbv zeta.
  change (default ∅ (Some verdict)) with verdict.
  destruct (all_steps_ok steps && answer_ok verdict) eqn:Hok.
  - eapply hoare_bind with (Q := no_exc (fun _ => True));
      [by apply hoare_print| |done|done].
    intros _ _. apply hoare_ret. right.
    exists code, r, steps, verdict, false. unfold status_of. by rewrite Hok.
  - eapply hoare_bind with (Q := no_exc (fun _ => True));
      [by apply hoare_print| |done|done].
    intros _ _. apply hoare_ret. right.
    exists code, r, steps, verdict, false. unfold status_of. by rewrite Hok.
Qed.

Lemma hoare_verify (reasoning : ReasoningOutput) :
  hoare pipeline_event (verify_post rt reasoning) (verify rt self reasoning).
Proof.
  unfold verify.
  eapply hoare_bind
    with (Q := no_exc (fun generated =>
                         match generated with
                         | inl code => code <> ""
                         | inr failure => verify_post rt reasoning (Val failure)
                         end)).
  - eapply hoare_try_except
      with (Q := fun res => match res with
                            | Val (inl code) => code <> ""
                            | Val (inr _) => False
                            | Exc _ => True
                            | BaseExc _ => False
                            end).
    + eapply hoare_bind; [apply hoare_generate| |done|done].
      intros code Hne. by apply hoare_ret.
    + intros e _. apply hoare_ret. cbn. apply failure_shape.
    + by intros [code|failure].
    + done.
  - intros [code|failure] Hgen; cbn in Hgen.
    + by apply hoare_execute_and_analyze.
    + by apply hoare_ret.
  - done.
  - done.
Qed.

Lemma verify_result_shape (reasoning : ReasoningOutput) (w : World) (v : VerificationResult) :
  (verify rt self reasoning w).1 = Val v -> result_shape rt reasoning v.
Proof.
  intros Hv. destruct (hoare_verify reasoning w) as (_ & _ & _ & Hpost).
  by rewrite Hv in Hpost.
Qed.


(** X9. During [verify], every call of the model is for the task
    [verification] with the code-generation prompt, every script handed to
    the sandbox is non-empty, and [verify] does not call itself. *)
Theorem verify_events_are_pipeline_events (reasoning : ReasoningOutput) (w : World) :
  exists evs,
    trace (verify rt self reasoning w).2 = (trace w ++ evs)%list /\
    forall ev, ev ∈ evs ->
      match ev with
      | ModelCall args _ =>
          task args = "verification" /\ prompt_ref args = "codegen/baseline_codegen@v3"
      | SandboxRun code _ => code <> ""
      | PipelineRun _ => False
      | Printed _ => True
      end.
Proof.
  destruct (hoare_verify reasoning w) as (evs & Htrace & Hall & _).
  exists evs. split; [done|]. intros ev Hin.
  rewrite Forall_forall in Hall. specialize (Hall ev Hin).
  by destruct ev.
Qed.

Lemma status_of_cases steps verdict :
  (status_of steps verdict = "verified" /\
   all_steps_ok steps = true /\ answer_ok verdict = true) \/
  (status_of steps verdict = "failed_reasoning" /\
   (all_steps_ok steps = false \/ answer_ok verdict = false)).
Proof.
  unfold status_of. destruct (all_steps_ok steps), (answer_ok verdict); cbn; eauto.
Qed.

(** X10. The status of a result of [verify] is [verified], [failed_reasoning]
    or [failed_pipeline]; the status [failed_codegen] named in
    verification_types.py is never produced. *)
Theorem verify_status_is_one_of_three (reasoning : ReasoningOutput) (w : World)
    (v : VerificationResult) :
  (verify rt self reasoning w).1 = Val v ->
  (status v = "verified" \/ status v = "failed_reasoning" \/ status v = "failed_pipeline")
  /\ status v <> "failed_codegen".
Proof.
  intros [(msg & code & errs & ->)
         |(code & r & steps & verdict & rep & -> & _)]%verify_result_shape.
  - cbn. split; [auto|done].
  - cbn [status _create_final_result].
    destruct (status_of_cases steps verdict) as [(-> & _)|(-> & _)]; split; auto; done.
Qed.

(** X11. A result of [verify] has status [failed_pipeline] exactly when it
    carries no execution result; it then has confidence 0, no steps, no
    answer match and at least one error. *)
Theorem failed_pipeline_iff_no_execution (reasoning : ReasoningOutput) (w : World)
    (v : VerificationResult) :
  (verify rt self reasoning w).1 = Val v ->
  (status v = "failed_pipeline" <-> execution_result v = None) /\
  (status v = "failed_pipeline" ->
   confidence_score v = 0%Q /\ step_verifications v = [] /\
   answer_match v = None /\ errors v <> []).
Proof.
  intros [(msg & code & errs & ->)
         |(code & r & steps & verdict & rep & -> & _)]%verify_result_shape.
  - cbn. split; [done|]. intros _. repeat split. by destruct errs.
  - cbn [status execution_result _create_final_result].
    destruct (status_of_cases steps verdict) as [(-> & _)|(-> & _)]; split; done.
Qed.

Lemma parsed_verdict_flag (r : CodeExecutionResult) steps verdict :
  VerificationOutputParser.parse (json_loads rt) r = (steps, Some verdict, None) ->
  exists b, verdict !! "final_answer_verified" = Some (JBool b) /\
            answer_ok verdict = b /\ answer_match_of verdict = Some b.
Proof.
  intros Hparse.
  pose proof (parse_verdict (json_loads rt) r _ _ _ Hparse verdict eq_refl) as Hok.
  destruct (kept_verdict_flag verdict) as (b & Hkey & _ & Hanswer).
  { cbn in Hok |- *. by destruct (verdict !! "final_answer_verified") as [[]|]. }
  exists b. unfold answer_match_of. by rewrite Hkey.
Qed.

(** X12. A result of [verify] has status [verified] exactly when its
    [answer_match] is true and each of its steps is verified; it then has no
    errors, confidence 1, and the result of a successful execution of
    non-empty code. *)
Theorem verified_result_is_clean (reasoning : ReasoningOutput) (w : World)
    (v : VerificationResult) :
  (verify rt self reasoning w).1 = Val v ->
  (status v = "verified" <->
   answer_match v = Some true /\
   Forall (fun s => verified s = true) (step_verifications v)) /\
  (status v = "verified" ->
   errors v = [] /\ (confidence_score v == 1)%Q /\ generated_code v <> "" /\
   exists r, execution_result v = Some r /\ success r = true).
Proof.
  intros [(msg & code & errs & ->)
         |(code & r & steps & verdict & rep & -> & Hcode & Hsucc & Hparse)]%verify_result_shape.
  - cbn. split; [|done]. split; [done|]. by intros [? _].
  - destruct (parsed_verdict_flag _ _ _ Hparse) as (b & Hkey & Hanswer & Hmatch).
    cbn [status answer_match step_verifications errors confidence_score generated_code
         execution_result _create_final_result].
    rewrite Hmatch.
    destruct (status_of_cases steps verdict) as [(-> & Hall & Hok)|(-> & Hbad)].
    + assert (b = true) as -> by congruence. apply all_steps_ok_Forall in Hall.
      split; [done|]. intros _. cbn [String.eqb Ascii.eqb Bool.eqb]. repeat split; try done.
      * rewrite (confidence_of_parsed_run _ _ _ true Hsucc Hkey).
        rewrite (float_score_comp _ 1 true (fraction_all_verified _ Hall)).
        by vm_compute.
      * eauto.
    + split; [|done]. split; [done|]. intros [[= ->] Hall%all_steps_ok_Forall].
      destruct Hbad; congruence.
Qed.

(** X13. A result of [verify] with status [failed_reasoning] names what
    failed: it has one or two errors, an [ASSERTION_FAILED] for the first
    unverified step, then an [ANSWER_MISMATCH] when the final answer is not
    verified, and its confidence is at least 0.5. *)
Theorem failed_reasoning_names_the_failure (reasoning : ReasoningOutput) (w : World)
    (v : VerificationResult) :
  (verify rt self reasoning w).1 = Val v -> status v = "failed_reasoning" ->
  map error_type (errors v) =
    ((if bool_decide (Exists (fun s => verified s = false) (step_verifications v))
      then [ASSERTION_FAILED] else []) ++
     (if bool_decide (answer_match v = Some false) then [ANSWER_MISMATCH] else []))%list /\
  errors v <> [] /\ (1 # 2 <= confidence_score v)%Q.
Proof.
  intros [(msg & code & errs & ->)
         |(code & r & steps & verdict & rep & -> & Hcode & Hsucc & Hparse)]%verify_result_shape;
    [done|].
  destruct (parsed_verdict_flag _ _ _ Hparse) as (b & Hkey & Hanswer & Hmatch).
  cbn [status answer_match step_verifications errors confidence_score
       _create_final_result].
  rewrite Hmatch.
  destruct (status_of_cases steps verdict) as [(-> & _)|(-> & Hbad)]; [done|].
  intros _. cbn [String.eqb Ascii.eqb Bool.eqb]. rewrite Hanswer.
  assert (match filter (fun s => verified s = false) steps with
          | [] => ~ Exists (fun s => verified s = false) steps
          | _ :: _ => Exists (fun s => verified s = false) steps
          end) as Hfilter.
  { destruct (filter _ steps) as [|s rest] eqn:Hf.
    - rewrite Exists_exists. intros (s & Hin & Hs).
      assert (s ∈ filter (fun s => verified s = false) steps) as Hin'
        by (apply list_elem_of_filter; auto).
      rewrite Hf in Hin'. by apply elem_of_nil in Hin'.
    - assert (s ∈ filter (fun s => verified s = false) steps) as Hin
        by (rewrite Hf; left).
      apply list_elem_of_filter in Hin as [Hs Hin]. rewrite Exists_exists. eauto. }
  assert ((1 # 2 <= _calculate_confidence r steps (Some verdict))%Q) as Hconf.
  { exact (confidence_at_least_half r steps verdict b Hsucc Hkey). }
  destruct (filter _ steps) as [|s rest].
  - rewrite bool_decide_eq_false_2 by done.
    destruct Hbad as [Hsteps%some_step_failed|Hb]; [done|].
    assert (b = false) as -> by congruence. by rewrite bool_decide_eq_true_2.
  - rewrite bool_decide_eq_true_2 by done. destruct b.
    + by rewrite bool_decide_eq_false_2.
    + by rewrite bool_decide_eq_true_2.
Qed.

End MorePipelineFacts.
(** ** verification.py: failures *)
Section MoreFailureFacts.

Import VerificationPipeline.

Variable rt : Runtime.
Variable self : VerificationPipeline.

(** X14. [generate] calls the model once. A failure of the call comes back
    as a [RuntimeError] that carries its message; an answer without code, or
    with an empty block, as a [ValueError]; the code returned is what
    [extract_code] found, and is not empty. *)
Theorem generate_error_behaviour (reasoning : ReasoningOutput) (w : World) :
  let run := CodeGeneration.generate rt reasoning w in
  let args := mkCallArgs "verification" "codegen/baseline_codegen@v3"
                (ReasoningVariables reasoning) None None in
  exists answer,
    trace run.2 = (trace w ++ [ModelCall args answer])%list /\
    match run.1 with
    | Val code =>
        code <> "" /\
        exists response, answer = Ok response /\
                         SymPyCodeGenerator.extract_code response = Some code
    | Exc e =>
        (exists failure,
            answer = Raise failure /\
            e = mkExc "RuntimeError"
                  ("LLM call for code generation failed: " +:+ exc_message failure)) \/
        (exists response,
            answer = Ok response /\ exc_type e = "ValueError" /\
            (SymPyCodeGenerator.extract_code response = None \/
             SymPyCodeGenerator.extract_code response = Some ""))
    | BaseExc _ => False
    end.
Proof.
  cbv zeta. unfold CodeGeneration.generate. rewrite bind_run. unfold try_except.
  change CodeGeneration.baseline with "codegen/baseline_codegen@v3".
  set (args := mkCallArgs _ _ _ _ _).
  destruct (call_model_run rt args w) as (w' & -> & Htrace).
  exists (model_manager_call rt args (trace w)).
  destruct (model_manager_call rt args (trace w)) as [response|failure].
  - destruct (SymPyCodeGenerator.extract_code response) as [code|] eqn:Hcode.
    + destruct (String.eqb_spec code "") as [->|Hne]; cbn.
      * split; [done|]. right. eauto 6.
      * split; [done|]. eauto.
    + cbn. split; [done|]. right. eauto 6.
  - cbn. split; [done|]. left. eauto.
Qed.

Lemma generate_model_failure (reasoning : ReasoningOutput) (w : World)
    (failure : PyException) :
  let args := mkCallArgs "verification" "codegen/baseline_codegen@v3"
                (ReasoningVariables reasoning) None None in
  model_manager_call rt args (trace w) = Raise failure ->
  exists w',
    CodeGeneration.generate rt reasoning w =
      (Exc (mkExc "RuntimeError"
              ("LLM call for code generation failed: " +:+ exc_message failure)), w') /\
    trace w' = (trace w ++ [ModelCall args (Raise failure)])%list.
Proof.
  cbv zeta. intros Hmodel. unfold CodeGeneration.generate. rewrite bind_run.
  unfold try_except.
  change CodeGeneration.baseline with "codegen/baseline_codegen@v3".
  destruct (call_model_run rt (mkCallArgs "verification" "codegen/baseline_codegen@v3"
                                 (ReasoningVariables reasoning) None None) w)
    as (w' & -> & Htrace).
  rewrite Hmodel in Htrace |- *. exists w'. done.
Qed.

(** X15. When the first call of the model fails, [verify] runs nothing:
    the call is its only event, and the result is [failed_pipeline] with
    empty code and one [RUNTIME_ERROR] whose message carries the message of
    the failure. *)
Theorem model_failure_is_failed_pipeline (reasoning : ReasoningOutput) (w : World)
    (failure : PyException) :
  let args := mkCallArgs "verification" "codegen/baseline_codegen@v3"
                (ReasoningVariables reasoning) None None in
  model_manager_call rt args (trace w) = Raise failure ->
  let run := verify rt self reasoning w in
  trace run.2 = (trace w ++ [ModelCall args (Raise failure)])%list /\
  exists v,
    run.1 = Val v /\ status v = "failed_pipeline" /\ generated_code v = "" /\
    errors v =
      [new_VerificationError RUNTIME_ERROR
         ("Initial code generation failed: LLM call for code generation failed: "
          +:+ exc_message failure)].
Proof.
  cbv zeta. intros Hmodel.
  destruct (generate_model_failure reasoning w failure Hmodel) as (w' & Hgen & Htrace).
  unfold verify. rewrite bind_run. unfold try_except. rewrite bind_run, Hgen.
  cbn. split; [done|]. eexists. split; [done|]. done.
Qed.

(** What [_handle_codegen_fault] ends in. *)
Lemma handle_codegen_fault_result (original_code : string)
    (exec_result : CodeExecutionResult) (reasoning : ReasoningOutput)
    (extra_error : option string) :
  hoare pipeline_event
    (fun res =>
       match res with
       | Val v =>
           (exists msg,
               v = _create_failure_result reasoning msg original_code
                     [new_VerificationError SYNTAX_ERROR
                        (error_message_of exec_result extra_error)]) \/
           (exists code r steps verdict,
               v = _create_final_result rt reasoning code r steps verdict
                     (status_of steps verdict) true)
       | Exc _ => False
       | BaseExc _ => True
       end)
    (_handle_codegen_fault rt self original_code exec_result reasoning extra_error).
Proof.
  unfold _handle_codegen_fault.
  eapply hoare_try_except
    with (Q := fun res =>
                 match res with
                 | Val v =>
                     exists code r steps verdict,
                       v = _create_final_result rt reasoning code r steps verdict
                             (status_of steps verdict) true
                 | _ => True
                 end).
  - eapply hoare_bind; [apply hoare_get_repaired_code| |done|done].
    intros repaired Hne. cbn in Hne.
    eapply hoare_bind; [by apply hoare_run_executor| |done|done].
    intros r _.
    destruct (success r) eqn:Hsucc; cbn [negb]; [|by apply hoare_raise].
    destruct (VerificationOutputParser.parse (json_loads rt) r)
      as [[steps verdict] err] eqn:Hparse.
    destruct (bool_decide (is_Some err) || not_verdict verdict);
      [by apply hoare_raise|].
    apply hoare_ret. eauto.
  - intros e _. apply hoare_ret. left. eauto.
  - intros v Hv. by right.
  - done.
Qed.

(** X16. When the repair of a codegen fault does not lead to a result,
    [_handle_codegen_fault] reports the first fault: the result keeps the
    code that was first generated and has one error, of type [SYNTAX_ERROR]
    whatever the fault was, whose message is the standard error of the first
    run, or else the extra error passed in. A result of any other status
    is marked as repaired. *)
Theorem failed_repair_reports_first_fault (original_code : string)
    (exec_result : CodeExecutionResult) (reasoning : ReasoningOutput)
    (extra_error : option string) (w : World) (v : VerificationResult) :
  (_handle_codegen_fault rt self original_code exec_result reasoning extra_error w).1
    = Val v ->
  (status v = "failed_pipeline" ->
   generated_code v = original_code /\
   errors v = [new_VerificationError SYNTAX_ERROR
                 (if negb (String.eqb (stderr exec_result) "") then stderr exec_result
                  else match extra_error with
                       | Some extra =>
                           if String.eqb extra "" then "Unknown execution error."
                           else extra
                       | None => "Unknown execution error."
                       end)]) /\
  (status v <> "failed_pipeline" ->
   metadata v !! "repaired_from_codegen_fault" = Some (JBool true)).
Proof.
  intros Hv.
  destruct (handle_codegen_fault_result original_code exec_result reasoning extra_error w)
    as (_ & _ & _ & Hpost).
  rewrite Hv in Hpost.
  destruct Hpost as [(msg & ->)|(code & r & steps & verdict & ->)].
  - split; [done|]. by intros [].
  - cbn [status _create_final_result]. split.
    + by destruct (status_of_cases steps verdict) as [(-> & _)|(-> & _)].
    + done.
Qed.

(** X17. After a [failed_reasoning] result of [verify], the feedback that
    [_create_reasoning_repair_context] writes for the repair of the reasoning
    is not empty: it opens with the message of the first error of the
    result. *)
Theorem repair_feedback_opens_with_first_error (reasoning : ReasoningOutput) (w : World)
    (v : VerificationResult) :
  (verify rt self reasoning w).1 = Val v -> status v = "failed_reasoning" ->
  exists e tail,
    head (errors v) = Some e /\
    VerificationOrchestrator._create_reasoning_repair_context v
      = "- " +:+ message e +:+ tail.
Proof.
  intros [(msg & code & errs & ->)
         |(code & r & steps & verdict & rep & -> & Hcode & Hsucc & Hparse)]%verify_result_shape;
    [done|].
  cbn [status _create_final_result].
  destruct (status_of_cases steps verdict) as [(-> & _)|(-> & Hbad)]; [done|].
  intros _.
  assert (exists e rest,
             errors (_create_final_result rt reasoning code r steps verdict
                       "failed_reasoning" rep) = e :: rest) as (e & rest & Herrors).
  { cbn [errors _create_final_result String.eqb Ascii.eqb Bool.eqb].
    destruct (filter (fun s => verified s = false) steps) as [|s l] eqn:Hfilter;
      [|by eauto].
    destruct (answer_ok verdict) eqn:Hanswer; [|by eauto].
    destruct Hbad as [Hsteps|?]; [|done].
    apply some_step_failed, Exists_exists in Hsteps as (s & Hin & Hs).
    assert (s ∈ filter (fun s => verified s = false) steps) as Hin'
      by (apply list_elem_of_filter; auto).
    rewrite Hfilter in Hin'. by apply elem_of_nil in Hin'. }
  unfold VerificationOrchestrator._create_reasoning_repair_context.
  set (v := _create_final_result _ _ _ _ _ _ _ _) in *.
  rewrite Herrors. cbn [fmap list_fmap].
  set (parts := (fun error => "- " +:+ message error) <$> rest).
  exists e.
  destruct (filter (fun s => verified s = false) (step_verifications v)) as [|s l].
  - destruct (join_head PyStr.nl ("- " +:+ message e) parts) as [tail ->].
    exists tail. split; [done|]. by rewrite append_assoc.
  - cbn [app].
    match goal with
    | |- context [PyStr.join ?sep (?p :: ?l')] =>
        destruct (join_head sep p l') as [tail ->]
    end.
    exists tail. split; [done|]. by rewrite append_assoc.
Qed.

End MoreFailureFacts.
(** ** Rules for [hoare_tr] *)
Section TraceRules.

Context {A B : Type}.

Lemma hoare_tr_ret (Q : list Event -> result A -> Prop) (a : A) :
  Q [] (Val a) -> hoare_tr Q (mret a).
Proof. intros HQ w. exists []. by rewrite app_nil_r. Qed.

Lemma hoare_tr_bind (Q : list Event -> result A -> Prop)
    (R : list Event -> result B -> Prop) (m : M A) (k : A -> M B) :
  hoare_tr Q m ->
  (forall evs a, Q evs (Val a) -> hoare_tr (fun evs' r => R (evs ++ evs')%list r) (k a)) ->
  (forall evs e, Q evs (Exc e) -> R evs (Exc e)) ->
  (forall evs e, Q evs (BaseExc e) -> R evs (BaseExc e)) ->
  hoare_tr R (m ≫= k).
Proof.
  intros Hm Hk Hexc Hbase w. rewrite bind_run.
  destruct (Hm w) as (evs & Htrace & HQ).
  destruct (m w) as [[a|e|e] w']; cbn [fst snd] in *.
  - destruct (Hk evs a HQ w') as (evs' & Htrace' & HR).
    exists (evs ++ evs')%list. by rewrite Htrace', Htrace, <- app_assoc.
  - exists evs. eauto.
  - exists evs. eauto.
Qed.

Lemma hoare_tr_print (R : list Event -> result B -> Prop) (text : string) (k : M B) :
  hoare_tr (fun evs r => R (Printed text :: evs) r) k ->
  hoare_tr R (_ ← print text; k).
Proof.
  intros Hk w. rewrite print_run.
  destruct (Hk (log (Printed text) w)) as (evs & Htrace & HR).
  exists (Printed text :: evs). split; [|done].
  rewrite Htrace. cbn. by rewrite <- app_assoc.
Qed.

Lemma hoare_tr_time (R : list Event -> result B -> Prop) (k : Q -> M B) :
  (forall t, hoare_tr R (k t)) -> hoare_tr R (t ← time_time; k t).
Proof. intros Hk w. apply (Hk (SafeExecutor.clock (proc w)) w). Qed.

Lemma hoare_tr_ret_bind (R : list Event -> result B -> Prop) (a : A) (k : A -> M B) :
  hoare_tr R (k a) -> hoare_tr R (x ← mret a; k x).
Proof. intros Hk w. apply (Hk w). Qed.

End TraceRules.

(** ** verification_orchestrator.py *)
Section MoreOrchestratorFacts.

Import VerificationOrchestrator.

Variable rt : Runtime.
Variable verification_pipeline : VerificationPipeline.VerificationPipeline.

Lemma count_app (which : Event -> bool) (l1 l2 : list Event) :
  count which (l1 ++ l2) = (count which l1 + count which l2)%nat.
Proof. unfold count. by rewrite List.filter_app, length_app. Qed.

Lemma pipeline_events_in_orchestrator (evs : list Event) :
  Forall pipeline_event evs ->
  Forall orchestrator_event evs /\ count is_pipeline_run evs = 0%nat.
Proof.
  induction 1 as [|ev evs Hev _ [IH1 IH2]]; [done|].
  destruct ev as [args answer|code r|reasoning|text]; try done.
  - split; [constructor; [by left|done]|done].
  - split; [by constructor|done].
  - split; [by constructor|done].
Qed.

(** What [verify] lets through left its last event, a run of the sandbox. *)
Lemma verify_raised_by_last_run (reasoning : ReasoningOutput) (w : World) (evs : list Event) :
  trace (VerificationPipeline.verify rt verification_pipeline reasoning w).2
    = (trace w ++ evs)%list ->
  raised_by_last_run evs
    (VerificationPipeline.verify rt verification_pipeline reasoning w).1.
Proof.
  intros Htrace.
  destruct (verify_run rt verification_pipeline reasoning w)
    as (evs' & res & w' & Hrun & Htrace' & Hsum).
  rewrite Hrun in Htrace |- *. cbn [fst snd] in *.
  assert (evs' = evs) as -> by (rewrite Htrace' in Htrace; by apply app_inv_head in Htrace).
  destruct Hsum as (args & answer & _ & _ & Hcases).
  destruct Hcases as [(v & -> & -> & Hst)|(code & r & text & rest & -> & Hrest)]; [done|].
  destruct r as [r1|e|e].
  - destruct (contract_adhered rt r1).
    + by destruct Hrest as [-> (v & -> & _)].
    + destruct Hrest as (evs' & -> & [(v & -> & _)
                                      |(args' & answer' & code' & r' & -> & _ & Hset)]);
        [done|].
      destruct r' as [x2|e|e]; cbn in Hset.
      * by destruct Hset as (v & -> & _).
      * by destruct Hset as (v & -> & _).
      * subst res. by exists code'.
  - destruct Hrest as [-> ->]. by exists code.
  - destruct Hrest as [-> ->]. by exists code.
Qed.

Lemma raised_by_last_run_app {T} (evs evs' : list Event) (res : result T) :
  raised_by_last_run evs' res -> raised_by_last_run (evs ++ evs') res.
Proof.
  destruct res as [v|e|e]; [done|..]; intros [code Hlast]; exists code;
    by rewrite last_app, Hlast.
Qed.

Lemma raised_by_last_run_cons {T} (ev : Event) (evs : list Event) (res : result T) :
  raised_by_last_run evs res -> raised_by_last_run (ev :: evs) res.
Proof. apply (raised_by_last_run_app [ev]). Qed.

Lemma result_shape_status (reasoning : ReasoningOutput) (v : VerificationResult) :
  result_shape rt reasoning v ->
  reasoning_output v = reasoning /\
  (status v = "verified" \/ status v = "failed_reasoning" \/ status v = "failed_pipeline").
Proof.
  intros [(msg & code & errs & ->)|(code & r & steps & verdict & rep & -> & _)].
  - split; [done|]. by right; right.
  - split; [done|]. cbn [status VerificationPipeline._create_final_result].
    destruct (status_of_cases steps verdict) as [(-> & _)|(-> & _)]; auto.
Qed.

Lemma hoare_tr_run_pipeline (reasoning : ReasoningOutput) :
  hoare_tr (fun evs res =>
              Forall orchestrator_event evs /\ count is_pipeline_run evs = 1%nat /\
              raised_by_last_run evs res /\
              match res with
              | Val v =>
                  reasoning_output v = reasoning /\
                  (status v = "verified" \/ status v = "failed_reasoning"
                   \/ status v = "failed_pipeline")
              | Exc _ | BaseExc _ => True
              end)
    (run_pipeline rt verification_pipeline reasoning).
Proof.
  intros w. unfold run_pipeline.
  destruct (hoare_verify rt verification_pipeline reasoning (log (PipelineRun reasoning) w))
    as (evs & Htrace & Hall & Hpost).
  destruct (pipeline_events_in_orchestrator _ Hall) as [Horch Hcount].
  exists (PipelineRun reasoning :: evs). split.
  { rewrite Htrace. cbn. by rewrite <- app_assoc. }
  split; [by constructor|]. split.
  { change (PipelineRun reasoning :: evs) with ([PipelineRun reasoning] ++ evs)%list.
    by rewrite count_app, Hcount. }
  split; [by apply raised_by_last_run_cons, verify_raised_by_last_run|].
  destruct (VerificationPipeline.verify _ _ _ _).1 as [v|e|e]; [|done..].
  by apply result_shape_status.
Qed.

Lemma hoare_tr_attempt_reasoning_repair (failed_reasoning : ReasoningOutput)
    (verification_result : VerificationResult) :
  hoare_tr (fun evs res =>
              Forall orchestrator_event evs /\ count is_pipeline_run evs = 0%nat /\
              match res with
              | Val (Some r) => original_problem r = original_problem failed_reasoning
              | Val None => True
              | _ => False
              end)
    (_attempt_reasoning_repair rt failed_reasoning verification_result).
Proof.
  intros w. unfold _attempt_reasoning_repair, try_except. rewrite bind_run.
  set (args := mkCallArgs _ _ _ _ _).
  destruct (call_model_run rt args w) as (w' & -> & Htrace).
  assert (orchestrator_event (ModelCall args (model_manager_call rt args (trace w))))
    as Hcall by (by right).
  destruct (model_manager_call rt args (trace w)) as [content|e].
  - destruct (_parse_reasoning_response rt content) as [[think worked] answer].
    exists [ModelCall args (Ok content)]. cbn. split; [done|]. by repeat constructor.
  - exists [ModelCall args (Raise e); Printed ("Error during reasoning repair call: "
                                               +:+ exc_message e)].
    rewrite print_run. cbn. rewrite Htrace, <- app_assoc. split; [done|].
    by repeat constructor.
Qed.

Lemma current_after_cons (start r : ReasoningOutput) (a : RepairAttempt)
    (new : list RepairAttempt) :
  repaired_reasoning a = Some r ->
  current_after start (a :: new) = current_after r new.
Proof.
  intros Ha. unfold current_after. cbn [omap list_omap]. rewrite Ha.
  by destruct (omap repaired_reasoning new) as [|r' l] using rev_ind;
    [|rewrite app_comm_cons, !last_snoc].
Qed.

(** The loop from an attempt after the first pipeline run on. *)
Lemma repair_loop_spec (problem : string) (max_reasoning_attempts : Z) (k : nat) :
  forall (a : Z) (current : ReasoningOutput) (failed : VerificationResult)
         (history : list RepairAttempt),
    0 < a -> status failed = "failed_reasoning" ->
    reasoning_output failed = current -> original_problem current = problem ->
    hoare_tr (loop_post problem a (Z.of_nat k) 0 current history)
      (repair_loop rt verification_pipeline max_reasoning_attempts
         (seqZ a (Z.of_nat k)) current (Some failed) history).
Proof.
  induction k as [|k IH]; intros a current failed history Ha Hstatus Hreasoning Hproblem.
  - cbn [repair_loop seqZ]. unfold after_loop.
    apply hoare_tr_print, hoare_tr_ret_bind, hoare_tr_ret.
    split; [by repeat constructor|]. split; [done|]. exists []. rewrite app_nil_r.
    repeat split; try done; auto.
  - rewrite seqZ_cons by lia.
    replace (Z.pred (Z.of_nat (S k))) with (Z.of_nat k) by lia.
    cbn [repair_loop]. replace (0 <? a) with true by (symmetry; by apply Z.ltb_lt).
    set (banner := "--- Reasoning Repair Attempt " +:+ _).
    apply hoare_tr_print, hoare_tr_time. intros start_time.
    apply hoare_tr_ret_bind.
    eapply hoare_tr_bind; [apply hoare_tr_attempt_reasoning_repair| |by intros ? ? (_ & _ & [])..].
    intros evs1 repaired (Hevs1 & Hcount1 & Hrepaired).
    apply hoare_tr_time. intros now.
    set (entry := mkRepairAttempt a "reasoning" _ _ _ None repaired).
    assert (logged_attempt problem entry) as Hentry.
    { repeat split; [by cbn; rewrite Hstatus|].
      intros r Hr. cbn in Hr. subst repaired. congruence. }
    destruct repaired as [r|].
    + eapply hoare_tr_bind; [apply hoare_tr_run_pipeline| | |].
      * intros evs2 v (Hevs2 & Hcount2 & _ & Hv & Hst). cbv beta.
        assert (forall text,
                   status v <> "failed_reasoning" ->
                   hoare_tr
                     (fun evs' res =>
                        loop_post problem a (Z.of_nat (S k)) 0 current history
                          (Printed banner :: evs1 ++ evs2 ++ evs')%list res)
                     (_ ← print text; mret (v, (history ++ [entry])%list))) as Hleave.
        { intros text Hne. apply hoare_tr_print, hoare_tr_ret. split.
          { constructor; [done|]. apply Forall_app. split; [done|].
            apply Forall_app. split; [done|]. by repeat constructor. }
          split; [done|].
          exists [entry]. split; [done|]. split; [done|]. split; [cbn; lia|].
          split; [by apply Forall_singleton|]. split.
          { intros i x _ Hi. cbn in Hi. lia. }
          split; [by rewrite Hv|]. split; [done|].
          split; [intros _; by apply Forall_singleton|].
          split; [done|].
          change (Printed banner :: evs1 ++ evs2 ++ [Printed text])%list
            with ([Printed banner] ++ evs1 ++ evs2 ++ [Printed text])%list.
          rewrite !count_app, Hcount1, Hcount2. done. }
        destruct (String.eqb_spec (status v) "verified") as [Hverified|Hnv].
        { apply Hleave. by rewrite Hverified. }
        destruct (String.eqb_spec (status v) "failed_reasoning") as [Hfailed|Hnf];
          cbn [negb]; [|by apply Hleave].
        intros w.
        destruct (IH (a + 1) r v (history ++ [entry])%list) with (w := w)
          as (evs3 & Htrace & Hall & Hraised & Hpost); [lia|done|done|congruence|].
        replace (Z.succ a) with (a + 1) by lia.
        exists evs3. split; [done|]. split.
        { constructor; [done|]. apply Forall_app. split; [done|].
          by apply Forall_app. }
        split.
        { by apply raised_by_last_run_cons, raised_by_last_run_app,
            raised_by_last_run_app. }
        destruct (repair_loop _ _ _ _ _ _ _ w).1 as [[v' h]|e|e]; [|done..].
        destruct Hpost as (new & -> & Hnum & Hlen & Hlogged & Hbut & Hcur & Hst' & Hok
                           & Hbad & Hcount).
        exists (entry :: new). split; [by rewrite <- app_assoc|]. split.
        { cbn [fmap list_fmap length]. rewrite seqZ_cons by lia.
          replace (Z.pred (Z.of_nat (S (length new)))) with (Z.of_nat (length new)) by lia.
          replace (Z.succ a) with (a + 1) by lia. f_equal. exact Hnum. }
        split; [cbn [length]; lia|]. split; [by constructor|]. split.
        { intros [|i] x Hx Hi; cbn in Hx.
          - by injection Hx as <-.
          - apply (Hbut i x Hx). cbn in Hi. lia. }
        split; [by rewrite (current_after_cons _ r)|]. split; [done|]. split.
        { intros Hne. constructor; [done|auto]. }
        split.
        { intros Hf. destruct (Hbad Hf) as [Hfull|(x & Hlast & Hx)].
          - left. cbn [length]. lia.
          - right. exists x. split; [|done]. destruct new; [done|]. done. }
        change (Printed banner :: evs1 ++ evs2 ++ evs3)%list
          with ([Printed banner] ++ evs1 ++ evs2 ++ evs3)%list.
        rewrite !count_app, Hcount1, Hcount2, Hcount.
        rewrite filter_cons_True by done. done.
      * intros evs2 e (Hevs2 & _ & Hlast & _).
        split; [constructor; [done|]; by apply Forall_app|]. split; [|done].
        by apply raised_by_last_run_cons, raised_by_last_run_app.
      * intros evs2 e (Hevs2 & _ & Hlast & _).
        split; [constructor; [done|]; by apply Forall_app|]. split; [|done].
        by apply raised_by_last_run_cons, raised_by_last_run_app.
    + apply hoare_tr_print. unfold after_loop.
      apply hoare_tr_print, hoare_tr_ret_bind, hoare_tr_ret. split.
      { constructor; [done|]. apply Forall_app. split; [done|]. by repeat constructor. }
      split; [done|].
      exists [entry]. split; [done|]. split; [done|]. split; [cbn; lia|].
      split; [by apply Forall_singleton|]. split.
      { intros i x _ Hi. cbn in Hi. lia. }
      split; [done|]. split; [auto|]. split; [done|]. split.
      { intros _. right. by exists entry. }
      match goal with
      | |- count _ (Printed banner :: evs1 ++ ?l)%list = _ =>
          change (Printed banner :: evs1 ++ l)%list
            with ([Printed banner] ++ evs1 ++ l)%list
      end.
      rewrite !count_app, Hcount1. done.
Qed.

(** The whole loop, for a number of attempts that is not negative. *)
Lemma verify_with_repair_spec (reasoning : ReasoningOutput)
    (max_reasoning_attempts : Z) :
  0 <= max_reasoning_attempts ->
  hoare_tr (loop_post (original_problem reasoning) 1 max_reasoning_attempts 1
              reasoning [])
    (verify_with_repair rt verification_pipeline reasoning max_reasoning_attempts).
Proof.
  intros Hmax. unfold verify_with_repair, attempts_range.
  rewrite seqZ_cons by lia.
  replace (Z.pred (max_reasoning_attempts + 1)) with max_reasoning_attempts by lia.
  change (Z.succ 0) with 1. cbn [repair_loop]. change (0 <? 0) with false. cbv iota.
  eapply hoare_tr_bind; [apply hoare_tr_run_pipeline| | |].
  - intros evs2 v (Hevs2 & Hcount2 & _ & Hv & Hst). cbv beta.
    assert (forall text,
               status v <> "failed_reasoning" ->
               hoare_tr
                 (fun evs' res =>
                    loop_post (original_problem reasoning) 1 max_reasoning_attempts 1
                      reasoning [] (evs2 ++ evs')%list res)
                 (_ ← print text; mret (v, []))) as Hleave.
    { intros text Hne. apply hoare_tr_print, hoare_tr_ret. split.
      { apply Forall_app. split; [done|]. by repeat constructor. }
      split; [done|].
      exists []. repeat split; try done.
      rewrite count_app, Hcount2. done. }
    destruct (String.eqb_spec (status v) "verified") as [Hverified|Hnv].
    { apply Hleave. by rewrite Hverified. }
    destruct (String.eqb_spec (status v) "failed_reasoning") as [Hfailed|Hnf];
      cbn [negb]; [|by apply Hleave].
    intros w.
    destruct (repair_loop_spec (original_problem reasoning) max_reasoning_attempts
                (Z.to_nat max_reasoning_attempts) 1 reasoning v [])
      with (w := w) as (evs3 & Htrace & Hall & Hlast & Hpost); [lia|done|done|done|].
    rewrite Z2Nat.id in Htrace, Hlast, Hpost by done.
    exists evs3. split; [done|]. split; [by apply Forall_app|].
    split; [by apply raised_by_last_run_app|].
    destruct (repair_loop _ _ _ _ _ _ _ w).1 as [[v' h]|e|e]; [|done..].
    destruct Hpost as (new & -> & Hnum & Hlen & Hlogged & Hbut & Hcur & Hst' & Hok
                       & Hbad & Hcount).
    exists new. repeat split; try done.
    by rewrite count_app, Hcount2, Hcount.
  - by intros evs2 e (Hevs2 & _ & Hlast & _).
  - by intros evs2 e (Hevs2 & _ & Hlast & _).
Qed.

Lemma verify_with_repair_val (reasoning : ReasoningOutput)
    (max_reasoning_attempts : Z) (w : World) (v : VerificationResult)
    (history : list RepairAttempt) :
  0 <= max_reasoning_attempts ->
  (verify_with_repair rt verification_pipeline reasoning max_reasoning_attempts w).1
    = Val (v, history) ->
  exists evs,
    trace (verify_with_repair rt verification_pipeline reasoning
             max_reasoning_attempts w).2 = (trace w ++ evs)%list /\
    loop_post (original_problem reasoning) 1 max_reasoning_attempts 1
      reasoning [] evs (Val (v, history)).
Proof.
  intros Hmax Hval.
  destruct (verify_with_repair_spec reasoning max_reasoning_attempts Hmax w)
    as (evs & Htrace & Hpost).
  rewrite Hval in Hpost. eauto.
Qed.

(** X18. The repair history that [verify_with_repair] returns numbers its
    entries 1, 2, ... in order and has at most [max_reasoning_attempts] of
    them; each entry is of type [reasoning], carries no error message, gives
    the status [failed_reasoning] as its reason, and is marked successful
    exactly when it holds a repaired reasoning. *)
Theorem repair_history_is_numbered (reasoning : ReasoningOutput)
    (max_reasoning_attempts : Z) (w : World) (v : VerificationResult)
    (history : list RepairAttempt) :
  0 <= max_reasoning_attempts ->
  (verify_with_repair rt verification_pipeline reasoning max_reasoning_attempts w).1
    = Val (v, history) ->
  attempt_number <$> history = seqZ 1 (Z.of_nat (length history)) /\
  Z.of_nat (length history) <= max_reasoning_attempts /\
  Forall (fun a =>
            repair_type a = "reasoning" /\ error_message a = None /\
            reason a = "Reasoning verification failed with status: failed_reasoning" /\
            success a = bool_decide (is_Some (repaired_reasoning a))) history.
Proof.
  intros Hmax Hval.
  destruct (verify_with_repair_val _ _ _ _ _ Hmax Hval)
    as (evs & _ & _ & _ & new & -> & Hnum & Hlen & Hlogged & _).
  split; [done|]. split; [done|].
  eapply Forall_impl; [exact Hlogged|]. by intros a (? & ? & ? & ? & _).
Qed.

(** X19. Only the last repair can have failed. When the status returned is
    not [failed_reasoning], every repair in the history succeeded; when it
    is [failed_reasoning], the attempts were used up or the last repair
    failed. *)
Theorem only_the_last_repair_can_fail (reasoning : ReasoningOutput)
    (max_reasoning_attempts : Z) (w : World) (v : VerificationResult)
    (history : list RepairAttempt) :
  0 <= max_reasoning_attempts ->
  (verify_with_repair rt verification_pipeline reasoning max_reasoning_attempts w).1
    = Val (v, history) ->
  (forall i a, history !! i = Some a -> (S i < length history)%nat -> success a = true) /\
  (status v <> "failed_reasoning" -> Forall (fun a => success a = true) history) /\
  (status v = "failed_reasoning" ->
   Z.of_nat (length history) = max_reasoning_attempts \/
   exists a, last history = Some a /\ success a = false).
Proof.
  intros Hmax Hval.
  destruct (verify_with_repair_val _ _ _ _ _ Hmax Hval)
    as (evs & _ & _ & _ & new & -> & _ & _ & _ & Hbut & _ & _ & Hok & Hbad & _).
  done.
Qed.

Lemma current_after_problem (problem : string) (start : ReasoningOutput)
    (history : list RepairAttempt) :
  original_problem start = problem -> Forall (logged_attempt problem) history ->
  original_problem (current_after start history) = problem.
Proof.
  intros Hstart Hlogged. unfold current_after.
  destruct (last (omap repaired_reasoning history)) as [r|] eqn:Hlast; [|done].
  apply last_Some_elem_of, list_elem_of_omap in Hlast as (a & Hin & Ha).
  rewrite Forall_forall in Hlogged.
  destruct (Hlogged a Hin) as (_ & _ & _ & _ & Hproblem). by apply Hproblem.
Qed.

(** X20. The result that [verify_with_repair] returns is about the last
    reasoning a repair produced, or about the reasoning given when no repair
    produced one; its problem statement is the one given. *)
Theorem result_is_about_the_last_repaired_reasoning (reasoning : ReasoningOutput)
    (max_reasoning_attempts : Z) (w : World) (v : VerificationResult)
    (history : list RepairAttempt) :
  0 <= max_reasoning_attempts ->
  (verify_with_repair rt verification_pipeline reasoning max_reasoning_attempts w).1
    = Val (v, history) ->
  reasoning_output v
    = default reasoning (last (omap repaired_reasoning history)) /\
  original_problem (reasoning_output v) = original_problem reasoning.
Proof.
  intros Hmax Hval.
  destruct (verify_with_repair_val _ _ _ _ _ Hmax Hval)
    as (evs & _ & _ & _ & new & -> & _ & _ & Hlogged & _ & Hcur & _).
  split; [done|]. rewrite Hcur. by apply current_after_problem.
Qed.


(** X22. What [verify_with_repair] does to the outside, whatever the number
    of attempts: it calls the model for the tasks [verification] and
    [reasoning_repair] only, each with its own prompt, and hands no empty
    script to the sandbox. *)
Theorem verify_with_repair_events (reasoning : ReasoningOutput)
    (max_reasoning_attempts : Z) (w : World) :
  exists evs,
    trace (verify_with_repair rt verification_pipeline reasoning
             max_reasoning_attempts w).2 = (trace w ++ evs)%list /\
    forall ev, ev ∈ evs ->
      match ev with
      | ModelCall args _ =>
          (task args = "verification" /\ prompt_ref args = "codegen/baseline_codegen@v3") \/
          (task args = "reasoning_repair" /\ prompt_ref args = "reasoning/repair@v1")
      | SandboxRun code _ => code <> ""
      | _ => True
      end.
Proof.
  destruct (Z.le_gt_cases 0 max_reasoning_attempts) as [Hmax|Hneg].
  - destruct (verify_with_repair_spec reasoning max_reasoning_attempts Hmax w)
      as (evs & Htrace & Hall & _).
    exists evs. split; [done|]. intros ev Hin.
    rewrite Forall_forall in Hall. specialize (Hall ev Hin).
    by destruct ev.
  - unfold verify_with_repair, attempts_range. rewrite seqZ_nil by lia.
    exists [Printed "Max reasoning repair attempts reached."]. split; [done|].
    by intros ev ->%list_elem_of_singleton.
Qed.

(** X23. With a negative number of attempts the loop body never runs:
    [verify_with_repair] runs no pipeline and calls no model, prints that the
    attempts are used up, and raises [UnboundLocalError] on reading
    [verification_result]. *)
Theorem negative_attempts_raise_UnboundLocalError (reasoning : ReasoningOutput)
    (max_reasoning_attempts : Z) (w : World) :
  max_reasoning_attempts < 0 ->
  let run := verify_with_repair rt verification_pipeline reasoning
               max_reasoning_attempts w in
  (exists e, run.1 = Exc e /\ exc_type e = "UnboundLocalError") /\
  trace run.2 = (trace w ++ [Printed "Max reasoning repair attempts reached."])%list.
Proof.
  intros Hneg. cbv zeta. unfold verify_with_repair, attempts_range.
  rewrite seqZ_nil by lia. cbn. eauto.
Qed.

End MoreOrchestratorFacts.
(** ** executor.py *)
Section MoreExecutorFacts.

Import SafeExecutor.

Variable ast_parse : string -> outcome unit.
Variable format_exc : PyException -> string.
Variable self : SafeExecutor.

Lemma top_package_dotless (pkg rest : string) :
  SymPyCodeGenerator.count_char "."%char pkg = 0%nat ->
  top_package pkg = pkg /\ top_package (pkg +:+ "." +:+ rest) = pkg.
Proof.
  induction pkg as [|c pkg IH]; [done|].
  change (((if Ascii.eqb "."%char c then 1 else 0)
           + SymPyCodeGenerator.count_char "."%char pkg = 0)%nat ->
          (if Ascii.eqb c "."%char then EmptyString else String c (top_package pkg))
            = String c pkg /\
          (if Ascii.eqb c "."%char then EmptyString
           else String c (top_package (pkg +:+ "." +:+ rest))) = String c pkg).
  rewrite (Ascii.eqb_sym "."%char c).
  destruct (Ascii.eqb c "."%char); [done|]. intros Hpkg.
  destruct (IH Hpkg) as [-> ->]. done.
Qed.

(** X24. [_restricted_import] decides by the top-level package alone: a
    module or any of its submodules is handed to [__import__] exactly when
    the package is one of the seven allowed ones; the refusal is an
    [ImportError]. *)
Theorem restricted_import_decided_by_top_package (allowed_repr pkg rest : string) :
  SymPyCodeGenerator.count_char "."%char pkg = 0%nat ->
  (_restricted_import allowed_repr pkg = None <-> pkg ∈ allowed_modules) /\
  (_restricted_import allowed_repr (pkg +:+ "." +:+ rest) = None
   <-> pkg ∈ allowed_modules) /\
  (forall name e, _restricted_import allowed_repr name = Some e ->
                  exc_type e = "ImportError").
Proof.
  intros Hpkg. destruct (top_package_dotless pkg rest Hpkg) as [Htop Hsub].
  unfold _restricted_import. rewrite Htop, Hsub.
  split; [|split].
  - destruct (decide (pkg ∈ allowed_modules)) as [Hin|Hout].
    + by rewrite bool_decide_eq_true_2.
    + by rewrite bool_decide_eq_false_2.
  - destruct (decide (pkg ∈ allowed_modules)) as [Hin|Hout].
    + by rewrite bool_decide_eq_true_2.
    + by rewrite bool_decide_eq_false_2.
  - intros name e. destruct (bool_decide _); [done|]. by intros [= <-].
Qed.

(** After the redirection, [_apply_resource_limits] writes its warning to
    the captured standard error, and nothing else to the buffers. *)
Lemma apply_resource_limits_captured (p : Process) :
  let p0 := set_streams stdout_capture stderr_capture (set_captured "" "" p) in
  let p1 := (_apply_resource_limits self p0).2 in
  captured_out p1 = "" /\ clock p1 = clock p /\
  (captured_err p1 = "" \/ captured_err p1 = limits_warning) /\
  (resource_available p = true -> snd (rlimit_as p) = RLIM_INFINITY ->
   captured_err p1 = "") /\
  (resource_available p = false \/
   (exists hard, snd (rlimit_as p) = Bytes hard /\
                 0 <= hard /\ hard < max_memory_mb self * 1024 * 1024 < 2 ^ 63) ->
   captured_err p1 = limits_warning).
Proof.
  cbv zeta. unfold _apply_resource_limits. cbv zeta.
  cbn [resource_available set_streams set_captured].
  destruct (resource_available p) eqn:Hres.
  - destruct (decide (- 2 ^ 63 <= max_memory_mb self * 1024 * 1024 < 2 ^ 63)) as [Hr|Hr].
    + rewrite (setrlimit_as_in_range _ _ Hr), memory_bytes_rlim.
      cbn [rlimit_as set_streams set_captured snd].
      destruct (snd (rlimit_as p)) as [|hard] eqn:Hhard; cbn [rlim_below].
      * cbn. split; [done|]. split; [done|]. split; [by left|]. split; [done|].
        intros [?|(hard & ? & _)]; done.
      * destruct (Z.ltb_spec (hard mod 2 ^ 64) ((max_memory_mb self * 1024 * 1024) mod 2 ^ 64))
          as [Hlt|Hge]; cbn.
        -- split; [done|]. split; [done|]. split; [by right|]. split; [done|]. done.
        -- split; [done|]. split; [done|]. split; [by left|]. split; [done|].
           intros [?|(hard' & [= <-] & H0 & Hlow & Hhigh)]; [done|].
           rewrite !Z.mod_small in Hge by lia. lia.
    + rewrite (setrlimit_as_out_of_range _ _ Hr). cbn.
      split; [done|]. split; [done|]. split; [by left|]. split; [done|].
      intros [?|(hard & _ & H0 & Hlow & Hhigh)]; [done|]. lia.
  - cbn. split; [done|]. split; [done|]. split; [by right|]. split; [done|]. done.
Qed.

(** X25. Called outside the main thread, [execute] never runs the script:
    for every code that parses it returns the same failure with empty
    output, whatever the script would do. The failure is an
    [UnboundLocalError], and the memory limit has been applied all the same;
    only where [resource.setrlimit] cannot convert the limit, a number of
    bytes outside the range of a C [long], [execute] stops there, with an
    [OverflowError]. *)
Theorem off_main_thread_script_never_runs
    (py_exec py_exec' : string -> Process -> ScriptRun)
    (code : string) (p : Process) (u : unit) :
  ast_parse code = Ok u -> in_main_thread p = false ->
  execute ast_parse py_exec format_exc self code p
    = execute ast_parse py_exec' format_exc self code p /\
  (exists r, (execute ast_parse py_exec format_exc self code p).1 = Val r /\
             success r = false /\ stdout r = "" /\
             (resource_available p = false \/
              - 2 ^ 63 <= max_memory_mb self * 1024 * 1024 < 2 ^ 63 ->
              exception_type r = Some "UnboundLocalError") /\
             (resource_available p = true ->
              ~ (- 2 ^ 63 <= max_memory_mb self * 1024 * 1024 < 2 ^ 63) ->
              exception_type r = Some "OverflowError")) /\
  rlimit_as (execute ast_parse py_exec format_exc self code p).2
    = rlimit_as (_apply_resource_limits self p).2.
Proof.
  intros Hparse Hmain.
  destruct (limits_applied_or_overflow self p) as [Hnone|[Hres Hover]].
  - destruct (apply_resource_limits_captured p) as (Hco & _).
    unfold SafeExecutor.execute. rewrite Hparse.
    set (p0 := set_streams stdout_capture stderr_capture (set_captured "" "" p)) in *.
    assert ((_apply_resource_limits self p0).1 = None) as Hnone0
      by (by rewrite (apply_resource_limits_raises_same self p p0)).
    destruct (apply_resource_limits_frame self p0) as (Hout & Herr & Hh & Ha & Hm).
    assert (rlimit_as (_apply_resource_limits self p0).2
            = rlimit_as (_apply_resource_limits self p).2) as Hlim
      by (by apply apply_resource_limits_rlimit_same).
    destruct (_apply_resource_limits self p0) as [raised p1]. cbn [fst snd] in *.
    subst raised. unfold _timeout_context.
    rewrite Hm. cbn [in_main_thread set_streams set_captured p0]. rewrite Hmain.
    split; [done|]. split.
    + eexists. split; [done|]. cbn [success exception_type stdout].
      split; [done|]. split; [cbn; exact Hco|]. split; [done|].
      intros Hres Hover.
      pose proof (proj2 (apply_resource_limits_raises self p) Hres Hover) as Hraise.
      rewrite Hraise in Hnone. done.
    + cbn. exact Hlim.
  - unfold SafeExecutor.execute. rewrite Hparse.
    rewrite (proj2 (apply_resource_limits_raises self
                      (set_streams stdout_capture stderr_capture (set_captured "" "" p)))
               Hres Hover).
    rewrite (proj2 (apply_resource_limits_raises self p) Hres Hover).
    split; [done|]. split.
    + eexists. split; [done|]. cbn. split; [done|]. split; [done|]. split; [|done].
      intros [Hno|Hrange]; [congruence|done].
    + done.
Qed.

Section Captured.

Variable py_exec : string -> Process -> ScriptRun.

(** The buffers when [exec] starts. *)
Lemma state_at_exec_captured (p : Process) :
  let s := state_at_exec self p in
  let p1 := (_apply_resource_limits self
               (set_streams stdout_capture stderr_capture (set_captured "" "" p))).2 in
  captured_out s = captured_out p1 /\ captured_err s = captured_err p1 /\
  sys_stdout s = stdout_capture /\ sys_stderr s = stderr_capture /\
  clock s = clock p1 /\ sigalrm_handler s = timeout_handler (timeout self).
Proof.
  cbv zeta. unfold state_at_exec.
  destruct (apply_resource_limits_frame self
              (set_streams stdout_capture stderr_capture (set_captured "" "" p)))
    as (Hout & Herr & _).
  cbn [set_alarm set_handler captured_out captured_err sys_stdout sys_stderr clock
       sigalrm_handler].
  by rewrite Hout, Herr.
Qed.

(** The result of a run under the alarm, in terms of what the script did. *)
Lemma execute_run_output (code : string) (p : Process) (u : unit) (r : CodeExecutionResult) :
  ast_parse code = Ok u -> in_main_thread p = true ->
  (_apply_resource_limits self p).1 = None ->
  - 2 ^ 31 <= timeout self < 2 ^ 31 ->
  (execute ast_parse py_exec format_exc self code p).1 = Val r ->
  let s := state_at_exec self p in
  let run := py_exec code s in
  stdout r = captured_out s +:+ printed_out run /\
  stderr r = (captured_err s +:+ printed_err run) +:+ default "" (exception_traceback r) /\
  (success r = true <-> script_end run = Completed).
Proof.
  intros Hparse Hmain Hnone Hrange.
  destruct (state_at_exec_captured p) as (Hco & Hce & Hso & Hse & Hclock & Hhandler).
  unfold SafeExecutor.execute. rewrite Hparse.
  set (p0 := set_streams stdout_capture stderr_capture (set_captured "" "" p)) in *.
  assert ((_apply_resource_limits self p0).1 = None) as Hnone0
    by (by rewrite (apply_resource_limits_raises_same self p p0)).
  destruct (apply_resource_limits_frame self p0) as (_ & _ & _ & _ & Hm).
  assert (state_at_exec self p
          = set_alarm (armed (timeout self))
              (set_handler (timeout_handler (timeout self))
                 (_apply_resource_limits self p0).2)) as Hstate by done.
  destruct (_apply_resource_limits self p0) as [raised p1]. cbn [fst snd] in *.
  subst raised. unfold _timeout_context.
  rewrite Hm. cbn [in_main_thread set_streams set_captured p0]. rewrite Hmain.
  rewrite (signal_alarm_in_range _ _ Hrange).
  unfold run_script. rewrite <- Hstate. clear Hstate.
  set (s := state_at_exec self p) in *.
  rewrite Hhandler, Hso. cbn [write set_captured sys_stderr]. rewrite Hse.
  cbn [write set_captured captured_out captured_err].
  clearbody s.
  destruct (script_end (py_exec code s)) as [|e|type_name [e|e]|e|]; cbn;
    intros [= <-]; cbn [stdout stderr success exception_traceback default];
    rewrite ?append_nil_r; (split; [done|]; split; done).
Qed.

(** X26. What the script wrote before it ended is kept, also when it
    failed: in the main thread, with settings that the C library takes and
    the memory limit set, the result holds the script's standard output as
    it is, and the script's standard error followed by the traceback when the
    script raised or timed out. *)
Theorem execute_keeps_output_of_failed_script (code : string) (p : Process) (u : unit)
    (r : CodeExecutionResult) :
  ast_parse code = Ok u -> in_main_thread p = true ->
  resource_available p = true -> snd (rlimit_as p) = RLIM_INFINITY ->
  - 2 ^ 63 <= max_memory_mb self * 1024 * 1024 < 2 ^ 63 ->
  - 2 ^ 31 <= timeout self < 2 ^ 31 ->
  (execute ast_parse py_exec format_exc self code p).1 = Val r ->
  let run := py_exec code (state_at_exec self p) in
  stdout r = printed_out run /\
  stderr r = printed_err run +:+ default "" (exception_traceback r) /\
  (success r = true <-> script_end run = Completed).
Proof.
  intros Hparse Hmain Hres Hinf Hmem Hrange Hr.
  pose proof (proj1 (apply_resource_limits_raises self p) (or_intror Hmem)) as Hnone.
  destruct (execute_run_output code p u r Hparse Hmain Hnone Hrange Hr)
    as (Hout & Herr & Hsucc).
  destruct (state_at_exec_captured p) as (Hco & Hce & _).
  destruct (apply_resource_limits_captured p) as (Hco1 & _ & _ & Hce1 & _).
  cbv zeta in *. rewrite Hco, Hco1 in Hout. rewrite Hce, (Hce1 Hres Hinf) in Herr.
  done.
Qed.

(** X27. Where the memory limit cannot be set, because the [resource]
    module is missing or the hard limit is below the one asked for, a number
    of bytes in the range of a C [long], the warning about it is written to
    the captured standard error: it opens [stderr] of the result, so that
    [stderr] is never empty and the pipeline takes it, not the parse error,
    for the error message of a codegen fault. *)
Theorem limits_warning_shadows_parse_error (code : string) (p : Process) (u : unit)
    (r : CodeExecutionResult) (extra_error : option string) :
  ast_parse code = Ok u -> in_main_thread p = true ->
  resource_available p = false \/
  (exists hard, snd (rlimit_as p) = Bytes hard /\
                0 <= hard /\ hard < max_memory_mb self * 1024 * 1024 < 2 ^ 63) ->
  (execute ast_parse py_exec format_exc self code p).1 = Val r ->
  (exists rest, stderr r = limits_warning +:+ rest) /\
  VerificationPipeline.error_message_of r extra_error = stderr r.
Proof.
  intros Hparse Hmain Hwarn Hr.
  assert ((_apply_resource_limits self p).1 = None) as Hnone.
  { apply apply_resource_limits_raises.
    destruct Hwarn as [?|(hard & _ & ? & ? & ?)]; [by left|right; lia]. }
  destruct (apply_resource_limits_captured p) as (Hco1 & _ & _ & _ & Hce1).
  specialize (Hce1 Hwarn).
  assert (exists rest, stderr r = limits_warning +:+ rest) as [rest Hstderr].
  { destruct (decide (- 2 ^ 31 <= timeout self < 2 ^ 31)) as [Hrange|Hover].
    - destruct (execute_run_output code p u r Hparse Hmain Hnone Hrange Hr)
        as (_ & Herr & _).
      destruct (state_at_exec_captured p) as (_ & Hce & _).
      cbv zeta in *. rewrite Hce, Hce1 in Herr. rewrite Herr, !append_assoc. eauto.
    - revert Hr. unfold SafeExecutor.execute. rewrite Hparse.
      set (p0 := set_streams stdout_capture stderr_capture (set_captured "" "" p)) in *.
      assert ((_apply_resource_limits self p0).1 = None) as Hnone0
        by (by rewrite (apply_resource_limits_raises_same self p p0)).
      destruct (apply_resource_limits_frame self p0) as (_ & _ & _ & _ & Hm).
      destruct (_apply_resource_limits self p0) as [raised p1]. cbn [fst snd] in *.
      subst raised. unfold _timeout_context.
      rewrite Hm. cbn [in_main_thread set_streams set_captured p0]. rewrite Hmain.
      destruct (signal_alarm_out_of_range (timeout self)
                  (set_handler (timeout_handler (timeout self)) p1) Hover)
        as (e & -> & _).
      cbn. intros [= <-]. cbn [stderr]. rewrite Hce1. eauto. }
  split; [eauto|].
  unfold VerificationPipeline.error_message_of. by rewrite Hstderr.
Qed.

End Captured.

End MoreExecutorFacts.
(** ** codegen.py *)
Section MoreCodegenFacts.

Import SymPyCodeGenerator.

Lemma prefix_app (pat rest : string) : String.prefix pat (pat +:+ rest) = true.
Proof.
  induction pat as [|c pat IH]; [by destruct rest|].
  change (String.prefix (String c pat) (String c (pat +:+ rest)) = true).
  cbn [String.prefix]. by destruct (ascii_dec c c).
Qed.

Lemma substring_app (pat rest : string) :
  substring (String.length pat) (String.length (pat +:+ rest) - String.length pat)
    (pat +:+ rest) = rest.
Proof.
  induction pat as [|c pat IH].
  - change ("" +:+ rest) with rest. cbn [String.length]. rewrite Nat.sub_0_r.
    induction rest as [|c rest IH]; [done|]. cbn. by rewrite IH.
  - change (String c pat +:+ rest) with (String c (pat +:+ rest)). cbn. exact IH.
Qed.

Lemma prefix_other_head (c d : ascii) (pat s : string) :
  c <> d -> String.prefix (String c pat) (String d s) = false.
Proof. intros Hne. cbn. by destruct (ascii_dec c d). Qed.

Lemma count_char_cons (c d : ascii) (s : string) :
  count_char c (String d s) = 0%nat -> c <> d /\ count_char c s = 0%nat.
Proof.
  cbn [count_char]. destruct (Ascii.eqb_spec c d); [done|]. by intros.
Qed.

Lemma count_char_app (c : ascii) (s t : string) :
  count_char c (s +:+ t) = (count_char c s + count_char c t)%nat.
Proof.
  induction s as [|d s IH]; [done|].
  change (String d s +:+ t) with (String d (s +:+ t)). cbn [count_char].
  rewrite IH. lia.
Qed.

(** The opening of a block is not found in text without backticks. *)
Lemma after_first_skip (pat free rest : string) :
  count_char backtick free = 0%nat ->
  after_first (String backtick pat) (free +:+ rest)
    = after_first (String backtick pat) rest.
Proof.
  induction free as [|c free IH]; [done|].
  intros [Hc Hfree]%count_char_cons.
  change (String c free +:+ rest) with (String c (free +:+ rest)).
  cbn [after_first]. rewrite (prefix_other_head _ _ _ _ Hc). by apply IH.
Qed.

Lemma after_first_free (pat free : string) :
  count_char backtick free = 0%nat -> after_first (String backtick pat) free = None.
Proof.
  induction free as [|c free IH]; [done|].
  intros [Hc Hfree]%count_char_cons.
  cbn [after_first]. rewrite (prefix_other_head _ _ _ _ Hc). by apply IH.
Qed.

Lemma after_first_here (pat rest : string) : after_first pat (pat +:+ rest) = Some rest.
Proof.
  destruct (pat +:+ rest) as [|c s] eqn:Heq.
  - cbn [after_first]. rewrite <- Heq at 1. rewrite prefix_app, <- Heq.
    by rewrite substring_app.
  - cbn [after_first]. rewrite <- Heq. by rewrite prefix_app, substring_app.
Qed.

Lemma before_first_fence (body post : string) :
  count_char backtick body = 0%nat ->
  before_first fence (body +:+ fence +:+ post) = Some body.
Proof.
  induction body as [|c body IH].
  - intros _. change ("" +:+ fence +:+ post) with (fence +:+ post).
    destruct (fence +:+ post) as [|c s] eqn:Heq; [done|].
    cbn [before_first]. by rewrite <- Heq, prefix_app.
  - intros [Hc Hbody]%count_char_cons.
    change (String c body +:+ fence +:+ post) with (String c (body +:+ fence +:+ post)).
    cbn [before_first]. unfold fence at 1.
    rewrite (prefix_other_head _ _ _ _ Hc). fold fence. by rewrite IH.
Qed.

Lemma before_first_free (free : string) :
  count_char backtick free = 0%nat -> before_first fence free = None.
Proof.
  induction free as [|c free IH]; [done|].
  intros [Hc Hfree]%count_char_cons.
  cbn [before_first]. unfold fence at 1.
  rewrite (prefix_other_head _ _ _ _ Hc). fold fence. by rewrite IH.
Qed.

(** X28. The round trip of a fenced answer: when the text before a block
    opened by three backticks and [python] has no backtick and the body has
    none, [extract_code] returns the body, stripped, whatever follows the
    closing fence. *)
Theorem extract_code_python_block (pre body post : string) :
  count_char backtick pre = 0%nat -> count_char backtick body = 0%nat ->
  extract_code (pre +:+ "```python" +:+ PyStr.nl +:+ body +:+ "```" +:+ post)
    = Some (PyStr.strip body).
Proof.
  intros Hpre Hbody. unfold extract_code, search_block.
  change ("```python" +:+ PyStr.nl +:+ body +:+ "```" +:+ post)
    with (("```python" +:+ PyStr.nl) +:+ (body +:+ fence +:+ post)).
  change ("```python" +:+ PyStr.nl) with (String backtick ("``python" +:+ PyStr.nl)).
  rewrite (after_first_skip _ _ _ Hpre), after_first_here.
  cbn [mbind option_bind]. by rewrite (before_first_fence _ _ Hbody).
Qed.

(** X29. An answer without any backtick has no block; it is taken for code,
    as a whole and stripped, only when it mentions [import sympy] and
    [import json] and has more than three lines, and gives no code
    otherwise. *)
Theorem extract_code_without_fence (model_response : string) :
  count_char backtick model_response = 0%nat ->
  extract_code model_response =
    if PyStr.contains "import sympy" model_response
       && PyStr.contains "import json" model_response
       && (3 <? count_char (ascii_of_N 10) (PyStr.strip model_response) + 1)%nat
    then Some (PyStr.strip model_response) else None.
Proof.
  intros Hfree. unfold extract_code, search_block.
  change ("```python" +:+ PyStr.nl) with (String backtick ("``python" +:+ PyStr.nl)).
  change ("```" +:+ PyStr.nl) with (String backtick ("``" +:+ PyStr.nl)).
  by rewrite !(after_first_free _ _ Hfree).
Qed.

Lemma prefix_split (pat s : string) :
  String.prefix pat s = true ->
  s = pat +:+ substring (String.length pat) (String.length s - String.length pat) s.
Proof.
  revert s. induction pat as [|c pat IH]; intros s.
  - intros _. change ("" +:+ ?x) with x. cbn [String.length]. rewrite Nat.sub_0_r.
    induction s as [|c s IHs]; [done|]. cbn. by rewrite <- IHs.
  - destruct s as [|d s]; [done|]. cbn [String.prefix].
    destruct (ascii_dec c d) as [->|]; [|done]. intros Hpre.
    change (String d pat +:+ ?x) with (String d (pat +:+ x)). cbn.
    f_equal. by apply IH.
Qed.

Lemma after_first_backticks (pat s rest : string) :
  after_first pat s = Some rest ->
  (count_char backtick pat + count_char backtick rest <= count_char backtick s)%nat.
Proof.
  induction s as [|c s IH].
  - destruct pat; [|done]. by intros [= <-].
  - cbn [after_first]. destruct (String.prefix pat (String c s)) eqn:Hpre.
    + intros [= <-]. apply prefix_split in Hpre.
      apply (f_equal (count_char backtick)) in Hpre.
      rewrite count_char_app in Hpre.
      apply Nat.eq_le_incl. symmetry. exact Hpre.
    + intros Hrest. specialize (IH Hrest). cbn [count_char]. lia.
Qed.

(** X30. Without a block tagged [python], the first plain block is taken:
    when the text around and inside a block opened by three backticks and a
    line break has no backtick, [extract_code] returns its body, stripped. *)
Theorem extract_code_plain_block (pre body post : string) :
  count_char backtick pre = 0%nat -> count_char backtick body = 0%nat ->
  count_char backtick post = 0%nat ->
  extract_code (pre +:+ "```" +:+ PyStr.nl +:+ body +:+ "```" +:+ post)
    = Some (PyStr.strip body).
Proof.
  intros Hpre Hbody Hpost. unfold extract_code, search_block.
  set (python := "```python" +:+ PyStr.nl).
  assert (after_first python
            (pre +:+ "```" +:+ PyStr.nl +:+ body +:+ "```" +:+ post)
          = after_first python (fence +:+ post)) as ->.
  { change python with (String backtick ("``python" +:+ PyStr.nl)).
    rewrite (after_first_skip _ _ _ Hpre).
    change ("```" +:+ PyStr.nl +:+ body +:+ "```" +:+ post)
      with (String backtick (String backtick (String backtick
              (PyStr.nl +:+ body +:+ fence +:+ post)))).
    transitivity (after_first (String backtick ("``python" +:+ PyStr.nl))
                    (PyStr.nl +:+ body +:+ fence +:+ post)); [reflexivity|].
    transitivity (after_first (String backtick ("``python" +:+ PyStr.nl))
                    (body +:+ fence +:+ post)); [reflexivity|].
    by rewrite (after_first_skip _ _ _ Hbody). }
  assert ((b ← after_first python (fence +:+ post); before_first fence b) = None) as ->.
  { destruct (after_first python (fence +:+ post)) as [rest|] eqn:Hrest; [|done].
    apply after_first_backticks in Hrest. rewrite count_char_app, Hpost in Hrest.
    change (count_char backtick python) with 3%nat in Hrest.
    change (count_char backtick fence) with 3%nat in Hrest.
    apply before_first_free. lia. }
  change ("```" +:+ PyStr.nl +:+ body +:+ "```" +:+ post)
    with (("```" +:+ PyStr.nl) +:+ (body +:+ fence +:+ post)).
  change ("```" +:+ PyStr.nl) with (String backtick ("``" +:+ PyStr.nl)).
  rewrite (after_first_skip _ _ _ Hpre), after_first_here.
  cbn [mbind option_bind]. by rewrite (before_first_fence _ _ Hbody).
Qed.

End MoreCodegenFacts.
(** ** The properties on the scenarios *)
Section MoreRuns.

Import Scenario Cases.

(** The verdict of scenario A has a boolean flag. *)
Lemma parse_verdict_has_boolean_flag_witness :
  exists b, verdict_dict !! "final_answer_verified" = Some (JBool b).
Proof.
  apply (parse_verdict_has_boolean_flag loads (executed scenario_A) [ok_step]
           verdict_dict None).
  vm_compute. reflexivity.
Defined.

(** The step of scenario A is the step of its step line. *)
Lemma parse_steps_in_output_order_witness :
  [ok_step] = ([] ++ omap (appended_step loads) [step_line; verdict_line])%list.
Proof.
  apply (parse_steps_in_output_order loads [step_line; verdict_line] ([], None)
           [ok_step] (Some verdict_dict)).
  vm_compute. reflexivity.
Defined.

(** A step object that has no description. *)
Lemma step_defaults_witness :
  VerificationOutputParser.on_record (JObj bare_step_dict) ([], None)
    = Ok (([] ++ [mkStepVerification 7 "" true])%list, None).
Proof.
  destruct (step_defaults bare_step_dict ([], None) true) as [Hint _];
    [vm_compute; reflexivity..|].
  apply Hint. vm_compute. reflexivity.
Defined.

(** A step whose description is [null], after a good step. *)
Lemma non_string_description_is_parse_error_witness :
  exists e,
    VerificationOutputParser.parse_lines loads
      ([step_line] ++ null_description_line :: []) ([], None)
      = ([ok_step], None, Some e) /\
    exc_type e = "ValidationError".
Proof.
  apply (non_string_description_is_parse_error loads [step_line] [] null_description_line
           {["step" := JInt 3; "description" := JNull; "verified" := JBool true]}
           JNull ([], None) [ok_step] None);
    vm_compute; (reflexivity || discriminate).
Defined.

(** Scenario A ends in one of the three statuses. *)
Lemma verify_status_is_one_of_three_witness :
  exists v,
    (VerificationPipeline.verify rt_A pipeline artifact world).1 = Val v /\
    (status v = "verified" \/ status v = "failed_reasoning" \/ status v = "failed_pipeline")
    /\ status v <> "failed_codegen".
Proof.
  eexists. split; [vm_compute; reflexivity|].
  apply (verify_status_is_one_of_three rt_A pipeline artifact world).
  vm_compute. reflexivity.
Defined.

(** Scenario D ends without an execution result. *)
Lemma failed_pipeline_iff_no_execution_witness :
  exists v,
    (VerificationPipeline.verify rt_D pipeline artifact world).1 = Val v /\
    status v = "failed_pipeline" /\
    (status v = "failed_pipeline" <-> execution_result v = None) /\
    (status v = "failed_pipeline" ->
     confidence_score v = 0%Q /\ step_verifications v = [] /\
     answer_match v = None /\ errors v <> []).
Proof.
  eexists. split; [vm_compute; reflexivity|]. split; [reflexivity|].
  apply (failed_pipeline_iff_no_execution rt_D pipeline artifact world).
  vm_compute. reflexivity.
Defined.

(** Scenario A is verified, and clean. *)
Lemma verified_result_is_clean_witness :
  exists v,
    (VerificationPipeline.verify rt_A pipeline artifact world).1 = Val v /\
    status v = "verified" /\
    (status v = "verified" <->
     answer_match v = Some true /\
     Forall (fun s => verified s = true) (step_verifications v)) /\
    (status v = "verified" ->
     errors v = [] /\ (confidence_score v == 1)%Q /\ generated_code v <> "" /\
     exists r, execution_result v = Some r /\ success r = true).
Proof.
  eexists. split; [vm_compute; reflexivity|]. split; [reflexivity|].
  apply (verified_result_is_clean rt_A pipeline artifact world).
  vm_compute. reflexivity.
Defined.

(** Scenario B names the mismatch of the answer. *)
Lemma failed_reasoning_names_the_failure_witness :
  exists v,
    (VerificationPipeline.verify rt_B pipeline artifact world).1 = Val v /\
    map error_type (errors v) =
      ((if bool_decide (Exists (fun s => verified s = false) (step_verifications v))
        then [ASSERTION_FAILED] else []) ++
       (if bool_decide (answer_match v = Some false) then [ANSWER_MISMATCH] else []))%list /\
    errors v <> [] /\ (1 # 2 <= confidence_score v)%Q.
Proof.
  eexists. split; [vm_compute; reflexivity|].
  apply (failed_reasoning_names_the_failure rt_B pipeline artifact world);
    vm_compute; reflexivity.
Defined.

(** Scenario B: a false verdict and no step give a confidence between 0.5
    and 0.75. *)
Lemma confidence_tells_verdict_witness :
  (1 # 2 <= VerificationPipeline._calculate_confidence (executed scenario_B) []
              (Some false_verdict_dict))%Q /\
  (VerificationPipeline._calculate_confidence (executed scenario_B) []
     (Some false_verdict_dict) <= 3 # 4)%Q.
Proof.
  apply (confidence_tells_verdict (executed scenario_B) [] false_verdict_dict false);
    reflexivity.
Defined.

(** One failed step in 5001 and a true verdict: the confidence is 1. *)
Lemma rounding_hides_rare_failed_steps_witness :
  Exists (fun s => verified s = false) mostly_verified /\
  (VerificationPipeline._calculate_confidence (executed scenario_A) mostly_verified
     (Some verdict_dict) == 1)%Q.
Proof.
  split.
  - apply Exists_app. right. by constructor.
  - apply (rounding_hides_rare_failed_steps (executed scenario_A) mostly_verified
             verdict_dict); [reflexivity|reflexivity|].
    apply Nat.ltb_lt. vm_compute. reflexivity.
Defined.

(** Scenario B with one attempt at repairing the reasoning. *)
Lemma repair_history_is_numbered_witness :
  exists v history,
    (VerificationOrchestrator.verify_with_repair rt_B pipeline artifact 1 world).1
      = Val (v, history) /\
    VerificationOrchestrator.attempt_number <$> history
      = seqZ 1 (Z.of_nat (length history)) /\
    Z.of_nat (length history) <= 1 /\
    Forall (fun a =>
              VerificationOrchestrator.repair_type a = "reasoning" /\
              VerificationOrchestrator.error_message a = None /\
              VerificationOrchestrator.reason a
                = "Reasoning verification failed with status: failed_reasoning" /\
              VerificationOrchestrator.success a
                = bool_decide (is_Some (VerificationOrchestrator.repaired_reasoning a)))
           history.
Proof.
  do 2 eexists. split; [vm_compute; reflexivity|].
  eapply (repair_history_is_numbered rt_B pipeline artifact 1 world);
    [lia|vm_compute; reflexivity].
Defined.

Lemma only_the_last_repair_can_fail_witness :
  exists v history,
    (VerificationOrchestrator.verify_with_repair rt_B pipeline artifact 1 world).1
      = Val (v, history) /\
    (forall i a, history !! i = Some a -> (S i < length history)%nat ->
                 VerificationOrchestrator.success a = true) /\
    (status v <> "failed_reasoning" ->
     Forall (fun a => VerificationOrchestrator.success a = true) history) /\
    (status v = "failed_reasoning" ->
     Z.of_nat (length history) = 1 \/
     exists a, last history = Some a /\ VerificationOrchestrator.success a = false).
Proof.
  do 2 eexists. split; [vm_compute; reflexivity|].
  apply (only_the_last_repair_can_fail rt_B pipeline artifact 1 world);
    [lia|vm_compute; reflexivity].
Defined.

Lemma result_is_about_the_last_repaired_reasoning_witness :
  exists v history,
    (VerificationOrchestrator.verify_with_repair rt_B pipeline artifact 1 world).1
      = Val (v, history) /\
    reasoning_output v
      = default artifact (last (omap VerificationOrchestrator.repaired_reasoning history)) /\
    original_problem (reasoning_output v) = original_problem artifact.
Proof.
  do 2 eexists. split; [vm_compute; reflexivity|].
  apply (result_is_about_the_last_repaired_reasoning rt_B pipeline artifact 1 world);
    [lia|vm_compute; reflexivity].
Defined.


(** Minus one attempt on scenario B. *)
Lemma negative_attempts_raise_UnboundLocalError_witness :
  let run := VerificationOrchestrator.verify_with_repair rt_B pipeline artifact (-1) world in
  (exists e, run.1 = Exc e /\ exc_type e = "UnboundLocalError") /\
  trace run.2 = (trace world ++ [Printed "Max reasoning repair attempts reached."])%list.
Proof.
  apply (negative_attempts_raise_UnboundLocalError rt_B pipeline artifact (-1) world).
  lia.
Defined.

(** [sympy] and [sympy.solvers] are imported, whatever the rendering of the
    set in the message. *)
Lemma restricted_import_decided_by_top_package_witness :
  (SafeExecutor._restricted_import allowed_repr "sympy" = None
   <-> "sympy" ∈ SafeExecutor.allowed_modules) /\
  (SafeExecutor._restricted_import allowed_repr ("sympy" +:+ "." +:+ "solvers") = None
   <-> "sympy" ∈ SafeExecutor.allowed_modules) /\
  (forall name e, SafeExecutor._restricted_import allowed_repr name = Some e ->
                  exc_type e = "ImportError").
Proof.
  apply (restricted_import_decided_by_top_package allowed_repr "sympy" "solvers").
  reflexivity.
Defined.

(** In a worker thread the script of scenario A does not run. *)
Lemma off_main_thread_script_never_runs_witness :
  SafeExecutor.execute syntax_check (exec_table [scenario_A]) format_traceback
    default_executor (prints scenario_A) worker
  = SafeExecutor.execute syntax_check (exec_table []) format_traceback
      default_executor (prints scenario_A) worker /\
  exists r,
    (SafeExecutor.execute syntax_check (exec_table [scenario_A]) format_traceback
       default_executor (prints scenario_A) worker).1 = Val r /\
    success r = false /\ stdout r = "" /\
    exception_type r = Some "UnboundLocalError".
Proof.
  destruct (off_main_thread_script_never_runs syntax_check format_traceback
              default_executor (exec_table [scenario_A]) (exec_table [])
              (prints scenario_A) worker tt)
    as (Hsame & (r & Hr & Hfailed & Hout & Hunbound & _) & _); [reflexivity..|].
  split; [exact Hsame|]. exists r. split; [exact Hr|]. split; [exact Hfailed|].
  split; [exact Hout|]. apply Hunbound. right. split; by vm_compute.
Defined.

(** A script that prints a step and then divides by zero. *)
Lemma execute_keeps_output_of_failed_script_witness :
  exists r,
    (SafeExecutor.execute syntax_check exec_partial format_traceback default_executor
       raises_name_error host).1 = Val r /\
    let run := exec_partial raises_name_error
                 (SafeExecutor.state_at_exec default_executor host) in
    stdout r = SafeExecutor.printed_out run /\
    stderr r = SafeExecutor.printed_err run +:+ default "" (exception_traceback r) /\
    (success r = true <-> SafeExecutor.script_end run = SafeExecutor.Completed).
Proof.
  eexists. split; [vm_compute; reflexivity|].
  apply (execute_keeps_output_of_failed_script syntax_check format_traceback
           default_executor exec_partial raises_name_error host tt);
    first [vm_compute; reflexivity | split; by vm_compute].
Defined.

(** Scenario C where the memory limit cannot be set. *)
Lemma limits_warning_shadows_parse_error_witness :
  exists r,
    (SafeExecutor.execute syntax_check (exec_table [scenario_C]) format_traceback
       default_executor (prints scenario_C) bare_host).1 = Val r /\
    (exists rest, stderr r = SafeExecutor.limits_warning +:+ rest) /\
    VerificationPipeline.error_message_of r (Some "Output parsing failed: not JSON")
      = stderr r.
Proof.
  eexists. split; [vm_compute; reflexivity|].
  apply (limits_warning_shadows_parse_error syntax_check format_traceback default_executor
           (exec_table [scenario_C]) (prints scenario_C) bare_host tt);
    [reflexivity|reflexivity|by left|vm_compute; reflexivity].
Defined.

(** The answer of the model in the scenarios. *)
Lemma extract_code_python_block_witness :
  SymPyCodeGenerator.extract_code
    (("Here is the script." +:+ PyStr.nl) +:+ "```python" +:+ PyStr.nl
     +:+ (prints scenario_A +:+ PyStr.nl) +:+ "```" +:+ PyStr.nl)
  = Some (PyStr.strip (prints scenario_A +:+ PyStr.nl)).
Proof.
  apply (extract_code_python_block ("Here is the script." +:+ PyStr.nl)
           (prints scenario_A +:+ PyStr.nl) PyStr.nl);
    vm_compute; reflexivity.
Defined.

(** An apology is not code. *)
Lemma extract_code_without_fence_witness :
  SymPyCodeGenerator.extract_code "I cannot verify this solution." = None.
Proof.
  rewrite (extract_code_without_fence "I cannot verify this solution.");
    vm_compute; reflexivity.
Defined.

Lemma extract_code_plain_block_witness :
  SymPyCodeGenerator.extract_code
    ("Script:" +:+ "```" +:+ PyStr.nl +:+ (prints scenario_B +:+ PyStr.nl)
     +:+ "```" +:+ " Done.")
  = Some (PyStr.strip (prints scenario_B +:+ PyStr.nl)).
Proof.
  apply (extract_code_plain_block "Script:" (prints scenario_B +:+ PyStr.nl) " Done.");
    vm_compute; reflexivity.
Defined.

(** The model cannot be reached. *)
Lemma model_failure_is_failed_pipeline_witness :
  let args := mkCallArgs "verification" "codegen/baseline_codegen@v3"
                (ReasoningVariables artifact) None None in
  let run := VerificationPipeline.verify rt_offline pipeline artifact world in
  trace run.2
    = (trace world
       ++ [ModelCall args (Raise (mkExc "ConnectionError" "model endpoint unreachable"))])%list /\
  exists v,
    run.1 = Val v /\ status v = "failed_pipeline" /\ generated_code v = "" /\
    errors v =
      [new_VerificationError RUNTIME_ERROR
         ("Initial code generation failed: LLM call for code generation failed: "
          +:+ exc_message (mkExc "ConnectionError" "model endpoint unreachable"))].
Proof.
  apply (model_failure_is_failed_pipeline rt_offline pipeline artifact world
           (mkExc "ConnectionError" "model endpoint unreachable")).
  reflexivity.
Defined.

(** Scenario D after a first run that timed out: the repair loops too. *)
Lemma failed_repair_reports_first_fault_witness :
  exists v,
    (VerificationPipeline._handle_codegen_fault rt_D pipeline infinite_loop timed_out
       artifact None world).1 = Val v /\
    status v = "failed_pipeline" /\ generated_code v = infinite_loop /\
    error_type <$> errors v = [SYNTAX_ERROR] /\
    message <$> errors v = [stderr timed_out].
Proof.
  exists (VerificationPipeline._create_failure_result artifact
            "Codegen fault repair failed: Repaired code also failed to execute."
            infinite_loop [new_VerificationError SYNTAX_ERROR (stderr timed_out)]).
  split; [vm_compute; reflexivity|]. split; [reflexivity|].
  destruct (failed_repair_reports_first_fault rt_D pipeline infinite_loop timed_out
              artifact None world
              (VerificationPipeline._create_failure_result artifact
                 "Codegen fault repair failed: Repaired code also failed to execute."
                 infinite_loop
                 [new_VerificationError SYNTAX_ERROR (stderr timed_out)]))
    as [Hfailed _]; [vm_compute; reflexivity|].
  destruct Hfailed as [Hcode Herrors]; [reflexivity|].
  split; [exact Hcode|]. rewrite Herrors. split; vm_compute; reflexivity.
Defined.

(** The feedback of scenario B opens with the mismatch. *)
Lemma repair_feedback_opens_with_first_error_witness :
  exists v,
    (VerificationPipeline.verify rt_B pipeline artifact world).1 = Val v /\
    exists e tail,
      head (errors v) = Some e /\
      VerificationOrchestrator._create_reasoning_repair_context v
        = "- " +:+ message e +:+ tail.
Proof.
  eexists. split; [vm_compute; reflexivity|].
  apply (repair_feedback_opens_with_first_error rt_B pipeline artifact world);
    vm_compute; reflexivity.
Defined.

End MoreRuns.
